(** * Monthly ledger aggregator: the in-memory storage layer

    A shallow embedding of [server/storage.ts] (class [MemStorage]) together
    with the JavaScript built-ins its aggregation relies on ([Number] applied
    to a string, [+] on doubles, [Number.prototype.toFixed],
    [Array.prototype.sort], [Array.prototype.slice], [Map]), followed by the
    properties of the monthly aggregation and roll-over routines.  The
    embedding also covers the users of [MemStorage], the callers of the
    storage in [server/routes.ts] (the [isAuthenticated] middleware, the
    ledger routes, the login) and the client's [isUnauthorizedError].

    Conventions of the embedding:
    - a JavaScript number is an IEEE-754 binary64 value: the kernel's
      primitive [float]; conversions from and to decimal text go through the
      Standard Library's specification of binary64 rounding ([SpecFloat]);
    - a JavaScript string is a [string] of ASCII characters;
    - a [Map] is an association list in insertion order;
    - [generateId ()] draws from an id source [rng]: its [k]-th call returns
      [rng k]; the number of draws made so far is part of the state.  That
      two draws never give the same id is not built in: the results that
      rely on it take it as the hypothesis [rng_inj];
    - every storage operation reads the wall clock; an operation is given the
      [Date] its [new Date ()] calls observe as its argument [now]: one
      operation runs within one month. *)

From Stdlib Require Import ZArith List String Ascii Bool Lia.
From Stdlib Require Import Permutation Sorted QArith.
From Stdlib Require Import Floats.
Import ListNotations.

Local Open Scope string_scope.
Local Open Scope Z_scope.

(** ** JavaScript numbers and their decimal text *)

Module JS.

(** Binary64 value nearest to [m * 10^e10] (ties to even), negated when [neg]. *)
Definition roundDecimal (neg : bool) (m : Z) (e10 : Z) : spec_float :=
  match m with
  | Zpos p =>
      if 0 <=? e10
      then binary_normalize prec emax ((if neg then Zneg p else Zpos p) * 10 ^ e10) 0 false
      else SFdiv prec emax (S754_finite neg p 0)
                           (S754_finite false (Z.to_pos (10 ^ (- e10))) 0)
  | _ => S754_zero neg
  end.

Definition isDigit (c : ascii) : bool :=
  let n := nat_of_ascii c in (48 <=? n)%nat && (n <=? 57)%nat.

Definition digitValue (c : ascii) : Z := Z.of_nat (nat_of_ascii c) - 48.

(** Value of a digit in base 16, 8 or 2, if it is one. *)
Definition radixDigit (radix : Z) (c : ascii) : option Z :=
  let n := Z.of_nat (nat_of_ascii c) in
  let v := if (48 <=? n) && (n <=? 57) then n - 48
           else if (97 <=? n) && (n <=? 102) then n - 87
           else if (65 <=? n) && (n <=? 70) then n - 55
           else 99 in
  if v <? radix then Some v else None.

(** A maximal run of decimal digits: accumulated value, digits read, rest. *)
Fixpoint readDigits (s : list ascii) (acc count : Z) : Z * Z * list ascii :=
  match s with
  | c :: r => if isDigit c then readDigits r (10 * acc + digitValue c) (count + 1)
              else (acc, count, s)
  | [] => (acc, count, [])
  end.

Fixpoint readRadix (radix : Z) (s : list ascii) (acc : Z) : option Z :=
  match s with
  | [] => Some acc
  | c :: r => match radixDigit radix c with
              | Some v => readRadix radix r (radix * acc + v)
              | None => None
              end
  end.

(** ExponentPart, optional: [e] or [E], an optional sign, at least one digit;
    nothing may follow. *)
Definition readExponent (s : list ascii) : option Z :=
  match s with
  | [] => Some 0
  | c :: r =>
      if (Ascii.eqb c "e" || Ascii.eqb c "E")%bool then
        let '(neg, r') :=
          match r with
          | "+"%char :: t => (false, t)
          | "-"%char :: t => (true, t)
          | _ => (false, r)
          end in
        match readDigits r' 0 0 with
        | (v, n, []) => if 0 <? n then Some (if neg then - v else v) else None
        | _ => None
        end
      else None
  end.

(** StrUnsignedDecimalLiteral other than [Infinity]: mantissa and power of ten. *)
Definition readUnsignedDecimal (s : list ascii) : option (Z * Z) :=
  let '(i, ni, r1) := readDigits s 0 0 in
  let '(m, nf, r2) :=
    match r1 with
    | "."%char :: t => readDigits t i 0
    | _ => (i, 0, r1)
    end in
  if 0 <? ni + nf then
    match readExponent r2 with
    | Some ex => Some (m, ex - nf)
    | None => None
    end
  else None.

Definition isStrWhiteSpaceChar (c : ascii) : bool :=
  let n := nat_of_ascii c in
  ((9 <=? n)%nat && (n <=? 13)%nat) || (n =? 32)%nat.

Fixpoint dropWhiteSpace (s : list ascii) : list ascii :=
  match s with
  | c :: r => if isStrWhiteSpaceChar c then dropWhiteSpace r else s
  | [] => []
  end.

Definition trimWhiteSpace (s : list ascii) : list ascii :=
  rev (dropWhiteSpace (rev (dropWhiteSpace s))).

Definition infinityText : list ascii := list_ascii_of_string "Infinity".

Definition asciisEqb (a b : list ascii) : bool :=
  String.eqb (string_of_list_ascii a) (string_of_list_ascii b).

(** StringToNumber on the trimmed text, as a binary64 specification value. *)
Definition stringToSpec (s : list ascii) : spec_float :=
  let unsignedDecimal (neg : bool) (t : list ascii) :=
    if asciisEqb t infinityText then S754_infinity neg
    else match readUnsignedDecimal t with
         | Some (m, e) => roundDecimal neg m e
         | None => S754_nan
         end in
  let nonDecimal (radix : Z) (t : list ascii) :=
    match t with
    | [] => S754_nan
    | _ => match readRadix radix t 0 with
           | Some v => roundDecimal false v 0
           | None => S754_nan
           end
    end in
  match s with
  | [] => S754_zero false
  | "+"%char :: t => unsignedDecimal false t
  | "-"%char :: t => unsignedDecimal true t
  | "0"%char :: "x"%char :: t | "0"%char :: "X"%char :: t => nonDecimal 16 t
  | "0"%char :: "o"%char :: t | "0"%char :: "O"%char :: t => nonDecimal 8 t
  | "0"%char :: "b"%char :: t | "0"%char :: "B"%char :: t => nonDecimal 2 t
  | _ => unsignedDecimal false s
  end.

(** [Number(s)] for a string [s]. *)
Definition Number (s : string) : float :=
  SF2Prim (stringToSpec (trimWhiteSpace (list_ascii_of_string s))).

Fixpoint digitsOf (fuel : nat) (n : Z) (acc : string) : string :=
  match fuel with
  | O => acc
  | S f =>
      let acc' := String (ascii_of_nat (48 + Z.to_nat (n mod 10))) acc in
      if n / 10 =? 0 then acc' else digitsOf f (n / 10) acc'
  end.

(** Decimal representation of a non-negative integer. *)
Definition decimalString (n : Z) : string :=
  digitsOf (S (Z.to_nat (Z.log2 n))) n "".

Definition zeros (k : nat) : string := string_of_list_ascii (repeat "0"%char k).

(** Number of decimal digits of a positive integer. *)
Definition decimalLength (n : Z) : Z := Z.of_nat (String.length (decimalString n)).

(** The shortest digit string [s] (an integer of [k] digits, [k] least) and
    the exponent [n] with [s * 10^(n-k)] reading back as the positive
    integer-valued double [x = mx * 2^ex]; among several [s] the closest to
    [x], then the even one.  [fuel] bounds the search over [k]. *)
Fixpoint shortestDigits (fuel : nat) (k : Z) (mx : positive) (ex : Z) : Z * Z :=
  let X := Zpos mx * 2 ^ ex in
  let nd := decimalLength X in
  match fuel with
  | O => (X, nd)
  | S f =>
      let p := 10 ^ (nd - k) in
      let s0 := X / p in
      let readsBack (s : Z) :=
        match roundDecimal false (s * p) 0 with
        | S754_finite _ m e => Pos.eqb m mx && (e =? ex)
        | _ => false
        end in
      let lo := readsBack s0 in
      let hi := readsBack (s0 + 1) in
      let dlo := X - s0 * p in
      let dhi := (s0 + 1) * p - X in
      let pick (s : Z) := if s =? 10 ^ k then (10 ^ (k - 1), nd + 1) else (s, nd) in
      if lo && hi then
        (if dlo <? dhi then pick s0
         else if dhi <? dlo then pick (s0 + 1)
         else if Z.even s0 then pick s0 else pick (s0 + 1))
      else if lo then pick s0
      else if hi then pick (s0 + 1)
      else shortestDigits f (k + 1) mx ex
  end.

(** Number::toString of a finite double of magnitude at least [10^21]
    (scientific notation), without the sign. *)
Definition exponentialString (mx : positive) (ex : Z) : string :=
  let '(s, n) := shortestDigits 17 1 mx ex in
  let d := decimalString s in
  let mantissa :=
    match d with
    | String c EmptyString => String c EmptyString
    | String c r => String c ("." ++ r)
    | EmptyString => EmptyString
    end in
  mantissa ++ "e+" ++ decimalString (n - 1).

(** [x.toFixed(fractionDigits)] for [0 <= fractionDigits <= 100]. *)
Definition toFixed (x : float) (fractionDigits : nat) : string :=
  let f := Z.of_nat fractionDigits in
  match Prim2SF x with
  | S754_nan => "NaN"
  | S754_infinity s => if s then "-Infinity" else "Infinity"
  | S754_zero _ =>
      if (fractionDigits =? 0)%nat then "0" else "0." ++ zeros fractionDigits
  | S754_finite s mx ex =>
      let sign := if s then "-" else "" in
      let m :=
        if (0 <=? ex) && (10 ^ 21 <=? Zpos mx * 2 ^ ex) then exponentialString mx ex
        else
          (* n: the integer nearest to x * 10^f, the larger one on a tie *)
          let n := if 0 <=? ex then Zpos mx * 2 ^ ex * 10 ^ f
                   else (2 * Zpos mx * 10 ^ f + 2 ^ (- ex)) / (2 * 2 ^ (- ex)) in
          let digits := decimalString n in
          if (fractionDigits =? 0)%nat then digits
          else
            let padded :=
              if (String.length digits <=? fractionDigits)%nat
              then zeros (fractionDigits + 1 - String.length digits) ++ digits
              else digits in
            let k := String.length padded in
            substring 0 (k - fractionDigits) padded ++ "." ++
            substring (k - fractionDigits) fractionDigits padded in
      sign ++ m
  end.

End JS.

Local Open Scope list_scope.
Local Open Scope Z_scope.

(** ** JavaScript containers *)

(** [Map<string, V>]: entries in insertion order.  [set] on a key already
    present replaces the value in place; on a new key it appends. *)
Module JsMap.

Definition t (V : Type) : Type := list (string * V).

Definition empty {V : Type} : t V := [].

Fixpoint get {V : Type} (k : string) (m : t V) : option V :=
  match m with
  | [] => None
  | (k', v) :: r => if String.eqb k' k then Some v else get k r
  end.

Fixpoint set {V : Type} (k : string) (v : V) (m : t V) : t V :=
  match m with
  | [] => [(k, v)]
  | (k', v') :: r => if String.eqb k' k then (k, v) :: r else (k', v') :: set k v r
  end.

Definition delete {V : Type} (k : string) (m : t V) : t V :=
  filter (fun kv => negb (String.eqb (fst kv) k)) m.

Definition keys {V : Type} (m : t V) : list string := map fst m.

Definition values {V : Type} (m : t V) : list V := map snd m.

End JsMap.

Module JsArray.

(** [Array.prototype.sort] with a comparator: the sort is stable, so for a
    consistent comparator its result is the one of a stable insertion sort
    ([a] stays before [b] unless [cmp a b > 0]). *)
Fixpoint insertSorted {A : Type} (cmp : A -> A -> Z) (x : A) (l : list A) : list A :=
  match l with
  | [] => [x]
  | y :: r => if cmp x y <=? 0 then x :: l else y :: insertSorted cmp x r
  end.

Definition sort {A : Type} (cmp : A -> A -> Z) (l : list A) : list A :=
  fold_right (insertSorted cmp) [] l.

(** [l.slice(0, e)] for an integer [e]: a negative [e] counts from the end. *)
Definition slice0 {A : Type} (l : list A) (e : Z) : list A :=
  let len := Z.of_nat (List.length l) in
  let final := if e <? 0 then Z.max (len + e) 0 else Z.min e len in
  firstn (Z.to_nat final) l.

End JsArray.

(** ** Data model ([shared/schema.ts]) *)

Inductive Category : Type := plr_nacional | plr_internacional | marca_roupas.

Inductive TransactionType : Type := expense | gain.

Definition Category_eqb (a b : Category) : bool :=
  match a, b with
  | plr_nacional, plr_nacional
  | plr_internacional, plr_internacional
  | marca_roupas, marca_roupas => true
  | _, _ => false
  end.

Definition TransactionType_eqb (a b : TransactionType) : bool :=
  match a, b with
  | expense, expense | gain, gain => true
  | _, _ => false
  end.

(** A [Date], by what the storage reads of it: [getFullYear ()], [getMonth ()]
    (0 to 11) and [getTime ()]. *)
Record Date : Type := mkDate { getFullYear : Z; getMonth : Z; getTime : Z }.

Module MonthlyData.
Record t : Type := mk {
  id : string;
  userId : string;
  category : Category;
  month : Z;
  year : Z;
  gastos : string;
  receita : string;
  createdAt : Date;
  updatedAt : Date }.
End MonthlyData.

Module MonthlyHistory.
Record t : Type := mk {
  id : string;
  userId : string;
  month : Z;
  year : Z;
  plrNacionalGastos : string;
  plrNacionalReceita : string;
  plrInternacionalGastos : string;
  plrInternacionalReceita : string;
  marcaRoupasGastos : string;
  marcaRoupasReceita : string;
  closedAt : Date }.
End MonthlyHistory.

Module Transaction.
Record t : Type := mk {
  id : string;
  userId : string;
  category : Category;
  type : TransactionType;
  description : string;
  amount : string;
  occurredAt : Date;
  createdAt : Date;
  updatedAt : Date }.
End Transaction.

Module InsertTransaction.
Record t : Type := mk {
  category : Category;
  type : TransactionType;
  description : string;
  amount : string;
  occurredAt : option Date }.
End InsertTransaction.

(** [Partial<InsertTransaction>]: every field may be absent. *)
Module PartialInsertTransaction.
Record t : Type := mk {
  category : option Category;
  type : option TransactionType;
  description : option string;
  amount : option string;
  occurredAt : option Date }.
End PartialInsertTransaction.

Module UpdateMonthlyData.
Record t : Type := mk {
  category : Category;
  gastos : string;
  receita : string }.
End UpdateMonthlyData.

(** ** The storage and its operations ([server/storage.ts]) *)

(** The three collections of [MemStorage] the aggregator works on, and the
    number of [generateId ()] calls made so far.  (The [users] map is added
    by [FullStorage] further down: no ledger operation reads or writes it.) *)
Record MemStorage : Type := mkStorage {
  monthlyData : JsMap.t MonthlyData.t;
  monthlyHistory : JsMap.t MonthlyHistory.t;
  transactions : JsMap.t Transaction.t;
  idsDrawn : nat }.

Definition emptyStorage : MemStorage := mkStorage [] [] [] 0.

(** An operation either returns or throws an [Error] with a message; the
    storage is whatever it was at that point (nothing is rolled back). *)
Inductive Outcome (A : Type) : Type :=
  | Returned (a : A)
  | Thrown (message : string).
Arguments Returned {A} a.
Arguments Thrown {A} message.

Definition M (A : Type) : Type := MemStorage -> Outcome A * MemStorage.

Definition ret {A : Type} (a : A) : M A := fun st => (Returned a, st).

Definition bind {A B : Type} (c : M A) (k : A -> M B) : M B :=
  fun st =>
    match c st with
    | (Returned a, st') => k a st'
    | (Thrown msg, st') => (Thrown msg, st')
    end.

Definition throw {A : Type} (msg : string) : M A := fun st => (Thrown msg, st).

Definition this : M MemStorage := fun st => (Returned st, st).

Notation "x <- c1 ;; c2" := (bind c1 (fun x => c2))
  (at level 61, c1 at next level, right associativity).
Notation "c1 ;; c2" := (bind c1 (fun _ => c2))
  (at level 61, right associativity).

(** [for (const x of l) body], threading the local array built by the loop. *)
Fixpoint forOf {A B : Type} (l : list A) (body : A -> B -> M B) (acc : B) : M B :=
  match l with
  | [] => ret acc
  | x :: r => acc' <- body x acc ;; forOf r body acc'
  end.

Definition monthlyData_set (k : string) (v : MonthlyData.t) : M unit :=
  fun st => (Returned tt,
             mkStorage (JsMap.set k v (monthlyData st)) (monthlyHistory st)
                       (transactions st) (idsDrawn st)).

Definition monthlyData_delete (k : string) : M unit :=
  fun st => (Returned tt,
             mkStorage (JsMap.delete k (monthlyData st)) (monthlyHistory st)
                       (transactions st) (idsDrawn st)).

Definition monthlyHistory_set (k : string) (v : MonthlyHistory.t) : M unit :=
  fun st => (Returned tt,
             mkStorage (monthlyData st) (JsMap.set k v (monthlyHistory st))
                       (transactions st) (idsDrawn st)).

Definition transactions_set (k : string) (v : Transaction.t) : M unit :=
  fun st => (Returned tt,
             mkStorage (monthlyData st) (monthlyHistory st)
                       (JsMap.set k v (transactions st)) (idsDrawn st)).

Definition transactions_delete (k : string) : M unit :=
  fun st => (Returned tt,
             mkStorage (monthlyData st) (monthlyHistory st)
                       (JsMap.delete k (transactions st)) (idsDrawn st)).

(** [order[category]] of [getCurrentMonthData]'s comparator. *)
Definition order (c : Category) : Z :=
  match c with
  | plr_nacional => 0
  | plr_internacional => 1
  | marca_roupas => 2
  end.

Definition categories : list Category :=
  [plr_nacional; plr_internacional; marca_roupas].

(** [s || "0"] on a possibly missing string: the empty string is falsy. *)
Definition orZero (s : option string) : string :=
  match s with
  | Some v => if String.eqb v "" then "0" else v
  | None => "0"
  end.

(** [d.userId === userId && d.month === currentMonth && d.year === currentYear] *)
Definition inCurrentMonth (userId : string) (currentMonth currentYear : Z)
    (d : MonthlyData.t) : bool :=
  String.eqb (MonthlyData.userId d) userId
  && (MonthlyData.month d =? currentMonth)
  && (MonthlyData.year d =? currentYear).

(** The filter shared by [getTransactionsByCategory] and
    [recalculateMonthlyData]. *)
Definition inCategoryThisMonth (userId : string) (category : Category)
    (currentMonth currentYear : Z) (t : Transaction.t) : bool :=
  let tDate := Transaction.occurredAt t in
  String.eqb (Transaction.userId t) userId
  && Category_eqb (Transaction.category t) category
  && (getMonth tDate + 1 =? currentMonth)
  && (getFullYear tDate =? currentYear).

(** [list.filter(t => t.type === kind).reduce((sum, t) => sum + Number(t.amount), 0)] *)
Definition sumOfType (kind : TransactionType) (l : list Transaction.t) : float :=
  fold_left (fun sum t => PrimFloat.add sum (JS.Number (Transaction.amount t)))
            (filter (fun t => TransactionType_eqb (Transaction.type t) kind) l)
            PrimFloat.zero.

Section Storage.

(** The id source: the [k]-th call of [generateId ()] returns [rng k]. *)
Variable rng : nat -> string.

Definition generateId : M string :=
  fun st => (Returned (rng (idsDrawn st)),
             mkStorage (monthlyData st) (monthlyHistory st) (transactions st)
                       (S (idsDrawn st))).

Definition getCurrentMonthData (now : Date) (userId : string) : M (list MonthlyData.t) :=
  let currentMonth := getMonth now + 1 in
  let currentYear := getFullYear now in
  st <- this ;;
  let existingData :=
    filter (inCurrentMonth userId currentMonth currentYear)
           (JsMap.values (monthlyData st)) in
  if (List.length existingData =? 3)%nat then
    ret (JsArray.sort
           (fun a b => order (MonthlyData.category a) - order (MonthlyData.category b))
           existingData)
  else
    forOf categories
      (fun category data =>
         match find (fun d => Category_eqb (MonthlyData.category d) category)
                    existingData with
         | Some existing => ret (data ++ [existing])
         | None =>
             id <- generateId ;;
             let newData :=
               MonthlyData.mk id userId category currentMonth currentYear
                              "0" "0" now now in
             monthlyData_set id newData ;;
             ret (data ++ [newData])
         end)
      [].

Definition updateMonthlyData (now : Date) (userId : string)
    (updateData : UpdateMonthlyData.t) : M MonthlyData.t :=
  let currentMonth := getMonth now + 1 in
  let currentYear := getFullYear now in
  st <- this ;;
  match find (fun d => String.eqb (MonthlyData.userId d) userId
                       && Category_eqb (MonthlyData.category d)
                                       (UpdateMonthlyData.category updateData)
                       && (MonthlyData.month d =? currentMonth)
                       && (MonthlyData.year d =? currentYear))
             (JsMap.values (monthlyData st)) with
  | Some existing =>
      let updated :=
        MonthlyData.mk (MonthlyData.id existing) (MonthlyData.userId existing)
                       (MonthlyData.category existing) (MonthlyData.month existing)
                       (MonthlyData.year existing)
                       (UpdateMonthlyData.gastos updateData)
                       (UpdateMonthlyData.receita updateData)
                       (MonthlyData.createdAt existing) now in
      monthlyData_set (MonthlyData.id existing) updated ;;
      ret updated
  | None =>
      id <- generateId ;;
      let newData :=
        MonthlyData.mk id userId (UpdateMonthlyData.category updateData)
                       currentMonth currentYear
                       (UpdateMonthlyData.gastos updateData)
                       (UpdateMonthlyData.receita updateData) now now in
      monthlyData_set id newData ;;
      ret newData
  end.

Definition closeMonth (now : Date) (userId : string) : M unit :=
  let currentMonth := getMonth now + 1 in
  let currentYear := getFullYear now in
  currentData <- getCurrentMonthData now userId ;;
  let byCategory (c : Category) :=
    find (fun d => Category_eqb (MonthlyData.category d) c) currentData in
  let plrNacional := byCategory plr_nacional in
  let plrInternacional := byCategory plr_internacional in
  let marcaRoupas := byCategory marca_roupas in
  historyId <- generateId ;;
  let history :=
    MonthlyHistory.mk historyId userId currentMonth currentYear
      (orZero (option_map MonthlyData.gastos plrNacional))
      (orZero (option_map MonthlyData.receita plrNacional))
      (orZero (option_map MonthlyData.gastos plrInternacional))
      (orZero (option_map MonthlyData.receita plrInternacional))
      (orZero (option_map MonthlyData.gastos marcaRoupas))
      (orZero (option_map MonthlyData.receita marcaRoupas))
      now in
  monthlyHistory_set historyId history ;;
  forOf currentData (fun data _ => monthlyData_delete (MonthlyData.id data)) tt.

(** [limit] is [None] when the argument is omitted (default 12), and an
    integer otherwise, as [parseInt] gives it to the route. *)
Definition getMonthlyHistory (userId : string) (limit : option Z)
    : M (list MonthlyHistory.t) :=
  let limit := match limit with Some n => n | None => 12 end in
  st <- this ;;
  ret (JsArray.slice0
         (JsArray.sort
            (fun a b =>
               if negb (MonthlyHistory.year a =? MonthlyHistory.year b)
               then MonthlyHistory.year b - MonthlyHistory.year a
               else MonthlyHistory.month b - MonthlyHistory.month a)
            (filter (fun h => String.eqb (MonthlyHistory.userId h) userId)
                    (JsMap.values (monthlyHistory st))))
         limit).

Definition recalculateMonthlyData (now : Date) (userId : string)
    (category : Category) : M unit :=
  let currentMonth := getMonth now + 1 in
  let currentYear := getFullYear now in
  st <- this ;;
  let categoryTransactions :=
    filter (inCategoryThisMonth userId category currentMonth currentYear)
           (JsMap.values (transactions st)) in
  let totalExpenses := sumOfType expense categoryTransactions in
  let totalGains := sumOfType gain categoryTransactions in
  updateMonthlyData now userId
    (UpdateMonthlyData.mk category (JS.toFixed totalExpenses 2)
                          (JS.toFixed totalGains 2)) ;;
  ret tt.

Definition createTransaction (now : Date) (userId : string)
    (transaction : InsertTransaction.t) : M Transaction.t :=
  id <- generateId ;;
  let newTransaction :=
    Transaction.mk id userId
      (InsertTransaction.category transaction)
      (InsertTransaction.type transaction)
      (InsertTransaction.description transaction)
      (InsertTransaction.amount transaction)
      (match InsertTransaction.occurredAt transaction with
       | Some d => d
       | None => now
       end)
      now now in
  transactions_set id newTransaction ;;
  recalculateMonthlyData now userId (InsertTransaction.category transaction) ;;
  ret newTransaction.

(** [{ ...existing, ...transaction, updatedAt: new Date() }] *)
Definition spread (existing : Transaction.t) (transaction : PartialInsertTransaction.t)
    (now : Date) : Transaction.t :=
  let pick {A : Type} (o : option A) (d : A) := match o with Some v => v | None => d end in
  Transaction.mk (Transaction.id existing) (Transaction.userId existing)
    (pick (PartialInsertTransaction.category transaction) (Transaction.category existing))
    (pick (PartialInsertTransaction.type transaction) (Transaction.type existing))
    (pick (PartialInsertTransaction.description transaction)
          (Transaction.description existing))
    (pick (PartialInsertTransaction.amount transaction) (Transaction.amount existing))
    (pick (PartialInsertTransaction.occurredAt transaction)
          (Transaction.occurredAt existing))
    (Transaction.createdAt existing) now.

Definition updateTransaction (now : Date) (userId : string) (id : string)
    (transaction : PartialInsertTransaction.t) : M Transaction.t :=
  st <- this ;;
  match JsMap.get id (transactions st) with
  | Some existing =>
      if negb (String.eqb (Transaction.userId existing) userId)
      then throw "Transaction not found"
      else
        let updated := spread existing transaction now in
        transactions_set id updated ;;
        recalculateMonthlyData now userId (Transaction.category existing) ;;
        ret updated
  | None => throw "Transaction not found"
  end.

Definition deleteTransaction (now : Date) (userId : string) (id : string) : M unit :=
  st <- this ;;
  match JsMap.get id (transactions st) with
  | Some existing =>
      if negb (String.eqb (Transaction.userId existing) userId)
      then throw "Transaction not found"
      else
        transactions_delete id ;;
        recalculateMonthlyData now userId (Transaction.category existing)
  | None => throw "Transaction not found"
  end.

End Storage.

(** ** Well-formed storages *)

(** The key under which [MonthlyTotals] rows are meant to be unique. *)
Definition slot (d : MonthlyData.t) : string * Category * Z * Z :=
  (MonthlyData.userId d, MonthlyData.category d, MonthlyData.month d,
   MonthlyData.year d).

(** The rows of [userId] for the month of [now], as [getCurrentMonthData]
    selects them. *)
Definition currentRows (now : Date) (userId : string) (st : MemStorage)
    : list MonthlyData.t :=
  filter (inCurrentMonth userId (getMonth now + 1) (getFullYear now))
         (JsMap.values (monthlyData st)).

(** The transactions [recalculateMonthlyData] sums for a category. *)
Definition currentTransactions (now : Date) (userId : string) (category : Category)
    (st : MemStorage) : list Transaction.t :=
  filter (inCategoryThisMonth userId category (getMonth now + 1) (getFullYear now))
         (JsMap.values (transactions st)).

(** What [recalculateMonthlyData] writes for a category: [toFixed(2)] of the
    double sums of the current month's expenses and gains. *)
Definition recomputedTotals (now : Date) (userId : string) (category : Category)
    (st : MemStorage) : string * string :=
  (JS.toFixed (sumOfType expense (currentTransactions now userId category st)) 2,
   JS.toFixed (sumOfType gain (currentTransactions now userId category st)) 2).

(** The row of a category for the current month exists, and every such row
    carries the recomputed totals. *)
Definition totalsRecomputed (now : Date) (userId : string) (category : Category)
    (st : MemStorage) : Prop :=
  (exists r, In r (JsMap.values (monthlyData st))
             /\ slot r = (userId, category, getMonth now + 1, getFullYear now))
  /\ forall r, In r (JsMap.values (monthlyData st)) ->
               slot r = (userId, category, getMonth now + 1, getFullYear now) ->
               (MonthlyData.gastos r, MonthlyData.receita r)
               = recomputedTotals now userId category st.

Section Invariant.

Variable rng : nat -> string.

(** [k] is one of the first [n] ids drawn. *)
Definition drawn (n : nat) (k : string) : Prop :=
  exists i, (i < n)%nat /\ rng i = k.

(** A map whose keys are pairwise distinct and were all drawn before. *)
Definition keysOk {V : Type} (n : nat) (m : JsMap.t V) : Prop :=
  NoDup (JsMap.keys m) /\ forall k, In k (JsMap.keys m) -> drawn n k.

(** A well-formed storage: the keys of each map are distinct ids drawn
    before, every [MonthlyTotals] row is stored under its own id, and no two
    rows share owner, category, month and year. *)
Record wf (st : MemStorage) : Prop := mkWf {
  wf_md : keysOk (idsDrawn st) (monthlyData st);
  wf_md_id : forall k v, In (k, v) (monthlyData st) -> MonthlyData.id v = k;
  wf_md_slot : forall k1 v1 k2 v2,
      In (k1, v1) (monthlyData st) -> In (k2, v2) (monthlyData st) ->
      slot v1 = slot v2 -> k1 = k2;
  wf_mh : keysOk (idsDrawn st) (monthlyHistory st);
  wf_tx : keysOk (idsDrawn st) (transactions st) }.

(** The storages the public operations of [MemStorage] lead to, from the
    freshly constructed one. *)
Inductive reachable : MemStorage -> Prop :=
  | reach_new : reachable emptyStorage
  | reach_getCurrentMonthData now userId st :
      reachable st -> reachable (snd (getCurrentMonthData rng now userId st))
  | reach_updateMonthlyData now userId data st :
      reachable st -> reachable (snd (updateMonthlyData rng now userId data st))
  | reach_closeMonth now userId st :
      reachable st -> reachable (snd (closeMonth rng now userId st))
  | reach_createTransaction now userId transaction st :
      reachable st -> reachable (snd (createTransaction rng now userId transaction st))
  | reach_updateTransaction now userId id transaction st :
      reachable st ->
      reachable (snd (updateTransaction rng now userId id transaction st))
  | reach_deleteTransaction now userId id st :
      reachable st -> reachable (snd (deleteTransaction rng now userId id st)).

(** One round of [getCurrentMonthData]'s loop, on the pair of the array built
    so far and the storage. *)
Definition ensureRow (now : Date) (userId : string) (existingData : list MonthlyData.t)
    (acc : list MonthlyData.t * MemStorage) (category : Category)
    : list MonthlyData.t * MemStorage :=
  match find (fun d => Category_eqb (MonthlyData.category d) category) existingData with
  | Some existing => (fst acc ++ [existing], snd acc)
  | None =>
      let st := snd acc in
      let id := rng (idsDrawn st) in
      let newData :=
        MonthlyData.mk id userId category (getMonth now + 1) (getFullYear now)
                       "0" "0" now now in
      (fst acc ++ [newData],
       mkStorage (JsMap.set id newData (monthlyData st)) (monthlyHistory st)
                 (transactions st) (S (idsDrawn st)))
  end.

(** The loop invariant of [getCurrentMonthData], relative to the storage
    [st0] it started from: [data] holds one row per category handled so far,
    each stored under its id, and the storage has grown by the new rows only. *)
Definition ensured (now : Date) (userId : string) (st0 : MemStorage)
    (handled : list Category) (acc : list MonthlyData.t * MemStorage) : Prop :=
  let data := fst acc in
  let st := snd acc in
  wf st
  /\ monthlyHistory st = monthlyHistory st0
  /\ transactions st = transactions st0
  /\ (idsDrawn st0 <= idsDrawn st)%nat
  /\ map MonthlyData.category data = handled
  /\ (forall r, In r data ->
        In (MonthlyData.id r, r) (monthlyData st)
        /\ inCurrentMonth userId (getMonth now + 1) (getFullYear now) r = true
        /\ (In (MonthlyData.id r, r) (monthlyData st0)
            \/ (MonthlyData.gastos r = "0" /\ MonthlyData.receita r = "0"
                /\ ~ In (MonthlyData.id r) (JsMap.keys (monthlyData st0)))))
  /\ (forall kv, In kv (monthlyData st0) -> In kv (monthlyData st))
  /\ (forall kv, In kv (monthlyData st) ->
        In kv (monthlyData st0) \/ In (snd kv) data).

End Invariant.

(** ** Vocabulary of the properties *)

(** The predicate [updateMonthlyData] searches the rows with. *)
Definition inSlot (userId : string) (category : Category) (month year : Z)
    (d : MonthlyData.t) : bool :=
  String.eqb (MonthlyData.userId d) userId
  && Category_eqb (MonthlyData.category d) category
  && (MonthlyData.month d =? month)
  && (MonthlyData.year d =? year).

(** The history record [closeMonth] builds from the rows it read. *)
Definition snapshot (now : Date) (userId : string) (historyId : string)
    (currentData : list MonthlyData.t) : MonthlyHistory.t :=
  let byCategory (c : Category) :=
    find (fun d => Category_eqb (MonthlyData.category d) c) currentData in
  MonthlyHistory.mk historyId userId (getMonth now + 1) (getFullYear now)
    (orZero (option_map MonthlyData.gastos (byCategory plr_nacional)))
    (orZero (option_map MonthlyData.receita (byCategory plr_nacional)))
    (orZero (option_map MonthlyData.gastos (byCategory plr_internacional)))
    (orZero (option_map MonthlyData.receita (byCategory plr_internacional)))
    (orZero (option_map MonthlyData.gastos (byCategory marca_roupas)))
    (orZero (option_map MonthlyData.receita (byCategory marca_roupas)))
    now.

(** [a] is at least as recent as [b], by (year, month). *)
Definition recentFirst (a b : MonthlyHistory.t) : Prop :=
  MonthlyHistory.year a > MonthlyHistory.year b
  \/ (MonthlyHistory.year a = MonthlyHistory.year b
      /\ MonthlyHistory.month a >= MonthlyHistory.month b).

(** The archived months of an owner, in the order they were archived. *)
Definition archivedMonths (userId : string) (st : MemStorage) : list MonthlyHistory.t :=
  filter (fun h => String.eqb (MonthlyHistory.userId h) userId)
         (JsMap.values (monthlyHistory st)).

(** Two amounts in text denote the same number. *)
Definition sameAmount (a b : string) : bool :=
  PrimFloat.Leibniz.eqb (JS.Number a) (JS.Number b).

(** The invariant as the data model words it: every [MonthlyTotals] row of
    the owner's current month carries the sums of the owner's transactions of
    its category in that month. *)
Definition totalsMatchTransactions (now : Date) (userId : string) (st : MemStorage)
    : Prop :=
  forall r, In r (currentRows now userId st) ->
    sameAmount (MonthlyData.gastos r)
               (fst (recomputedTotals now userId (MonthlyData.category r) st)) = true
    /\ sameAmount (MonthlyData.receita r)
                  (snd (recomputedTotals now userId (MonthlyData.category r) st)) = true.

(** A change of the transactions, as a caller of the storage asks for it. *)
Inductive LedgerOp : Type :=
  | Create (transaction : InsertTransaction.t)
  | Update (id : string) (transaction : PartialInsertTransaction.t)
  | Delete (id : string).

(** One change, made at the given time. *)
Definition applyOp (rng : nat -> string) (userId : string) (op : Date * LedgerOp)
    : M unit :=
  match snd op with
  | Create transaction => createTransaction rng (fst op) userId transaction ;; ret tt
  | Update id transaction => updateTransaction rng (fst op) userId id transaction ;; ret tt
  | Delete id => deleteTransaction rng (fst op) userId id
  end.

(** The operations one after the other, each at its own time; the first
    failure ends the run. *)
Fixpoint applyOps (rng : nat -> string) (userId : string)
    (ops : list (Date * LedgerOp)) : M unit :=
  match ops with
  | [] => ret tt
  | op :: rest => applyOp rng userId op ;; applyOps rng userId rest
  end.



(** The exact value of a non-negative decimal literal. *)
Definition decimalValue (s : string) : option Q :=
  match JS.readUnsignedDecimal (list_ascii_of_string s) with
  | Some (m, e) =>
      Some (if 0 <=? e then inject_Z (m * 10 ^ e)
            else Qmake m (Z.to_pos (10 ^ (- e))))
  | None => None
  end.


(** Both values are defined and equal. *)
Definition sameDecimal (a b : option Q) : bool :=
  match a, b with
  | Some x, Some y => Qeq_bool x y
  | _, _ => false
  end.


(** The field of a history record for a category and a kind. *)
Definition historyField (category : Category) (kind : TransactionType)
    (h : MonthlyHistory.t) : string :=
  match category, kind with
  | plr_nacional, expense => MonthlyHistory.plrNacionalGastos h
  | plr_nacional, gain => MonthlyHistory.plrNacionalReceita h
  | plr_internacional, expense => MonthlyHistory.plrInternacionalGastos h
  | plr_internacional, gain => MonthlyHistory.plrInternacionalReceita h
  | marca_roupas, expense => MonthlyHistory.marcaRoupasGastos h
  | marca_roupas, gain => MonthlyHistory.marcaRoupasReceita h
  end.

(** [transaction.occurredAt] is absent or falls in the month of [now]. *)
Definition occursThisMonth (now : Date) (transaction : InsertTransaction.t) : Prop :=
  match InsertTransaction.occurredAt transaction with
  | Some d => getMonth d = getMonth now /\ getFullYear d = getFullYear now
  | None => True
  end.

(** Of the three rows of a month, the one of a category. *)
Definition rowFor (category : Category) (a b c : MonthlyData.t) : MonthlyData.t :=
  match category with
  | plr_nacional => a
  | plr_internacional => b
  | marca_roupas => c
  end.

(** The total of a kind in a row: [gastos] for expenses, [receita] for gains. *)
Definition totalOf (kind : TransactionType) (r : MonthlyData.t) : string :=
  match kind with
  | expense => MonthlyData.gastos r
  | gain => MonthlyData.receita r
  end.

(** The round trip as the specification words it, from a new storage: the
    history field of the transaction's category and kind denotes exactly the
    transaction's amount. *)
Definition roundTripExact (rng : nat -> string) (now : Date) (userId : string)
    (transaction : InsertTransaction.t) : Prop :=
  let st1 := snd (createTransaction rng now userId transaction emptyStorage) in
  let st2 := snd (closeMonth rng now userId st1) in
  exists h,
    archivedMonths userId st2 = [h]
    /\ sameDecimal
         (decimalValue (historyField (InsertTransaction.category transaction)
                                     (InsertTransaction.type transaction) h))
         (decimalValue (InsertTransaction.amount transaction)) = true.



(** [d] falls in the calendar month of [now]. *)
Definition inMonthOf (now d : Date) : bool :=
  (getMonth d =? getMonth now) && (getFullYear d =? getFullYear now).

(** The transactions a total of the month of [now] is about, read off the
    records: those of the owner, of the category and of the kind whose
    [occurredAt] falls in that month. *)
Definition countedFor (now : Date) (userId : string) (category : Category)
    (kind : TransactionType) (t : Transaction.t) : bool :=
  String.eqb (Transaction.userId t) userId
  && Category_eqb (Transaction.category t) category
  && TransactionType_eqb (Transaction.type t) kind
  && inMonthOf now (Transaction.occurredAt t).

(** [toFixed(2)] of the sum, in double arithmetic, of [Number(amount)] over
    the transactions counted for the owner, category, kind and month, added
    from 0 in the order the transactions are stored. *)
Definition doubleTotal (now : Date) (userId : string) (category : Category)
    (kind : TransactionType) (st : MemStorage) : string :=
  JS.toFixed
    (fold_left (fun sum t => PrimFloat.add sum (JS.Number (Transaction.amount t)))
               (filter (countedFor now userId category kind)
                       (JsMap.values (transactions st)))
               PrimFloat.zero)
    2.

(** The owner has a totals row of the category for the month of [now], and
    every such row reads the double totals of the expenses and of the gains
    of the transactions stored. *)
Definition carriesDoubleTotals (now : Date) (userId : string) (category : Category)
    (st : MemStorage) : Prop :=
  (exists r, In r (JsMap.values (monthlyData st))
             /\ MonthlyData.userId r = userId
             /\ MonthlyData.category r = category
             /\ MonthlyData.month r = getMonth now + 1
             /\ MonthlyData.year r = getFullYear now)
  /\ forall r, In r (JsMap.values (monthlyData st)) ->
               MonthlyData.userId r = userId ->
               MonthlyData.category r = category ->
               MonthlyData.month r = getMonth now + 1 ->
               MonthlyData.year r = getFullYear now ->
               MonthlyData.gastos r = doubleTotal now userId category expense st
               /\ MonthlyData.receita r = doubleTotal now userId category gain st.

(** The bound on the history as the specification words it: with a limit
    given, at most that many records are returned. *)
Definition returnsAtMostLimit (userId : string) (limit : Z) (st : MemStorage) : Prop :=
  forall result st',
    getMonthlyHistory userId (Some limit) st = (Returned result, st') ->
    Z.of_nat (List.length result) <= limit.

(** ** Worked data *)

(** A concrete id source with pairwise distinct ids, for the worked examples. *)
Fixpoint sampleId (n : nat) : string :=
  match n with
  | O => "k"
  | S i => String "x"%char (sampleId i)
  end.

(** A day of November 2026. *)
Definition sampleNow : Date := mkDate 2026 10 1793491200000.

(** A later day of the same month. *)
Definition sampleLater : Date := mkDate 2026 10 1794096000000.

(** An expense of 50.00 in [plr_nacional], dated by the storage. *)
Definition sampleExpense : InsertTransaction.t :=
  InsertTransaction.mk plr_nacional expense "rent" "50.00" None.

(** The last day of the same month. *)
Definition sampleEnd : Date := mkDate 2026 10 1795996800000.

(** The storage after owner ["u"] has read the current totals once: three
    rows with totals ["0"]. *)
Definition afterRead : MemStorage :=
  snd (getCurrentMonthData sampleId sampleNow "u" emptyStorage).

(** The storage after owner ["u"] recorded [sampleExpense]: the transaction
    has the id ["k"], the row of its totals the id ["xk"]. *)
Definition oneExpense : MemStorage :=
  snd (createTransaction sampleId sampleNow "u" sampleExpense emptyStorage).

(** The storage after the totals of [plr_nacional] were posted by hand, as
    the route [POST /api/monthly/update] does. *)
Definition editedTotals : MemStorage :=
  snd (updateMonthlyData sampleId sampleNow "u"
         (UpdateMonthlyData.mk plr_nacional "999" "0") oneExpense).

(** Five months archived one after the other, November 2025 to March 2026. *)
Definition fiveMonths : MemStorage :=
  fold_left (fun st now => snd (closeMonth sampleId now "u" st))
            [mkDate 2025 10 0; mkDate 2025 11 0; mkDate 2026 0 0; mkDate 2026 1 0;
             mkDate 2026 2 0]
            emptyStorage.

(** Two expenses and a gain, then one expense corrected and the other
    deleted. *)
Definition sampleOps : list (Date * LedgerOp) :=
  [(sampleNow, Create sampleExpense);
   (sampleNow, Create (InsertTransaction.mk plr_nacional gain "sale" "120.00" None));
   (sampleLater, Create (InsertTransaction.mk plr_nacional expense "ink" "0.10" None));
   (sampleLater, Update "k" (PartialInsertTransaction.mk None None None (Some "0.20") None));
   (sampleLater, Delete "xxxk")].

(** A gain of 10.00 in [plr_internacional] and an expense of 50.00 in
    [plr_nacional]; then the expense is moved to [plr_internacional]. *)
Definition movedExpense : MemStorage :=
  let st1 :=
    snd (createTransaction sampleId sampleNow "u"
           (InsertTransaction.mk plr_internacional gain "sale" "10.00" None)
           emptyStorage) in
  let st2 := snd (createTransaction sampleId sampleNow "u" sampleExpense st1) in
  snd (updateTransaction sampleId sampleNow "u" "xxk"
         (PartialInsertTransaction.mk (Some plr_internacional) None None None None)
         st2).

(** The storage after owner ["w"] recorded a gain of 7.00 in [marca_roupas]
    next to the expense of owner ["u"]. *)
Definition twoOwners : MemStorage :=
  snd (createTransaction sampleId sampleNow "w"
         (InsertTransaction.mk marca_roupas gain "shirt" "7.00" None) oneExpense).

(** ** The rest of the storage: listing transactions, users *)

(** The category as the text the schema and the routes spell it with. *)
Definition categoryName (c : Category) : string :=
  match c with
  | plr_nacional => "plr_nacional"
  | plr_internacional => "plr_internacional"
  | marca_roupas => "marca_roupas"
  end.

(** [getTransactionsByCategory]: the route passes the [category] of the query
    string as it is, so it is any text here. *)
Definition getTransactionsByCategory (now : Date) (userId : string) (category : string)
    : M (list Transaction.t) :=
  let currentMonth := getMonth now + 1 in
  let currentYear := getFullYear now in
  st <- this ;;
  ret (JsArray.sort
         (fun a b => getTime (Transaction.occurredAt b) - getTime (Transaction.occurredAt a))
         (filter
            (fun t =>
               let tDate := Transaction.occurredAt t in
               String.eqb (Transaction.userId t) userId
               && String.eqb (categoryName (Transaction.category t)) category
               && (getMonth tDate + 1 =? currentMonth)
               && (getFullYear tDate =? currentYear))
            (JsMap.values (transactions st)))).

Module User.
Record t : Type := mk {
  id : string;
  username : string;
  password : string;
  email : option string;
  firstName : option string;
  lastName : option string;
  profileImageUrl : option string;
  createdAt : option Date;
  updatedAt : option Date }.
End User.

Module InsertUser.
Record t : Type := mk {
  username : string;
  password : string;
  email : option string;
  firstName : option string;
  lastName : option string;
  profileImageUrl : option string }.
End InsertUser.

(** [UpsertUser], by the fields [upsertUser] reads. *)
Module UpsertUser.
Record t : Type := mk {
  id : option string;
  username : string;
  password : string;
  email : option string;
  firstName : option string;
  lastName : option string;
  profileImageUrl : option string }.
End UpsertUser.

(** The whole [MemStorage] instance: the ledger collections with the id
    counter, and the [users] map. *)
Record FullStorage : Type := mkFull {
  ledger : MemStorage;
  users : JsMap.t User.t }.

Definition newStorage : FullStorage := mkFull emptyStorage [].

(** [s || null] on an optional string: absent, [null] and the empty string
    all give [null]. *)
Definition orNull (s : option string) : option string :=
  match s with
  | Some v => if String.eqb v "" then None else Some v
  | None => None
  end.

Definition getUser (id : string) (s : FullStorage) : option User.t :=
  JsMap.get id (users s).

Definition getUserByUsername (username : string) (s : FullStorage) : option User.t :=
  find (fun u => String.eqb (User.username u) username) (JsMap.values (users s)).

Section Users.

Variable rng : nat -> string.

(** [generateId ()] on the whole instance. *)
Definition drawId (s : FullStorage) : string * FullStorage :=
  (rng (idsDrawn (ledger s)), mkFull (snd (generateId rng (ledger s))) (users s)).

Definition createUser (now : Date) (userData : InsertUser.t) (s : FullStorage)
    : User.t * FullStorage :=
  let '(id, s1) := drawId s in
  let user :=
    User.mk id (InsertUser.username userData) (InsertUser.password userData)
      (orNull (InsertUser.email userData))
      (orNull (InsertUser.firstName userData))
      (orNull (InsertUser.lastName userData))
      (orNull (InsertUser.profileImageUrl userData))
      (Some now) (Some now) in
  (user, mkFull (ledger s1) (JsMap.set (User.id user) user (users s1))).

Definition upsertUser (now : Date) (userData : UpsertUser.t) (s : FullStorage)
    : User.t * FullStorage :=
  let '(userId, s1) :=
    match orNull (UpsertUser.id userData) with
    | Some id => (id, s)
    | None => drawId s
    end in
  let existing := JsMap.get userId (users s1) in
  let user :=
    User.mk userId (UpsertUser.username userData) (UpsertUser.password userData)
      (orNull (UpsertUser.email userData))
      (orNull (UpsertUser.firstName userData))
      (orNull (UpsertUser.lastName userData))
      (orNull (UpsertUser.profileImageUrl userData))
      (Some match existing with
            | Some (User.mk _ _ _ _ _ _ _ (Some created) _) => created
            | _ => now
            end)
      (Some now) in
  (user, mkFull (ledger s1) (JsMap.set (User.id user) user (users s1))).

End Users.

(** ** The callers: authentication and routes ([server/routes.ts]) *)

Module JsString.

(** [s.split(" ")]: the pieces between the spaces, at least one. *)
Fixpoint splitSpace (s : string) : list string :=
  match s with
  | EmptyString => [EmptyString]
  | String c r =>
      if Ascii.eqb c " " then EmptyString :: splitSpace r
      else match splitSpace r with
           | first :: rest => String c first :: rest
           | [] => [String c EmptyString]
           end
  end.

(** [l.join(" ")] *)
Fixpoint joinSpace (l : list string) : string :=
  match l with
  | [] => EmptyString
  | [x] => x
  | x :: r => (x ++ " " ++ joinSpace r)%string
  end.

(** [parseInt(s)]: [None] stands for [NaN]. *)
Definition parseInt (s : string) : option Z :=
  let t := JS.dropWhiteSpace (list_ascii_of_string s) in
  let '(negative, t1) :=
    match t with
    | "-"%char :: r => (true, r)
    | "+"%char :: r => (false, r)
    | _ => (false, t)
    end in
  let '(radix, t2) :=
    match t1 with
    | "0"%char :: "x"%char :: r | "0"%char :: "X"%char :: r => (16, r)
    | _ => (10, t1)
    end in
  let fix digits (l : list ascii) (acc : Z) (count : nat) : Z * nat :=
    match l with
    | c :: r => match JS.radixDigit radix c with
                | Some v => digits r (radix * acc + v) (S count)
                | None => (acc, count)
                end
    | [] => (acc, count)
    end in
  match digits t2 0 O with
  | (_, O) => None
  | (v, _) => Some (if negative then - v else v)
  end.

End JsString.

(** The claims of a verified Firebase id token the login reads. *)
Record DecodedIdToken : Type := mkToken {
  uid : string;
  email : option string;
  name : option string;
  picture : option string }.

(** [a || b] on optional strings. *)
Definition orElse (a b : option string) : option string :=
  match orNull a with
  | Some v => Some v
  | None => b
  end.

(** The body of a response, by kind of payload. *)
Inductive Body : Type :=
  | Text (text : string)
  | Message (message : string)
  | InvalidData
  | Rows (data : list MonthlyData.t)
  | Row (data : MonthlyData.t)
  | History (history : list MonthlyHistory.t)
  | Transactions (transactions : list Transaction.t)
  | OneTransaction (transaction : Transaction.t).

Record Response : Type := mkResponse { status : Z; body : Body }.

(** A request to one of the ledger routes, by what its handler reads: the
    outcome of the schema's [parse] on the body ([None] when it throws a
    [ZodError]), the query parameters, the [:id] of the path. *)
Inductive Route : Type :=
  | GetMonthlyCurrent
  | PostMonthlyUpdate (parsed : option UpdateMonthlyData.t)
  | PostMonthlyClose
  | GetMonthlyHistory (limit : option string)
  | GetTransactions (category : option string)
  | PostTransactions (parsed : option InsertTransaction.t)
  | PatchTransaction (id : string) (parsed : option PartialInsertTransaction.t)
  | DeleteTransaction (id : string).

Record Request : Type := mkRequest {
  sessionUserId : option string;
  route : Route }.

(** [isAuthenticated]: the user the handler finds in [req.user], or [None]
    when the middleware answers 401. *)
Definition isAuthenticated (req : Request) (s : FullStorage) : option User.t :=
  match orNull (sessionUserId req) with
  | Some userId => getUser userId s
  | None => None
  end.

Section Routes.

Variable rng : nat -> string.

(** The part of [POST /api/firebase-login] that follows the verification of
    the token: the user of that [uid], created when there is none. *)
Definition firebaseLogin (now : Date) (decodedToken : DecodedIdToken) (s : FullStorage)
    : User.t * FullStorage :=
  match getUserByUsername (uid decodedToken) s with
  | Some user => (user, s)
  | None =>
      let parts :=
        JsString.splitSpace
          (match orElse (name decodedToken) (orElse (email decodedToken) (Some "")) with
           | Some v => v
           | None => ""
           end) in
      let firstName := hd "" parts in
      let lastNameParts := tl parts in
      createUser rng now
        (InsertUser.mk (uid decodedToken) "firebase-auth"
           (orNull (email decodedToken))
           (orNull (Some firstName))
           (orNull (Some (JsString.joinSpace lastNameParts)))
           (orNull (picture decodedToken)))
        s
  end.

(** A handler's [try]/[catch] around one storage call: the payload on
    return, the answer the [catch] gives on a thrown error. *)
Definition answer {A : Type} (s : FullStorage) (run : Outcome A * MemStorage)
    (payload : A -> Body) (caught : string -> Response) : Response * FullStorage :=
  match run with
  | (Returned a, l) => (mkResponse 200 (payload a), mkFull l (users s))
  | (Thrown message, l) => (caught message, mkFull l (users s))
  end.

Definition notFoundOr (failure : string) (message : string) : Response :=
  if String.eqb message "Transaction not found"
  then mkResponse 404 (Message "Transaction not found")
  else mkResponse 500 (Message failure).

(** The ledger routes of [registerRoutes], behind [isAuthenticated]. *)
Definition handle (now : Date) (req : Request) (s : FullStorage)
    : Response * FullStorage :=
  match isAuthenticated req s with
  | None => (mkResponse 401 (Text "Unauthorized"), s)
  | Some user =>
      let userId := User.id user in
      match route req with
      | GetMonthlyCurrent =>
          answer s (getCurrentMonthData rng now userId (ledger s)) Rows
                 (fun _ => mkResponse 500 (Message "Failed to fetch monthly data"))
      | PostMonthlyUpdate parsed =>
          match parsed with
          | None => (mkResponse 400 InvalidData, s)
          | Some validatedData =>
              answer s (updateMonthlyData rng now userId validatedData (ledger s)) Row
                     (fun _ => mkResponse 500 (Message "Failed to update monthly data"))
          end
      | PostMonthlyClose =>
          answer s (closeMonth rng now userId (ledger s))
                 (fun _ => Message "Month closed successfully")
                 (fun _ => mkResponse 500 (Message "Failed to close month"))
      | GetMonthlyHistory limit =>
          let limit :=
            match orNull limit with
            | Some text => match JsString.parseInt text with
                           | Some n => n
                           | None => 0 (* [NaN], which [slice] reads as 0 *)
                           end
            | None => 12
            end in
          answer s (getMonthlyHistory userId (Some limit) (ledger s)) History
                 (fun _ => mkResponse 500 (Message "Failed to fetch history"))
      | GetTransactions category =>
          match orNull category with
          | None => (mkResponse 400 (Message "Category is required"), s)
          | Some category =>
              answer s (getTransactionsByCategory now userId category (ledger s))
                     Transactions
                     (fun _ => mkResponse 500 (Message "Failed to fetch transactions"))
          end
      | PostTransactions parsed =>
          match parsed with
          | None => (mkResponse 400 InvalidData, s)
          | Some validatedData =>
              answer s (createTransaction rng now userId validatedData (ledger s))
                     OneTransaction
                     (fun _ => mkResponse 500 (Message "Failed to create transaction"))
          end
      | PatchTransaction id parsed =>
          match parsed with
          | None => (mkResponse 400 InvalidData, s)
          | Some validatedData =>
              answer s (updateTransaction rng now userId id validatedData (ledger s))
                     OneTransaction (notFoundOr "Failed to update transaction")
          end
      | DeleteTransaction id =>
          answer s (deleteTransaction rng now userId id (ledger s))
                 (fun _ => Message "Transaction deleted successfully")
                 (notFoundOr "Failed to delete transaction")
      end
  end.

(** The storages the instance goes through: user operations, logins and
    requests to the ledger routes, from the new one. *)
Inductive served : FullStorage -> Prop :=
  | served_new : served newStorage
  | served_createUser now userData s :
      served s -> served (snd (createUser rng now userData s))
  | served_upsertUser now userData s :
      served s -> served (snd (upsertUser rng now userData s))
  | served_firebaseLogin now decodedToken s :
      served s -> served (snd (firebaseLogin now decodedToken s))
  | served_handle now req s :
      served s -> served (snd (handle now req s)).

End Routes.

(** What an owner can see of the ledger: the owner's totals rows, archived
    months and transactions, each in storage order. *)
Definition ownerView (userId : string) (st : MemStorage)
    : list MonthlyData.t * list MonthlyHistory.t * list Transaction.t :=
  (filter (fun d => String.eqb (MonthlyData.userId d) userId)
          (JsMap.values (monthlyData st)),
   archivedMonths userId st,
   filter (fun t => String.eqb (Transaction.userId t) userId)
          (JsMap.values (transactions st))).

(** The owners of the records a response carries. *)
Definition bodyOwners (b : Body) : list string :=
  match b with
  | Rows data => map MonthlyData.userId data
  | Row data => [MonthlyData.userId data]
  | History history => map MonthlyHistory.userId history
  | Transactions transactions => map Transaction.userId transactions
  | OneTransaction transaction => [Transaction.userId transaction]
  | Text _ | Message _ | InvalidData => []
  end.

(** Every user is stored under its own id. *)
Definition usersById (s : FullStorage) : Prop :=
  forall k user, JsMap.get k (users s) = Some user -> User.id user = k.

(** ** The client's error test ([isUnauthorizedError]) *)

Definition isLineTerminator (c : ascii) : bool :=
  Ascii.eqb c "010" || Ascii.eqb c "013".

(** [.*word] matches at the start of [s]: some characters of one line, then
    [word]. *)
Fixpoint matchesAnyThen (word : string) (s : string) : bool :=
  String.prefix word s
  || match s with
     | String c r => negb (isLineTerminator c) && matchesAnyThen word r
     | EmptyString => false
     end.

(** [/^401: .*Unauthorized/.test(message)] *)
Definition isUnauthorizedError (message : string) : bool :=
  String.prefix "401: " message
  && matchesAnyThen "Unauthorized" (substring 5 (String.length message - 5) message).

(** ** Worked data for the users and the routes *)

(** A verified token with a display name of three words. *)
Definition sampleToken : DecodedIdToken :=
  mkToken "uid-1" (Some "ana@example.com") (Some "Ana Maria Silva") None.

(** The instance after the first login with [sampleToken]: one user, of id
    ["k"]. *)
Definition loggedIn : FullStorage :=
  snd (firebaseLogin sampleId sampleNow sampleToken newStorage).

(** A token with neither name nor email. *)
Definition otherToken : DecodedIdToken := mkToken "uid-2" None None None.

(** Two users, of ids ["k"] and ["xk"]; the first has posted [sampleExpense],
    stored under the id ["xxk"]. *)
Definition twoUsers : FullStorage :=
  let s1 := snd (firebaseLogin sampleId sampleNow otherToken loggedIn) in
  snd (handle sampleId sampleNow
         (mkRequest (Some "k") (PostTransactions (Some sampleExpense))) s1).

(** The text of an optional string, empty when there is none. *)
Definition textOf (o : option string) : string :=
  match o with
  | Some v => v
  | None => ""
  end.

(** ** Facts about the containers *)

Lemma Category_eqb_eq (a b : Category) : Category_eqb a b = true <-> a = b.
Proof. destruct a, b; simpl; split; intro H; congruence. Qed.

Lemma Category_eqb_refl (a : Category) : Category_eqb a a = true.
Proof. now destruct a. Qed.

Lemma Category_eqb_neq (a b : Category) : Category_eqb a b = false <-> a <> b.
Proof. destruct a, b; simpl; split; intro H; congruence. Qed.

Module JsMapFacts.
Import JsMap.

Section WithValues.
Context {V : Type}.
Implicit Types (m : JsMap.t V) (k : string) (v : V).

Lemma in_keys k v m : In (k, v) m -> In k (keys m).
Proof. intro H. apply (in_map fst) in H. exact H. Qed.

Lemma keys_in k m : In k (keys m) -> exists v, In (k, v) m.
Proof.
  unfold keys. rewrite in_map_iff. intros [[k' v] [E H]]. simpl in E. subst.
  now exists v.
Qed.

Lemma set_fresh k v m : ~ In k (keys m) -> set k v m = m ++ [(k, v)].
Proof.
  induction m as [|[k' v'] r IH]; simpl; intro H; [reflexivity|].
  destruct (String.eqb_spec k' k) as [E|E].
  - exfalso. apply H. now left.
  - f_equal. apply IH. intro Hin. apply H. now right.
Qed.

Lemma in_set_iff k v m kv :
  NoDup (keys m) ->
  In kv (set k v m) <-> kv = (k, v) \/ (In kv m /\ fst kv <> k).
Proof.
  induction m as [|[k' v'] r IH]; simpl; intro ND.
  - intuition congruence.
  - inversion ND as [|? ? Hnin ND']; subst.
    destruct (String.eqb_spec k' k) as [E|E]; simpl.
    + subst k'. split.
      * intros [H|H]; [left; congruence|].
        right. split; [now right|]. intro F. apply Hnin.
        destruct kv as [a b]. simpl in F. subst a. exact (in_keys _ _ _ H).
      * intros [H|[[H|H] F]]; [left; congruence| |now right].
        subst kv. simpl in F. congruence.
    + rewrite (IH ND'). split.
      * intros [H|[H|[H F]]]; [|now left|].
        -- right. subst kv. split; [now left|exact E].
        -- right. split; [now right|exact F].
      * intros [H|[[H|H] F]]; [right; now left|now left|].
        right. right. now split.
Qed.

Lemma keys_set_nodup k v m : NoDup (keys m) -> NoDup (keys (set k v m)).
Proof.
  induction m as [|[k' v'] r IH]; simpl; intro ND.
  - constructor; [intros []|constructor].
  - inversion ND as [|? ? Hnin ND']; subst.
    destruct (String.eqb_spec k' k) as [E|E]; simpl.
    + subst k'. now constructor.
    + constructor; [|now apply IH].
      intro Hin. apply keys_in in Hin. destruct Hin as [v'' Hin].
      apply (in_set_iff _ _ _ _ ND') in Hin. destruct Hin as [H|[H _]].
      * congruence.
      * apply Hnin. exact (in_keys _ _ _ H).
Qed.

Lemma in_delete_iff k m kv : In kv (delete k m) <-> In kv m /\ fst kv <> k.
Proof.
  unfold delete. rewrite filter_In. split; intros [H F]; split; trivial.
  - intro E. rewrite E, String.eqb_refl in F. discriminate.
  - now apply negb_true_iff, String.eqb_neq.
Qed.

Lemma keys_filter_nodup (p : string * V -> bool) m :
  NoDup (keys m) -> NoDup (keys (filter p m)).
Proof.
  induction m as [|kv r IH]; simpl; intro ND; [constructor|].
  inversion ND as [|? ? Hnin ND']; subst.
  destruct (p kv); simpl; [|now apply IH].
  constructor; [|now apply IH].
  intro Hin. apply Hnin. apply keys_in in Hin. destruct Hin as [v Hin].
  apply filter_In in Hin. destruct kv as [a b]. exact (in_keys _ _ _ (proj1 Hin)).
Qed.

Lemma keys_delete_nodup k m : NoDup (keys m) -> NoDup (keys (delete k m)).
Proof. apply keys_filter_nodup. Qed.

Lemma in_functional k v v' m :
  NoDup (keys m) -> In (k, v) m -> In (k, v') m -> v = v'.
Proof.
  induction m as [|[k' w] r IH]; simpl; intros ND H1 H2; [contradiction|].
  inversion ND as [|? ? Hnin ND']; subst.
  destruct H1 as [H1|H1], H2 as [H2|H2].
  - congruence.
  - exfalso. apply Hnin. inversion H1; subst. exact (in_keys _ _ _ H2).
  - exfalso. apply Hnin. inversion H2; subst. exact (in_keys _ _ _ H1).
  - now apply IH.
Qed.

Lemma get_in k v m : NoDup (keys m) -> In (k, v) m -> get k m = Some v.
Proof.
  induction m as [|[k' w] r IH]; simpl; intros ND H; [contradiction|].
  inversion ND as [|? ? Hnin ND']; subst.
  destruct (String.eqb_spec k' k) as [E|E].
  - subst k'. destruct H as [H|H]; [congruence|].
    exfalso. apply Hnin. exact (in_keys _ _ _ H).
  - destruct H as [H|H]; [congruence|]. now apply IH.
Qed.

Lemma get_some_in k v m : get k m = Some v -> In (k, v) m.
Proof.
  induction m as [|[k' w] r IH]; simpl; intro H; [discriminate|].
  destruct (String.eqb_spec k' k) as [E|E].
  - left. congruence.
  - right. now apply IH.
Qed.

Lemma get_none k m : get k m = None -> ~ In k (keys m).
Proof.
  induction m as [|[k' w] r IH]; simpl; intro H; [tauto|].
  destruct (String.eqb_spec k' k) as [E|E]; [discriminate|].
  intros [F|F]; [congruence|]. now apply IH.
Qed.

Lemma in_values v m : In v (values m) <-> exists k, In (k, v) m.
Proof.
  unfold values. rewrite in_map_iff. split.
  - intros [[k w] [E H]]. simpl in E. subst. now exists k.
  - intros [k H]. now exists (k, v).
Qed.

Lemma keys_set_in k v m k' : In k' (keys (set k v m)) -> k' = k \/ In k' (keys m).
Proof.
  induction m as [|[k0 v0] r IH]; simpl.
  - intros [H|[]]. now left.
  - destruct (String.eqb_spec k0 k) as [E|E]; simpl.
    + intros [H|H]; [now left|right; now right].
    + intros [H|H]; [right; now left|].
      destruct (IH H) as [F|F]; [now left|right; now right].
Qed.

Lemma keys_delete_in k m k' : In k' (keys (delete k m)) -> In k' (keys m).
Proof.
  intro H. apply keys_in in H. destruct H as [v H].
  apply in_delete_iff in H. exact (in_keys _ _ _ (proj1 H)).
Qed.


End WithValues.
End JsMapFacts.

(** ** Facts about sorting and slicing *)

Module JsArrayFacts.
Import JsArray.

Section WithElements.
Context {A : Type}.
Variable cmp : A -> A -> Z.

Lemma insertSorted_perm (x : A) (l : list A) :
  Permutation (insertSorted cmp x l) (x :: l).
Proof.
  induction l as [|y r IH]; simpl; [reflexivity|].
  destruct (cmp x y <=? 0); [reflexivity|].
  rewrite IH. apply perm_swap.
Qed.

Lemma sort_perm (l : list A) : Permutation (sort cmp l) l.
Proof.
  induction l as [|x r IH]; simpl; [reflexivity|].
  rewrite insertSorted_perm. now apply perm_skip.
Qed.

Lemma sort_in (l : list A) (x : A) : In x (sort cmp l) <-> In x l.
Proof.
  split; apply Permutation_in; [|symmetry]; apply sort_perm.
Qed.

Lemma sort_length (l : list A) : List.length (sort cmp l) = List.length l.
Proof. apply Permutation_length, sort_perm. Qed.

End WithElements.
End JsArrayFacts.

(** ** The operations, run on a storage *)

Section Runs.

Variable rng : nat -> string.

Lemma forOf_ensureRow now userId existingData cs data st :
  forOf cs
    (fun category data =>
       match find (fun d => Category_eqb (MonthlyData.category d) category)
                  existingData with
       | Some existing => ret (data ++ [existing])
       | None =>
           id <- generateId rng ;;
           let newData :=
             MonthlyData.mk id userId category (getMonth now + 1) (getFullYear now)
                            "0" "0" now now in
           monthlyData_set id newData ;;
           ret (data ++ [newData])
       end)
    data st
  = (Returned (fst (fold_left (ensureRow rng now userId existingData) cs (data, st))),
     snd (fold_left (ensureRow rng now userId existingData) cs (data, st))).
Proof.
  revert data st. induction cs as [|c cs IH]; intros data st; [reflexivity|].
  cbn [forOf fold_left]. unfold bind at 1. unfold ensureRow at 2 4.
  destruct (find _ existingData) as [existing|]; cbn; apply IH.
Qed.

Lemma getCurrentMonthData_run now userId st :
  getCurrentMonthData rng now userId st
  = if (List.length (currentRows now userId st) =? 3)%nat
    then (Returned
            (JsArray.sort
               (fun a b => order (MonthlyData.category a) - order (MonthlyData.category b))
               (currentRows now userId st)), st)
    else
      (Returned (fst (fold_left (ensureRow rng now userId (currentRows now userId st))
                                categories ([], st))),
       snd (fold_left (ensureRow rng now userId (currentRows now userId st))
                      categories ([], st))).
Proof.
  unfold getCurrentMonthData, bind at 1, this. fold (currentRows now userId st).
  destruct (List.length (currentRows now userId st) =? 3)%nat; [reflexivity|].
  apply forOf_ensureRow.
Qed.

Lemma updateMonthlyData_run now userId updateData st :
  updateMonthlyData rng now userId updateData st
  = match find (inSlot userId (UpdateMonthlyData.category updateData)
                       (getMonth now + 1) (getFullYear now))
               (JsMap.values (monthlyData st)) with
    | Some existing =>
        let updated :=
          MonthlyData.mk (MonthlyData.id existing) (MonthlyData.userId existing)
            (MonthlyData.category existing) (MonthlyData.month existing)
            (MonthlyData.year existing) (UpdateMonthlyData.gastos updateData)
            (UpdateMonthlyData.receita updateData)
            (MonthlyData.createdAt existing) now in
        (Returned updated,
         mkStorage (JsMap.set (MonthlyData.id existing) updated (monthlyData st))
                   (monthlyHistory st) (transactions st) (idsDrawn st))
    | None =>
        let newData :=
          MonthlyData.mk (rng (idsDrawn st)) userId
            (UpdateMonthlyData.category updateData) (getMonth now + 1)
            (getFullYear now) (UpdateMonthlyData.gastos updateData)
            (UpdateMonthlyData.receita updateData) now now in
        (Returned newData,
         mkStorage (JsMap.set (rng (idsDrawn st)) newData (monthlyData st))
                   (monthlyHistory st) (transactions st) (S (idsDrawn st)))
    end.
Proof.
  unfold updateMonthlyData, bind at 1, this, inSlot.
  destruct (find _ (JsMap.values (monthlyData st))) as [existing|]; reflexivity.
Qed.

Lemma updateMonthlyData_returns now userId updateData st :
  exists r, fst (updateMonthlyData rng now userId updateData st) = Returned r.
Proof.
  rewrite updateMonthlyData_run.
  destruct (find _ (JsMap.values (monthlyData st))); eexists; reflexivity.
Qed.

Lemma recalculateMonthlyData_run now userId category st :
  recalculateMonthlyData rng now userId category st
  = (Returned tt,
     snd (updateMonthlyData rng now userId
            (UpdateMonthlyData.mk category
               (fst (recomputedTotals now userId category st))
               (snd (recomputedTotals now userId category st))) st)).
Proof.
  unfold recalculateMonthlyData, bind at 1, this.
  unfold recomputedTotals, currentTransactions. cbn [fst snd].
  unfold bind.
  destruct (updateMonthlyData_returns now userId
              (UpdateMonthlyData.mk category
                 (JS.toFixed (sumOfType expense
                    (filter (inCategoryThisMonth userId category (getMonth now + 1)
                               (getFullYear now)) (JsMap.values (transactions st)))) 2)
                 (JS.toFixed (sumOfType gain
                    (filter (inCategoryThisMonth userId category (getMonth now + 1)
                               (getFullYear now)) (JsMap.values (transactions st)))) 2))
              st) as [r Hr].
  destruct (updateMonthlyData rng now userId _ st) as [o st'].
  cbn [fst] in Hr. subst o. reflexivity.
Qed.

Lemma createTransaction_run now userId transaction st :
  let newTransaction :=
    Transaction.mk (rng (idsDrawn st)) userId
      (InsertTransaction.category transaction) (InsertTransaction.type transaction)
      (InsertTransaction.description transaction)
      (InsertTransaction.amount transaction)
      (match InsertTransaction.occurredAt transaction with
       | Some d => d
       | None => now
       end) now now in
  createTransaction rng now userId transaction st
  = (Returned newTransaction,
     snd (recalculateMonthlyData rng now userId
            (InsertTransaction.category transaction)
            (mkStorage (monthlyData st) (monthlyHistory st)
               (JsMap.set (rng (idsDrawn st)) newTransaction (transactions st))
               (S (idsDrawn st))))).
Proof.
  intro newTransaction. subst newTransaction.
  unfold createTransaction, bind, generateId, transactions_set, ret.
  cbv beta iota zeta. cbn [monthlyData monthlyHistory transactions idsDrawn].
  rewrite recalculateMonthlyData_run. reflexivity.
Qed.

Lemma updateTransaction_run now userId id transaction st :
  updateTransaction rng now userId id transaction st
  = match JsMap.get id (transactions st) with
    | Some existing =>
        if String.eqb (Transaction.userId existing) userId then
          (Returned (spread existing transaction now),
           snd (recalculateMonthlyData rng now userId (Transaction.category existing)
                  (mkStorage (monthlyData st) (monthlyHistory st)
                     (JsMap.set id (spread existing transaction now) (transactions st))
                     (idsDrawn st))))
        else (Thrown "Transaction not found", st)
    | None => (Thrown "Transaction not found", st)
    end.
Proof.
  unfold updateTransaction, bind at 1, this.
  destruct (JsMap.get id (transactions st)) as [existing|]; [|reflexivity].
  destruct (String.eqb (Transaction.userId existing) userId); [|reflexivity].
  cbn [negb]. unfold bind, transactions_set, ret.
  cbv beta iota zeta.
  rewrite recalculateMonthlyData_run. reflexivity.
Qed.

Lemma deleteTransaction_run now userId id st :
  deleteTransaction rng now userId id st
  = match JsMap.get id (transactions st) with
    | Some existing =>
        if String.eqb (Transaction.userId existing) userId then
          (Returned tt,
           snd (recalculateMonthlyData rng now userId (Transaction.category existing)
                  (mkStorage (monthlyData st) (monthlyHistory st)
                     (JsMap.delete id (transactions st)) (idsDrawn st))))
        else (Thrown "Transaction not found", st)
    | None => (Thrown "Transaction not found", st)
    end.
Proof.
  unfold deleteTransaction, bind at 1, this.
  destruct (JsMap.get id (transactions st)) as [existing|]; [|reflexivity].
  destruct (String.eqb (Transaction.userId existing) userId); [|reflexivity].
  cbn [negb]. unfold bind, transactions_delete.
  cbv beta iota zeta.
  rewrite recalculateMonthlyData_run. reflexivity.
Qed.

Lemma forOf_delete (rows : list MonthlyData.t) (st : MemStorage) :
  forOf rows (fun data _ => monthlyData_delete (MonthlyData.id data)) tt st
  = (Returned tt,
     mkStorage
       (fold_left (fun m data => JsMap.delete (MonthlyData.id data) m) rows
                  (monthlyData st))
       (monthlyHistory st) (transactions st) (idsDrawn st)).
Proof.
  revert st. induction rows as [|r rows IH]; intro st.
  - destruct st; reflexivity.
  - cbn [forOf fold_left]. unfold bind, monthlyData_delete at 1.
    rewrite IH. reflexivity.
Qed.

Lemma closeMonth_run now userId st :
  closeMonth rng now userId st
  = match getCurrentMonthData rng now userId st with
    | (Returned currentData, st1) =>
        (Returned tt,
         mkStorage
           (fold_left (fun m data => JsMap.delete (MonthlyData.id data) m) currentData
                      (monthlyData st1))
           (JsMap.set (rng (idsDrawn st1))
                      (snapshot now userId (rng (idsDrawn st1)) currentData)
                      (monthlyHistory st1))
           (transactions st1) (S (idsDrawn st1)))
    | (Thrown msg, st1) => (Thrown msg, st1)
    end.
Proof.
  unfold closeMonth, bind at 1.
  destruct (getCurrentMonthData rng now userId st) as [[currentData|msg] st1];
    [|reflexivity].
  unfold bind, generateId, monthlyHistory_set. cbv beta iota zeta.
  rewrite forOf_delete. reflexivity.
Qed.

End Runs.

(** ** Every operation keeps the storage well formed *)

Section Preservation.

Variable rng : nat -> string.
Hypothesis rng_inj : forall i j, rng i = rng j -> i = j.

Lemma drawn_mono n n' k : drawn rng n k -> (n <= n')%nat -> drawn rng n' k.
Proof. intros [i [Hlt E]] Hle. exists i. split; [lia|exact E]. Qed.

Lemma drawn_fresh n (ks : list string) :
  (forall k, In k ks -> drawn rng n k) -> ~ In (rng n) ks.
Proof.
  intros H Hin. destruct (H _ Hin) as [i [Hlt E]]. apply rng_inj in E. lia.
Qed.

Lemma keysOk_fresh {V : Type} n (m : JsMap.t V) :
  keysOk rng n m -> ~ In (rng n) (JsMap.keys m).
Proof. intros [_ H]. now apply drawn_fresh. Qed.

Lemma keysOk_mono {V : Type} n n' (m : JsMap.t V) :
  keysOk rng n m -> (n <= n')%nat -> keysOk rng n' m.
Proof.
  intros [ND H] Hle. split; [exact ND|]. intros k Hk.
  exact (drawn_mono _ _ _ (H k Hk) Hle).
Qed.

Lemma keysOk_set_fresh {V : Type} n (m : JsMap.t V) (v : V) :
  keysOk rng n m -> keysOk rng (S n) (JsMap.set (rng n) v m).
Proof.
  intros [ND H]. split; [now apply JsMapFacts.keys_set_nodup|].
  intros k Hk. apply JsMapFacts.keys_set_in in Hk. destruct Hk as [E|Hk].
  - subst k. exists n. split; [lia|reflexivity].
  - apply (drawn_mono n); [now apply H|lia].
Qed.

Lemma keysOk_set_present {V : Type} n (m : JsMap.t V) (k : string) (v : V) :
  keysOk rng n m -> In k (JsMap.keys m) -> keysOk rng n (JsMap.set k v m).
Proof.
  intros [ND H] Hin. split; [now apply JsMapFacts.keys_set_nodup|].
  intros k' Hk. apply JsMapFacts.keys_set_in in Hk. destruct Hk as [E|Hk].
  - subst k'. now apply H.
  - now apply H.
Qed.

Lemma keysOk_delete {V : Type} n (m : JsMap.t V) (k : string) :
  keysOk rng n m -> keysOk rng n (JsMap.delete k m).
Proof.
  intros [ND H]. split; [now apply JsMapFacts.keys_delete_nodup|].
  intros k' Hk. apply H. exact (JsMapFacts.keys_delete_in _ _ _ Hk).
Qed.

(** Appending a row under a fresh id, in a slot no row occupies. *)
Lemma wf_add_row st r :
  wf rng st ->
  MonthlyData.id r = rng (idsDrawn st) ->
  (forall k v, In (k, v) (monthlyData st) -> slot v <> slot r) ->
  wf rng (mkStorage (JsMap.set (rng (idsDrawn st)) r (monthlyData st))
                    (monthlyHistory st) (transactions st) (S (idsDrawn st))).
Proof.
  intros W Hid Hslot. destruct W as [Wmd Wid Wslot Wmh Wtx].
  assert (Hin : forall kv, In kv (JsMap.set (rng (idsDrawn st)) r (monthlyData st)) ->
                           kv = (rng (idsDrawn st), r) \/ In kv (monthlyData st)).
  { intros kv H. apply JsMapFacts.in_set_iff in H; [|exact (proj1 Wmd)].
    destruct H as [H|[H _]]; [now left|now right]. }
  constructor; cbn [monthlyData monthlyHistory transactions idsDrawn].
  - now apply keysOk_set_fresh.
  - intros k v H. destruct (Hin _ H) as [E|H']; [congruence|now apply Wid].
  - intros k1 v1 k2 v2 H1 H2 E.
    destruct (Hin _ H1) as [E1|H1'], (Hin _ H2) as [E2|H2'].
    + congruence.
    + inversion E1; subst. exfalso. exact (Hslot _ _ H2' (eq_sym E)).
    + inversion E2; subst. exfalso. exact (Hslot _ _ H1' E).
    + exact (Wslot _ _ _ _ H1' H2' E).
  - apply (keysOk_mono _ _ _ Wmh). lia.
  - apply (keysOk_mono _ _ _ Wtx). lia.
Qed.

(** Replacing a row in place by one with the same id and slot. *)
Lemma wf_replace_row st e r :
  wf rng st ->
  In e (JsMap.values (monthlyData st)) ->
  MonthlyData.id r = MonthlyData.id e ->
  slot r = slot e ->
  wf rng (mkStorage (JsMap.set (MonthlyData.id e) r (monthlyData st))
                    (monthlyHistory st) (transactions st) (idsDrawn st)).
Proof.
  intros W He Hid Hslot. destruct W as [Wmd Wid Wslot Wmh Wtx].
  apply JsMapFacts.in_values in He. destruct He as [k He].
  pose proof (Wid _ _ He) as Hk. subst k.
  assert (Hin : forall kv, In kv (JsMap.set (MonthlyData.id e) r (monthlyData st)) ->
                           kv = (MonthlyData.id e, r)
                           \/ (In kv (monthlyData st) /\ fst kv <> MonthlyData.id e)).
  { intros kv H. now apply JsMapFacts.in_set_iff in H; [|exact (proj1 Wmd)]. }
  constructor; cbn [monthlyData monthlyHistory transactions idsDrawn];
    [| | |exact Wmh|exact Wtx].
  - apply keysOk_set_present; [exact Wmd|]. exact (JsMapFacts.in_keys _ _ _ He).
  - intros k v H. destruct (Hin _ H) as [E|[H' _]]; [congruence|now apply Wid].
  - intros k1 v1 k2 v2 H1 H2 E.
    destruct (Hin _ H1) as [E1|[H1' N1]], (Hin _ H2) as [E2|[H2' N2]].
    + congruence.
    + inversion E1; subst. exfalso. apply N2. cbn [fst].
      apply (Wslot _ _ _ _ H2' He). congruence.
    + inversion E2; subst. exfalso. apply N1. cbn [fst].
      apply (Wslot _ _ _ _ H1' He). congruence.
    + exact (Wslot _ _ _ _ H1' H2' E).
Qed.

Lemma wf_delete_rows st (rows : list MonthlyData.t) :
  wf rng st ->
  wf rng (mkStorage
            (fold_left (fun m data => JsMap.delete (MonthlyData.id data) m) rows
                       (monthlyData st))
            (monthlyHistory st) (transactions st) (idsDrawn st)).
Proof.
  revert st. induction rows as [|r rows IH]; intros st W.
  - destruct st; exact W.
  - cbn [fold_left].
    apply (IH (mkStorage (JsMap.delete (MonthlyData.id r) (monthlyData st))
                         (monthlyHistory st) (transactions st) (idsDrawn st))).
    destruct W as [Wmd Wid Wslot Wmh Wtx].
    constructor; cbn [monthlyData monthlyHistory transactions idsDrawn];
      [| | |exact Wmh|exact Wtx].
    + now apply keysOk_delete.
    + intros k v H. apply JsMapFacts.in_delete_iff in H. now apply Wid.
    + intros k1 v1 k2 v2 H1 H2. apply JsMapFacts.in_delete_iff in H1, H2.
      now apply Wslot.
Qed.

Lemma wf_add_history st h :
  wf rng st ->
  wf rng (mkStorage (monthlyData st)
                    (JsMap.set (rng (idsDrawn st)) h (monthlyHistory st))
                    (transactions st) (S (idsDrawn st))).
Proof.
  intros [Wmd Wid Wslot Wmh Wtx].
  constructor; cbn [monthlyData monthlyHistory transactions idsDrawn];
    [|exact Wid|exact Wslot| |].
  - apply (keysOk_mono _ _ _ Wmd). lia.
  - now apply keysOk_set_fresh.
  - apply (keysOk_mono _ _ _ Wtx). lia.
Qed.

Lemma wf_add_transaction st t :
  wf rng st ->
  wf rng (mkStorage (monthlyData st) (monthlyHistory st)
                    (JsMap.set (rng (idsDrawn st)) t (transactions st))
                    (S (idsDrawn st))).
Proof.
  intros [Wmd Wid Wslot Wmh Wtx].
  constructor; cbn [monthlyData monthlyHistory transactions idsDrawn];
    [|exact Wid|exact Wslot| |].
  - apply (keysOk_mono _ _ _ Wmd). lia.
  - apply (keysOk_mono _ _ _ Wmh). lia.
  - now apply keysOk_set_fresh.
Qed.

Lemma wf_replace_transaction st id t :
  wf rng st ->
  In id (JsMap.keys (transactions st)) ->
  wf rng (mkStorage (monthlyData st) (monthlyHistory st)
                    (JsMap.set id t (transactions st)) (idsDrawn st)).
Proof.
  intros [Wmd Wid Wslot Wmh Wtx] Hin.
  constructor; cbn [monthlyData monthlyHistory transactions idsDrawn]; trivial.
  now apply keysOk_set_present.
Qed.

Lemma wf_delete_transaction st id :
  wf rng st ->
  wf rng (mkStorage (monthlyData st) (monthlyHistory st)
                    (JsMap.delete id (transactions st)) (idsDrawn st)).
Proof.
  intros [Wmd Wid Wslot Wmh Wtx].
  constructor; cbn [monthlyData monthlyHistory transactions idsDrawn]; trivial.
  now apply keysOk_delete.
Qed.

End Preservation.

(** ** What each operation does to a well-formed storage *)

Lemma inSlot_true userId category month year d :
  inSlot userId category month year d = true
  <-> slot d = (userId, category, month, year).
Proof.
  unfold inSlot, slot. rewrite !andb_true_iff, String.eqb_eq, Category_eqb_eq, !Z.eqb_eq.
  split; [intros [[[-> ->] ->] ->]; reflexivity|].
  intro E. inversion E. repeat split.
Qed.

Lemma inCurrentMonth_true userId month year d :
  inCurrentMonth userId month year d = true
  <-> MonthlyData.userId d = userId /\ MonthlyData.month d = month
      /\ MonthlyData.year d = year.
Proof.
  unfold inCurrentMonth. rewrite !andb_true_iff, String.eqb_eq, !Z.eqb_eq. tauto.
Qed.

Lemma inCurrentMonth_slot userId month year d :
  inCurrentMonth userId month year d = true
  <-> slot d = (userId, MonthlyData.category d, month, year).
Proof.
  rewrite inCurrentMonth_true. unfold slot. split.
  - intros [-> [-> ->]]. reflexivity.
  - intro E. inversion E. repeat split.
Qed.

Lemma in_currentRows now userId st r :
  In r (currentRows now userId st)
  <-> In r (JsMap.values (monthlyData st))
      /\ inCurrentMonth userId (getMonth now + 1) (getFullYear now) r = true.
Proof. unfold currentRows. apply filter_In. Qed.

Section Specifications.

Variable rng : nat -> string.
Hypothesis rng_inj : forall i j, rng i = rng j -> i = j.

(** [updateMonthlyData] writes the given totals into the one row of the
    slot, creating it when missing, and touches nothing else. *)
Lemma updateMonthlyData_spec now userId updateData st :
  wf rng st ->
  exists r st',
    updateMonthlyData rng now userId updateData st = (Returned r, st')
    /\ wf rng st'
    /\ monthlyHistory st' = monthlyHistory st
    /\ transactions st' = transactions st
    /\ (idsDrawn st <= idsDrawn st')%nat
    /\ slot r = (userId, UpdateMonthlyData.category updateData,
                 getMonth now + 1, getFullYear now)
    /\ MonthlyData.gastos r = UpdateMonthlyData.gastos updateData
    /\ MonthlyData.receita r = UpdateMonthlyData.receita updateData
    /\ forall kv, In kv (monthlyData st')
                  <-> kv = (MonthlyData.id r, r)
                      \/ (In kv (monthlyData st) /\ slot (snd kv) <> slot r).
Proof.
  intro W. rewrite updateMonthlyData_run.
  destruct (find _ (JsMap.values (monthlyData st))) as [e|] eqn:F.
  - apply find_some in F. destruct F as [He Hs]. apply inSlot_true in Hs.
    eexists. eexists. split; [reflexivity|].
    cbn [monthlyData monthlyHistory transactions idsDrawn MonthlyData.id
         MonthlyData.gastos MonthlyData.receita].
    split; [now apply (wf_replace_row rng)|].
    repeat (split; [reflexivity || lia || exact Hs|]).
    intro kv. rewrite JsMapFacts.in_set_iff by exact (proj1 (wf_md _ _ W)).
    change (slot (MonthlyData.mk (MonthlyData.id e) (MonthlyData.userId e)
                    (MonthlyData.category e) (MonthlyData.month e)
                    (MonthlyData.year e) (UpdateMonthlyData.gastos updateData)
                    (UpdateMonthlyData.receita updateData)
                    (MonthlyData.createdAt e) now)) with (slot e).
    apply JsMapFacts.in_values in He. destruct He as [k He].
    pose proof (wf_md_id _ _ W _ _ He) as Hk. subst k.
    split; (intros [H|[H N]]; [now left|right; split; [exact H|]]).
    + intro E. apply N. destruct kv as [k v]. cbn [fst snd] in *.
      exact (wf_md_slot _ _ W _ _ _ _ H He E).
    + intro E. apply N. destruct kv as [k v]. cbn [fst snd] in *. subst k.
      now rewrite (JsMapFacts.in_functional _ _ _ _ (proj1 (wf_md _ _ W)) H He).
  - pose proof (find_none _ _ F) as Hnone.
    assert (Hslot : forall k v, In (k, v) (monthlyData st) ->
              slot v <> (userId, UpdateMonthlyData.category updateData,
                         getMonth now + 1, getFullYear now)).
    { intros k v H E. apply inSlot_true in E.
      rewrite Hnone in E; [discriminate|].
      apply JsMapFacts.in_values. now exists k. }
    eexists. eexists. split; [reflexivity|].
    cbn [monthlyData monthlyHistory transactions idsDrawn MonthlyData.id
         MonthlyData.gastos MonthlyData.receita].
    split; [apply (wf_add_row rng); [exact W|reflexivity|exact Hslot]|].
    repeat (split; [reflexivity || lia|]).
    intro kv. rewrite JsMapFacts.in_set_iff by exact (proj1 (wf_md _ _ W)).
    split; (intros [H|[H N]]; [now left|right; split; [exact H|]]).
    + destruct kv as [k v]. exact (Hslot _ _ H).
    + intro E. apply (keysOk_fresh rng rng_inj _ _ (wf_md _ _ W)).
      rewrite <- E. destruct kv as [k v]. exact (JsMapFacts.in_keys _ _ _ H).
Qed.

Lemma recomputedTotals_frame now userId category st st' :
  transactions st' = transactions st ->
  recomputedTotals now userId category st' = recomputedTotals now userId category st.
Proof.
  intro E. unfold recomputedTotals, currentTransactions. now rewrite E.
Qed.

(** [recalculateMonthlyData] leaves the category's row holding the recomputed
    totals; rows of other slots stay as they are. *)
Lemma recalculateMonthlyData_spec now userId category st :
  wf rng st ->
  exists st',
    recalculateMonthlyData rng now userId category st = (Returned tt, st')
    /\ wf rng st'
    /\ monthlyHistory st' = monthlyHistory st
    /\ transactions st' = transactions st
    /\ (idsDrawn st <= idsDrawn st')%nat
    /\ totalsRecomputed now userId category st'
    /\ forall kv, slot (snd kv)
                  <> (userId, category, getMonth now + 1, getFullYear now) ->
                  (In kv (monthlyData st') <-> In kv (monthlyData st)).
Proof.
  intro W. rewrite recalculateMonthlyData_run.
  destruct (updateMonthlyData_spec now userId
              (UpdateMonthlyData.mk category
                 (fst (recomputedTotals now userId category st))
                 (snd (recomputedTotals now userId category st))) st W)
    as [r [st' [Run [W' [Hmh [Htx [Hn [Hs [Hg [Hr Hin]]]]]]]]]].
  cbn [UpdateMonthlyData.category UpdateMonthlyData.gastos
       UpdateMonthlyData.receita] in *.
  rewrite Run. cbn [snd]. exists st'. split; [reflexivity|].
  repeat (split; [assumption|]). split; [split|].
  - exists r. split; [|exact Hs]. apply JsMapFacts.in_values.
    exists (MonthlyData.id r). apply Hin. now left.
  - intros r' Hr' Hs'. apply JsMapFacts.in_values in Hr'. destruct Hr' as [k Hr'].
    apply Hin in Hr'. destruct Hr' as [E|[_ N]].
    + inversion E; subst r'. rewrite Hg, Hr.
      rewrite (recomputedTotals_frame _ _ _ _ _ Htx).
      now destruct (recomputedTotals now userId category st).
    + exfalso. cbn [snd] in N. congruence.
  - intros kv N. rewrite Hin. split; [|intro H; right; split; [exact H|congruence]].
    intros [E|[H _]]; [|exact H]. subst kv. cbn [snd] in N. congruence.
Qed.

Lemma createTransaction_spec now userId transaction st :
  wf rng st ->
  exists t st',
    createTransaction rng now userId transaction st = (Returned t, st')
    /\ wf rng st'
    /\ t = Transaction.mk (rng (idsDrawn st)) userId
             (InsertTransaction.category transaction)
             (InsertTransaction.type transaction)
             (InsertTransaction.description transaction)
             (InsertTransaction.amount transaction)
             (match InsertTransaction.occurredAt transaction with
              | Some d => d
              | None => now
              end) now now
    /\ monthlyHistory st' = monthlyHistory st
    /\ transactions st' = transactions st ++ [(rng (idsDrawn st), t)]
    /\ totalsRecomputed now userId (InsertTransaction.category transaction) st'
    /\ forall kv, slot (snd kv)
                  <> (userId, InsertTransaction.category transaction,
                      getMonth now + 1, getFullYear now) ->
                  (In kv (monthlyData st') <-> In kv (monthlyData st)).
Proof.
  intro W. rewrite createTransaction_run.
  match goal with
  | |- context [recalculateMonthlyData rng now userId ?c ?s] =>
      destruct (recalculateMonthlyData_spec now userId c s) as
        [st' [Run [W' [Hmh [Htx [Hn [Ht Hin]]]]]]]
  end.
  { now apply (wf_add_transaction rng). }
  rewrite Run. cbn [snd]. eexists. exists st'. split; [reflexivity|].
  cbn [monthlyData monthlyHistory transactions] in *.
  repeat (split; [assumption || reflexivity|]).
  split; [|split; assumption].
  rewrite Htx. apply JsMapFacts.set_fresh.
  exact (keysOk_fresh rng rng_inj _ _ (wf_tx _ _ W)).
Qed.

Lemma updateTransaction_spec now userId id transaction st existing :
  wf rng st ->
  JsMap.get id (transactions st) = Some existing ->
  Transaction.userId existing = userId ->
  exists st',
    updateTransaction rng now userId id transaction st
    = (Returned (spread existing transaction now), st')
    /\ wf rng st'
    /\ monthlyHistory st' = monthlyHistory st
    /\ transactions st'
       = JsMap.set id (spread existing transaction now) (transactions st)
    /\ totalsRecomputed now userId (Transaction.category existing) st'
    /\ forall kv, slot (snd kv)
                  <> (userId, Transaction.category existing,
                      getMonth now + 1, getFullYear now) ->
                  (In kv (monthlyData st') <-> In kv (monthlyData st)).
Proof.
  intros W G U. rewrite updateTransaction_run, G.
  rewrite (proj2 (String.eqb_eq _ _) U).
  match goal with
  | |- context [recalculateMonthlyData rng now userId ?c ?s] =>
      destruct (recalculateMonthlyData_spec now userId c s) as
        [st' [Run [W' [Hmh [Htx [Hn [Ht Hin]]]]]]]
  end.
  { apply (wf_replace_transaction rng); [exact W|].
    exact (JsMapFacts.in_keys _ _ _ (JsMapFacts.get_some_in _ _ _ G)). }
  rewrite Run. cbn [snd]. exists st'. split; [reflexivity|].
  cbn [monthlyData monthlyHistory transactions] in *.
  repeat (split; [assumption|]). assumption.
Qed.

Lemma deleteTransaction_spec now userId id st existing :
  wf rng st ->
  JsMap.get id (transactions st) = Some existing ->
  Transaction.userId existing = userId ->
  exists st',
    deleteTransaction rng now userId id st = (Returned tt, st')
    /\ wf rng st'
    /\ monthlyHistory st' = monthlyHistory st
    /\ transactions st' = JsMap.delete id (transactions st)
    /\ totalsRecomputed now userId (Transaction.category existing) st'
    /\ forall kv, slot (snd kv)
                  <> (userId, Transaction.category existing,
                      getMonth now + 1, getFullYear now) ->
                  (In kv (monthlyData st') <-> In kv (monthlyData st)).
Proof.
  intros W G U. rewrite deleteTransaction_run, G.
  rewrite (proj2 (String.eqb_eq _ _) U).
  match goal with
  | |- context [recalculateMonthlyData rng now userId ?c ?s] =>
      destruct (recalculateMonthlyData_spec now userId c s) as
        [st' [Run [W' [Hmh [Htx [Hn [Ht Hin]]]]]]]
  end.
  { now apply (wf_delete_transaction rng). }
  rewrite Run. cbn [snd]. exists st'. split; [reflexivity|].
  cbn [monthlyData monthlyHistory transactions] in *.
  repeat (split; [assumption|]). assumption.
Qed.

End Specifications.

Lemma sort_three_categories (l : list MonthlyData.t) :
  List.length l = 3%nat ->
  NoDup (map MonthlyData.category l) ->
  map MonthlyData.category
      (JsArray.sort
         (fun a b => order (MonthlyData.category a) - order (MonthlyData.category b)) l)
  = categories.
Proof.
  intros L ND. destruct l as [|x [|y [|z [|w r]]]]; try discriminate.
  destruct x as [? ? cx ? ? ? ? ? ?], y as [? ? cy ? ? ? ? ? ?],
           z as [? ? cz ? ? ? ? ? ?].
  cbn [map MonthlyData.category] in ND.
  inversion ND as [|? ? N1 ND1]; subst. inversion ND1 as [|? ? N2 _]; subst.
  destruct cx, cy, cz; try reflexivity;
    exfalso; (apply N1; cbn; now auto) || (apply N2; cbn; now auto).
Qed.

Lemma currentRows_categories_nodup (rng : nat -> string) now userId st :
  wf rng st -> NoDup (map MonthlyData.category (currentRows now userId st)).
Proof.
  intros [[ND _] _ Wslot _ _]. unfold currentRows.
  induction (monthlyData st) as [|[k v] r IH]; [constructor|].
  inversion ND as [|? ? Hnin ND']; subst.
  assert (IH' := IH ND' (fun k1 v1 k2 v2 H1 H2 =>
                           Wslot k1 v1 k2 v2 (or_intror H1) (or_intror H2))).
  cbn [JsMap.values map filter snd].
  destruct (inCurrentMonth userId (getMonth now + 1) (getFullYear now) v) eqn:P;
    [|exact IH'].
  cbn [map]. constructor; [|exact IH'].
  rewrite in_map_iff. intros [v' [E Hv']]. apply filter_In in Hv'.
  destruct Hv' as [Hv' P']. apply JsMapFacts.in_values in Hv'. destruct Hv' as [k' Hv'].
  apply Hnin. replace k with k'; [exact (JsMapFacts.in_keys _ _ _ Hv')|].
  apply (Wslot k' v' k v); [now right|now left|].
  apply inCurrentMonth_slot in P, P'. rewrite P, P'. now rewrite E.
Qed.

Lemma in_fold_delete (rows : list MonthlyData.t) (m : JsMap.t MonthlyData.t) kv :
  In kv (fold_left (fun m data => JsMap.delete (MonthlyData.id data) m) rows m)
  <-> In kv m /\ ~ In (fst kv) (map MonthlyData.id rows).
Proof.
  revert m. induction rows as [|r rows IH]; intro m; cbn [fold_left map In].
  - tauto.
  - rewrite IH, JsMapFacts.in_delete_iff. intuition congruence.
Qed.

Section MonthSpecifications.

Variable rng : nat -> string.
Hypothesis rng_inj : forall i j, rng i = rng j -> i = j.

Lemma ensured_start now userId st0 :
  wf rng st0 -> ensured rng now userId st0 [] ([], st0).
Proof.
  intro W. unfold ensured. cbn [fst snd map].
  repeat (split; [assumption || reflexivity || lia|]).
  split; [intros r []|]. split; [trivial|]. intros kv H. now left.
Qed.

Lemma ensureRow_ensured now userId st0 handled acc c :
  wf rng st0 ->
  ~ In c handled ->
  ensured rng now userId st0 handled acc ->
  ensured rng now userId st0 (handled ++ [c])
          (ensureRow rng now userId (currentRows now userId st0) acc c).
Proof.
  intros W0 Hc [W [Hmh [Htx [Hn [Hcat [Hrows [Hincl Hback]]]]]]].
  destruct acc as [data st]. cbn [fst snd] in *. unfold ensureRow. cbn [fst snd].
  destruct (find _ (currentRows now userId st0)) as [e|] eqn:F.
  - apply find_some in F. destruct F as [He Hce].
    apply in_currentRows in He. destruct He as [He Hp].
    apply Category_eqb_eq in Hce.
    apply JsMapFacts.in_values in He. destruct He as [k He].
    pose proof (wf_md_id _ _ W0 _ _ He) as Hk. subst k.
    unfold ensured. cbn [fst snd].
    repeat (split; [assumption|]).
    split; [rewrite map_app, Hcat; cbn [map]; now rewrite Hce|].
    split; [|split; [exact Hincl|]].
    + intros r Hr. apply in_app_or in Hr. destruct Hr as [Hr|[Hr|[]]].
      * now apply Hrows.
      * subst r. split; [now apply Hincl|]. split; [exact Hp|now left].
    + intros kv H. destruct (Hback _ H) as [H'|H']; [now left|].
      right. apply in_or_app. now left.
  - pose proof (find_none _ _ F) as Hnone.
    set (n := idsDrawn st) in *.
    set (r0 := MonthlyData.mk (rng n) userId c (getMonth now + 1) (getFullYear now)
                              "0" "0" now now).
    pose proof (keysOk_fresh rng rng_inj _ _ (wf_md _ _ W)) as Hfresh.
    fold n in Hfresh.
    assert (Hslot : forall k v, In (k, v) (monthlyData st) -> slot v <> slot r0).
    { intros k v H E. destruct (Hback _ H) as [H0|H0]; cbn [snd] in H0.
      - assert (Hv : In v (currentRows now userId st0)).
        { apply in_currentRows. split; [apply JsMapFacts.in_values; now exists k|].
          apply inCurrentMonth_slot. rewrite E. unfold slot, r0. cbn.
          repeat f_equal. inversion E. reflexivity. }
        specialize (Hnone _ Hv). apply Category_eqb_neq in Hnone.
        apply Hnone. inversion E. reflexivity.
      - apply Hc. rewrite <- Hcat. apply in_map_iff. exists v.
        split; [|exact H0]. inversion E. reflexivity. }
    assert (Hset : forall kv, In kv (JsMap.set (rng n) r0 (monthlyData st))
                              <-> kv = (rng n, r0) \/ In kv (monthlyData st)).
    { intro kv. rewrite JsMapFacts.in_set_iff by exact (proj1 (wf_md _ _ W)).
      split; (intros [H|H]; [now left|right]); [tauto|].
      split; [exact H|]. intro E. apply Hfresh. rewrite <- E.
      destruct kv. exact (JsMapFacts.in_keys _ _ _ H). }
    unfold ensured. cbn [fst snd monthlyData monthlyHistory transactions idsDrawn].
    split; [apply (wf_add_row rng); [exact W|reflexivity|exact Hslot]|].
    repeat (split; [assumption || (fold n; lia)|]).
    split; [rewrite map_app, Hcat; reflexivity|].
    split; [|split].
    + intros r Hr. apply in_app_or in Hr. destruct Hr as [Hr|[Hr|[]]].
      * destruct (Hrows _ Hr) as [H1 H2]. split; [|exact H2].
        apply Hset. now right.
      * subst r. split; [apply Hset; now left|]. split.
        -- apply inCurrentMonth_true. repeat split.
        -- right. repeat split. intro Hk. apply Hfresh.
           apply JsMapFacts.keys_in in Hk. destruct Hk as [v Hk].
           exact (JsMapFacts.in_keys _ _ _ (Hincl _ Hk)).
    + intros kv H. apply Hset. right. now apply Hincl.
    + intros kv H. apply Hset in H. destruct H as [H|H].
      * right. subst kv. apply in_or_app. right. now left.
      * destruct (Hback _ H) as [H'|H']; [now left|].
        right. apply in_or_app. now left.
Qed.

Lemma fold_ensured now userId st0 cs :
  wf rng st0 ->
  forall handled acc,
    NoDup cs ->
    (forall c, In c cs -> ~ In c handled) ->
    ensured rng now userId st0 handled acc ->
    ensured rng now userId st0 (handled ++ cs)
            (fold_left (ensureRow rng now userId (currentRows now userId st0)) cs acc).
Proof.
  intro W0. induction cs as [|c cs IH]; intros handled acc ND Hd E.
  - now rewrite app_nil_r.
  - cbn [fold_left]. inversion ND as [|? ? Hnin ND']; subst.
    replace (handled ++ c :: cs) with ((handled ++ [c]) ++ cs)
      by (now rewrite <- app_assoc).
    apply IH; [exact ND'| |].
    + intros c' Hc' Hin. apply in_app_or in Hin. destruct Hin as [Hin|[Hin|[]]].
      * apply (Hd c'); [now right|exact Hin].
      * subst c'. contradiction.
    + apply ensureRow_ensured; [exact W0| |exact E]. apply Hd. now left.
Qed.

(** [getCurrentMonthData] returns, never throws, and ends in a storage and a
    list of rows that satisfy the loop invariant for all three categories. *)
Lemma getCurrentMonthData_spec now userId st :
  wf rng st ->
  exists rows st',
    getCurrentMonthData rng now userId st = (Returned rows, st')
    /\ ensured rng now userId st categories (rows, st').
Proof.
  intro W. rewrite getCurrentMonthData_run.
  destruct (List.length (currentRows now userId st) =? 3)%nat eqn:L.
  - apply Nat.eqb_eq in L. eexists. eexists. split; [reflexivity|].
    unfold ensured. cbn [fst snd].
    repeat (split; [assumption || reflexivity || lia|]).
    split; [apply sort_three_categories;
            [exact L|exact (currentRows_categories_nodup rng _ _ _ W)]|].
    split; [|split; [trivial|intros kv H; now left]].
    intros r Hr. apply JsArrayFacts.sort_in, in_currentRows in Hr.
    destruct Hr as [Hr Hp]. apply JsMapFacts.in_values in Hr. destruct Hr as [k Hr].
    pose proof (wf_md_id _ _ W _ _ Hr) as Hk. subst k. tauto.
  - eexists. eexists. split; [reflexivity|].
    rewrite <- surjective_pairing.
    apply (fold_ensured now userId st categories W [] ([], st)).
    + unfold categories. repeat constructor; cbn; intuition discriminate.
    + intros c _ [].
    + now apply ensured_start.
Qed.

(** After the loop, the rows of the owner's current month are exactly the
    rows returned. *)
Lemma ensured_currentRows now userId st0 rows st :
  ensured rng now userId st0 categories (rows, st) ->
  forall k v, In (k, v) (monthlyData st) ->
              inCurrentMonth userId (getMonth now + 1) (getFullYear now) v = true ->
              In v rows.
Proof.
  intros [W [_ [_ [_ [Hcat [Hrows [_ Hback]]]]]]] k v H P. cbn [fst snd] in *.
  assert (Hc : In (MonthlyData.category v) (map MonthlyData.category rows)).
  { rewrite Hcat. unfold categories. destruct (MonthlyData.category v); cbn; auto. }
  apply in_map_iff in Hc. destruct Hc as [r [Hcr Hr]].
  destruct (Hrows _ Hr) as [Hin [P' _]].
  assert (E : MonthlyData.id r = k).
  { apply (wf_md_slot _ _ W _ _ _ _ Hin H).
    apply inCurrentMonth_slot in P, P'. rewrite P, P'. now rewrite Hcr. }
  rewrite E in Hin.
  now rewrite (JsMapFacts.in_functional _ _ _ _ (proj1 (wf_md _ _ W)) H Hin).
Qed.

Lemma closeMonth_spec now userId st :
  wf rng st ->
  exists rows st1 st2,
    getCurrentMonthData rng now userId st = (Returned rows, st1)
    /\ ensured rng now userId st categories (rows, st1)
    /\ closeMonth rng now userId st = (Returned tt, st2)
    /\ wf rng st2
    /\ transactions st2 = transactions st
    /\ monthlyHistory st2
       = monthlyHistory st
         ++ [(rng (idsDrawn st1), snapshot now userId (rng (idsDrawn st1)) rows)]
    /\ idsDrawn st2 = S (idsDrawn st1)
    /\ forall kv, In kv (monthlyData st2)
                  <-> In kv (monthlyData st)
                      /\ inCurrentMonth userId (getMonth now + 1) (getFullYear now)
                                        (snd kv) = false.
Proof.
  intro W. destruct (getCurrentMonthData_spec now userId st W) as [rows [st1 [Run E]]].
  exists rows, st1. eexists. split; [exact Run|]. split; [exact E|].
  rewrite closeMonth_run, Run. split; [reflexivity|].
  pose proof E as [W1 [Hmh [Htx [Hn [Hcat [Hrows [Hincl Hback]]]]]]].
  cbn [fst snd] in *.
  cbn [monthlyData monthlyHistory transactions idsDrawn].
  split; [|split; [exact Htx|split; [|split; [reflexivity|]]]].
  - apply (wf_delete_rows rng
             (mkStorage (monthlyData st1)
                (JsMap.set (rng (idsDrawn st1))
                   (snapshot now userId (rng (idsDrawn st1)) rows)
                   (monthlyHistory st1))
                (transactions st1) (S (idsDrawn st1)))).
    now apply (wf_add_history rng).
  - rewrite <- Hmh. apply JsMapFacts.set_fresh.
    exact (keysOk_fresh rng rng_inj _ _ (wf_mh _ _ W1)).
  - intros [k v]. rewrite in_fold_delete. cbn [fst snd]. split.
    + intros [H N].
      assert (Hout : ~ In v rows).
      { intro Hv. apply N. apply in_map_iff. exists v. split; [|exact Hv].
        exact (wf_md_id _ _ W1 _ _ H). }
      destruct (Hback _ H) as [H0|H0]; [|contradiction].
      split; [exact H0|].
      destruct (inCurrentMonth userId (getMonth now + 1) (getFullYear now) v) eqn:P;
        [|reflexivity].
      exfalso. apply Hout. exact (ensured_currentRows _ _ _ _ _ E _ _ H P).
    + intros [H P]. split; [now apply Hincl|].
      rewrite in_map_iff. intros [r [Hid Hr]].
      destruct (Hrows _ Hr) as [Hin [P' _]]. rewrite Hid in Hin.
      rewrite (JsMapFacts.in_functional _ _ _ _ (proj1 (wf_md _ _ W1))
                 (Hincl _ H) Hin) in P.
      congruence.
Qed.

(** Every reachable storage is well formed. *)
Lemma reachable_wf st : reachable rng st -> wf rng st.
Proof.
  induction 1 as [|now userId st R W|now userId data st R W|now userId st R W
                  |now userId transaction st R W|now userId id transaction st R W
                  |now userId id st R W].
  - repeat constructor; cbn; intros; contradiction.
  - destruct (getCurrentMonthData_spec now userId st W) as [rows [st' [Run E]]].
    rewrite Run. exact (proj1 E).
  - destruct (updateMonthlyData_spec rng rng_inj now userId data st W)
      as [r [st' [Run [W' _]]]].
    rewrite Run. exact W'.
  - destruct (closeMonth_spec now userId st W)
      as [rows [st1 [st2 [_ [_ [Run [W' _]]]]]]].
    rewrite Run. exact W'.
  - destruct (createTransaction_spec rng rng_inj now userId transaction st W)
      as [t [st' [Run [W' _]]]].
    rewrite Run. exact W'.
  - rewrite updateTransaction_run.
    destruct (JsMap.get id (transactions st)) as [existing|] eqn:G; [|exact W].
    destruct (String.eqb_spec (Transaction.userId existing) userId) as [U|U];
      [|exact W].
    destruct (updateTransaction_spec rng rng_inj now userId id transaction st
                existing W G U) as [st' [Run [W' _]]].
    rewrite updateTransaction_run, G, (proj2 (String.eqb_eq _ _) U) in Run.
    rewrite Run. exact W'.
  - rewrite deleteTransaction_run.
    destruct (JsMap.get id (transactions st)) as [existing|] eqn:G; [|exact W].
    destruct (String.eqb_spec (Transaction.userId existing) userId) as [U|U];
      [|exact W].
    destruct (deleteTransaction_spec rng rng_inj now userId id st existing W G U)
      as [st' [Run [W' _]]].
    rewrite deleteTransaction_run, G, (proj2 (String.eqb_eq _ _) U) in Run.
    rewrite Run. exact W'.
Qed.

End MonthSpecifications.

(** ** Sorted results *)

Section SortedResults.

Context {A : Type}.
Variable cmp : A -> A -> Z.
Hypothesis cmp_total : forall a b, cmp a b <= 0 \/ cmp b a <= 0.
Hypothesis cmp_trans : forall a b c, cmp a b <= 0 -> cmp b c <= 0 -> cmp a c <= 0.

Lemma insertSorted_sorted (x : A) (l : list A) :
  StronglySorted (fun a b => cmp a b <= 0) l ->
  StronglySorted (fun a b => cmp a b <= 0) (JsArray.insertSorted cmp x l).
Proof.
  induction 1 as [|y r S IH F]; cbn [JsArray.insertSorted].
  - constructor; constructor.
  - destruct (Z.leb_spec (cmp x y) 0) as [L|L].
    + constructor; [now constructor|].
      constructor; [exact L|].
      rewrite Forall_forall in *. intros z Hz. exact (cmp_trans _ _ _ L (F z Hz)).
    + constructor; [exact IH|].
      rewrite Forall_forall in *. intros z Hz.
      apply (Permutation_in _ (JsArrayFacts.insertSorted_perm cmp x r)) in Hz.
      destruct Hz as [Hz|Hz]; [|now apply F].
      subst z. destruct (cmp_total x y); [lia|assumption].
Qed.

Lemma sort_sorted (l : list A) :
  StronglySorted (fun a b => cmp a b <= 0) (JsArray.sort cmp l).
Proof.
  induction l as [|x r IH]; cbn; [constructor|]. now apply insertSorted_sorted.
Qed.

(** When no two elements of a sorted list compare equal, sorting any
    rearrangement of it gives that list back. *)
Lemma sorted_unique (l1 l2 : list A) :
  Permutation l1 l2 ->
  StronglySorted (fun a b => cmp a b <= 0) l1 ->
  StronglySorted (fun a b => cmp a b <= 0 /\ ~ cmp b a <= 0) l2 ->
  l1 = l2.
Proof.
  revert l1. induction l2 as [|x l2 IH]; intros l1 P S1 S2.
  - apply Permutation_nil. now symmetry.
  - destruct l1 as [|y l1]; [apply Permutation_nil in P; discriminate|].
    inversion S1 as [|? ? S1' F1]; subst. inversion S2 as [|? ? S2' F2]; subst.
    rewrite Forall_forall in F1, F2.
    assert (E : y = x).
    { assert (Hy : In y (x :: l2)) by (apply (Permutation_in _ P); now left).
      destruct Hy as [Hy|Hy]; [now symmetry|].
      assert (Hx : In x (y :: l1))
        by (apply (Permutation_in _ (Permutation_sym P)); now left).
      destruct Hx as [Hx|Hx]; [exact Hx|].
      exfalso. apply (proj2 (F2 _ Hy)). now apply F1. }
    subst y. f_equal. apply IH; [exact (Permutation_cons_inv P)|exact S1'|exact S2'].
Qed.

Lemma sort_unique (l l' : list A) :
  Permutation l' l ->
  StronglySorted (fun a b => cmp a b <= 0 /\ ~ cmp b a <= 0) l ->
  JsArray.sort cmp l' = l.
Proof.
  intros P S. apply sorted_unique; [|apply sort_sorted|exact S].
  now rewrite JsArrayFacts.sort_perm.
Qed.

End SortedResults.

Lemma slice0_firstn {A : Type} (l : list A) (e : Z) :
  0 <= e -> JsArray.slice0 l e = firstn (Z.to_nat e) l.
Proof.
  intro H. unfold JsArray.slice0.
  destruct (Z.ltb_spec e 0) as [L|L]; [lia|].
  destruct (Z.min_spec e (Z.of_nat (List.length l))) as [[_ ->]|[G ->]];
    [reflexivity|].
  rewrite Nat2Z.id, firstn_all. symmetry. apply firstn_all2. lia.
Qed.

(** ** The text [toFixed] produces is never empty *)

Lemma append_nonempty (s1 s2 : string) : s2 <> EmptyString -> (s1 ++ s2)%string <> EmptyString.
Proof. destruct s1; cbn; [trivial|discriminate]. Qed.

Lemma digitsOf_nonempty (fuel : nat) (n : Z) (acc : string) :
  acc <> EmptyString -> JS.digitsOf fuel n acc <> EmptyString.
Proof.
  revert n acc. induction fuel as [|f IH]; intros n acc H; cbn [JS.digitsOf]; [exact H|].
  destruct (n / 10 =? 0); [discriminate|]. apply IH. discriminate.
Qed.

Lemma decimalString_nonempty (n : Z) : JS.decimalString n <> EmptyString.
Proof.
  unfold JS.decimalString. cbn [JS.digitsOf].
  destruct (n / 10 =? 0); [discriminate|]. apply digitsOf_nonempty. discriminate.
Qed.

Lemma toFixed_nonempty (x : float) (fractionDigits : nat) :
  JS.toFixed x fractionDigits <> EmptyString.
Proof.
  unfold JS.toFixed.
  destruct (Prim2SF x) as [s|s| |s mx ex].
  - destruct (fractionDigits =? 0)%nat; discriminate.
  - destruct s; discriminate.
  - discriminate.
  - apply append_nonempty.
    destruct ((0 <=? ex) && (10 ^ 21 <=? Z.pos mx * 2 ^ ex)).
    + unfold JS.exponentialString. destruct (JS.shortestDigits 17 1 mx ex) as [d n].
      apply append_nonempty. discriminate.
    + destruct (fractionDigits =? 0)%nat; [apply decimalString_nonempty|].
      apply append_nonempty. discriminate.
Qed.

Lemma orZero_toFixed (x : float) (fractionDigits : nat) :
  orZero (Some (JS.toFixed x fractionDigits)) = JS.toFixed x fractionDigits.
Proof.
  unfold orZero. destruct (String.eqb_spec (JS.toFixed x fractionDigits) "") as [E|E];
    [|reflexivity].
  now apply toFixed_nonempty in E.
Qed.

(** ** Facts about the worked data *)

Lemma sampleId_inj (i j : nat) : sampleId i = sampleId j -> i = j.
Proof.
  revert j. induction i as [|i IH]; intros [|j]; cbn; intro H;
    [reflexivity|discriminate|discriminate|].
  f_equal. apply IH. now inversion H.
Qed.

(** ** Reading the current totals *)

Lemma rows_strictly_ordered (rows : list MonthlyData.t) :
  map MonthlyData.category rows = categories ->
  StronglySorted
    (fun a b => order (MonthlyData.category a) - order (MonthlyData.category b) <= 0
                /\ ~ order (MonthlyData.category b) - order (MonthlyData.category a) <= 0)
    rows.
Proof.
  intro H. destruct rows as [|a [|b [|c [|d r]]]]; try discriminate.
  unfold categories in H. cbn [map] in H. inversion H as [[Ha Hb Hc]].
  repeat constructor; rewrite ?Ha, ?Hb, ?Hc; cbn; lia.
Qed.



(** C10: [getCurrentMonthData] is idempotent: on every reachable storage, a
    second call in the same month and year, with nothing done in between,
    returns the very rows the first call returned (so the same category,
    month, year, [gastos] and [receita]) and leaves the storage as the first
    call left it. *)
Theorem getCurrentMonthData_idempotent
    (rng : nat -> string) (rng_inj : forall i j, rng i = rng j -> i = j)
    (now now' : Date) (userId : string) (st : MemStorage) :
  reachable rng st ->
  getMonth now' = getMonth now ->
  getFullYear now' = getFullYear now ->
  exists rows st',
    getCurrentMonthData rng now userId st = (Returned rows, st')
    /\ getCurrentMonthData rng now' userId st' = (Returned rows, st').
Proof.
  intros R Hm Hy. pose proof (reachable_wf rng rng_inj st R) as W.
  destruct (getCurrentMonthData_spec rng rng_inj now userId st W)
    as [rows [st' [Run E]]].
  exists rows, st'. split; [exact Run|].
  pose proof E as [W' [_ [_ [_ [Hcat [Hrows _]]]]]]. cbn [fst snd] in *.
  rewrite getCurrentMonthData_run.
  replace (currentRows now' userId st') with (currentRows now userId st')
    by (unfold currentRows; now rewrite Hm, Hy).
  assert (P : Permutation (currentRows now userId st') rows).
  { apply NoDup_Permutation.
    - exact (NoDup_map_inv _ _ (currentRows_categories_nodup rng now userId st' W')).
    - apply (NoDup_map_inv MonthlyData.category). rewrite Hcat. unfold categories.
      repeat constructor; cbn; intuition discriminate.
    - intro r. split.
      + intro Hr. apply in_currentRows in Hr. destruct Hr as [Hr Pr].
        apply JsMapFacts.in_values in Hr. destruct Hr as [k Hr].
        exact (ensured_currentRows rng _ _ _ _ _ E _ _ Hr Pr).
      + intro Hr. destruct (Hrows _ Hr) as [Hin [Pr _]].
        apply in_currentRows. split; [|exact Pr].
        apply JsMapFacts.in_values. now exists (MonthlyData.id r). }
  rewrite (Permutation_length P), <- (length_map MonthlyData.category rows), Hcat.
  cbn [List.length categories Nat.eqb].
  f_equal. f_equal. apply sort_unique.
  - intros a b. lia.
  - intros a b c. lia.
  - exact P.
  - now apply rows_strictly_ordered.
Qed.

Lemma getCurrentMonthData_idempotent_witness :
  exists rows st',
    getCurrentMonthData sampleId sampleNow "u" emptyStorage = (Returned rows, st')
    /\ getCurrentMonthData sampleId sampleLater "u" st' = (Returned rows, st').
Proof.
  apply (getCurrentMonthData_idempotent sampleId sampleId_inj sampleNow sampleLater
           "u" emptyStorage (reach_new sampleId)); reflexivity.
Defined.

(** ** Transactions that are not the caller's *)

Lemma oneExpense_reachable : reachable sampleId oneExpense.
Proof. apply reach_createTransaction, reach_new. Qed.

(** C7: [updateTransaction] and [deleteTransaction] throw
    ["Transaction not found"] whenever no transaction has the given id or the
    transaction belongs to another owner, and then the storage (every
    [MonthlyTotals] row, every transaction) is exactly what it was. *)
Theorem transaction_not_found_unchanged
    (rng : nat -> string) (now : Date) (userId id : string)
    (transaction : PartialInsertTransaction.t) (st : MemStorage) :
  JsMap.get id (transactions st) = None
  \/ (exists t, JsMap.get id (transactions st) = Some t
                /\ Transaction.userId t <> userId) ->
  updateTransaction rng now userId id transaction st
  = (Thrown "Transaction not found", st)
  /\ deleteTransaction rng now userId id st = (Thrown "Transaction not found", st).
Proof.
  intro H. rewrite updateTransaction_run, deleteTransaction_run.
  destruct H as [G|[t [G U]]]; rewrite G; [split; reflexivity|].
  apply String.eqb_neq in U. rewrite U. split; reflexivity.
Qed.

Lemma transaction_not_found_unchanged_witness :
  (updateTransaction sampleId sampleNow "v" "k"
     (PartialInsertTransaction.mk None None None (Some "1.00") None) oneExpense
   = (Thrown "Transaction not found", oneExpense)
   /\ deleteTransaction sampleId sampleNow "v" "k" oneExpense
      = (Thrown "Transaction not found", oneExpense))
  /\ (updateTransaction sampleId sampleNow "u" "missing"
        (PartialInsertTransaction.mk None None None (Some "1.00") None) oneExpense
      = (Thrown "Transaction not found", oneExpense)
      /\ deleteTransaction sampleId sampleNow "u" "missing" oneExpense
         = (Thrown "Transaction not found", oneExpense)).
Proof.
  split.
  - apply transaction_not_found_unchanged. right. eexists. split.
    + vm_compute. reflexivity.
    + cbn. discriminate.
  - apply transaction_not_found_unchanged. left. vm_compute. reflexivity.
Defined.

(** ** The history *)

Lemma StronglySorted_weaken {A : Type} (R R' : A -> A -> Prop) (l : list A) :
  (forall a b, R a b -> R' a b) -> StronglySorted R l -> StronglySorted R' l.
Proof.
  intros H. induction 1 as [|x l S IH F]; constructor; [exact IH|].
  rewrite Forall_forall in *. intros y Hy. apply H. now apply F.
Qed.

(** C9, amended: for every owner and every limit that is not negative (12
    when omitted), [getMonthlyHistory] returns the first [limit] of the owner's
    archived months sorted most recent first by (year, month): the result has
    [min limit (number of archived months)] records, together with the
    records left out it is a rearrangement of the owner's archived months, and
    result followed by the rest is sorted most recent first, so no record left
    out is more recent than a returned one.  The storage is not changed. *)
Theorem getMonthlyHistory_most_recent_first
    (userId : string) (limit : option Z) (st : MemStorage) :
  0 <= match limit with Some n => n | None => 12 end ->
  exists result rest,
    getMonthlyHistory userId limit st = (Returned result, st)
    /\ Z.of_nat (List.length result)
       = Z.min (match limit with Some n => n | None => 12 end)
               (Z.of_nat (List.length (archivedMonths userId st)))
    /\ Permutation (result ++ rest) (archivedMonths userId st)
    /\ StronglySorted recentFirst (result ++ rest).
Proof.
  intro H. unfold getMonthlyHistory, bind, this, ret.
  fold (archivedMonths userId st).
  set (n := match limit with Some n => n | None => 12 end) in *.
  set (cmp := fun a b : MonthlyHistory.t =>
                if negb (MonthlyHistory.year a =? MonthlyHistory.year b)
                then MonthlyHistory.year b - MonthlyHistory.year a
                else MonthlyHistory.month b - MonthlyHistory.month a).
  rewrite (slice0_firstn _ _ H).
  exists (firstn (Z.to_nat n) (JsArray.sort cmp (archivedMonths userId st))),
         (skipn (Z.to_nat n) (JsArray.sort cmp (archivedMonths userId st))).
  split; [reflexivity|]. split; [|split].
  - rewrite length_firstn, JsArrayFacts.sort_length. lia.
  - rewrite firstn_skipn. apply JsArrayFacts.sort_perm.
  - rewrite firstn_skipn.
    apply (StronglySorted_weaken (fun a b => cmp a b <= 0)).
    + intros a b. unfold cmp, recentFirst.
      destruct (Z.eqb_spec (MonthlyHistory.year a) (MonthlyHistory.year b));
        cbn [negb]; lia.
    + apply sort_sorted.
      * intros a b. unfold cmp.
        destruct (Z.eqb_spec (MonthlyHistory.year a) (MonthlyHistory.year b)),
                 (Z.eqb_spec (MonthlyHistory.year b) (MonthlyHistory.year a));
          cbn [negb]; lia.
      * intros a b c. unfold cmp.
        destruct (Z.eqb_spec (MonthlyHistory.year a) (MonthlyHistory.year b)),
                 (Z.eqb_spec (MonthlyHistory.year b) (MonthlyHistory.year c)),
                 (Z.eqb_spec (MonthlyHistory.year a) (MonthlyHistory.year c));
          cbn [negb]; lia.
Qed.

Lemma getMonthlyHistory_most_recent_first_witness :
  exists result rest,
    getMonthlyHistory "u" (Some 2) fiveMonths = (Returned result, fiveMonths)
    /\ Z.of_nat (List.length result)
       = Z.min 2 (Z.of_nat (List.length (archivedMonths "u" fiveMonths)))
    /\ Permutation (result ++ rest) (archivedMonths "u" fiveMonths)
    /\ StronglySorted recentFirst (result ++ rest).
Proof.
  apply (getMonthlyHistory_most_recent_first "u" (Some 2) fiveMonths).
  discriminate.
Defined.

(** With a limit of 2 on the five archived months: March 2026, then
    February 2026. *)
Lemma getMonthlyHistory_two_of_five :
  exists result,
    getMonthlyHistory "u" (Some 2) fiveMonths = (Returned result, fiveMonths)
    /\ map (fun h => (MonthlyHistory.year h, MonthlyHistory.month h)) result
       = [(2026, 3); (2026, 2)]
    /\ map (fun h => (MonthlyHistory.year h, MonthlyHistory.month h))
           (archivedMonths "u" fiveMonths)
       = [(2025, 11); (2025, 12); (2026, 1); (2026, 2); (2026, 3)].
Proof. eexists. split; [vm_compute; reflexivity|]. split; vm_compute; reflexivity. Qed.

(** A negative limit drops that many records from the end of the sorted
    list instead: with [-1], four of the five months are returned. *)
Lemma getMonthlyHistory_negative_limit :
  exists result,
    getMonthlyHistory "u" (Some (-1)) fiveMonths = (Returned result, fiveMonths)
    /\ List.length result = 4%nat.
Proof. eexists. split; vm_compute; reflexivity. Qed.

(** The route [GET /api/monthly/history] takes the limit from the query text
    with [parseInt] and passes it on as it is. *)
Lemma parseInt_of_minus_one : JsString.parseInt "-1" = Some (-1).
Proof. vm_compute. reflexivity. Qed.

(** C9, as stated, fails: with the limit -1 the five archived months give
    four records, which is more than the limit. *)
Lemma history_limit_counterexample :
  ~ (forall userId limit st, returnsAtMostLimit userId limit st).
Proof.
  intro H. destruct getMonthlyHistory_negative_limit as [result [Run L]].
  specialize (H "u" (-1) fiveMonths result fiveMonths Run).
  rewrite L in H. cbn in H. lia.
Qed.

(** ** Totals and the transactions they are computed from *)

(** C1, as stated, fails: after [updateMonthlyData] the row of
    [plr_nacional] reads 999 while the owner's only transaction of the month
    is an expense of 50.00. *)
Lemma totals_invariant_counterexample :
  ~ (forall st now userId, reachable sampleId st ->
                           totalsMatchTransactions now userId st).
Proof.
  intro H.
  assert (R : reachable sampleId editedTotals)
    by apply reach_updateMonthlyData, oneExpense_reachable.
  specialize (H editedTotals sampleNow "u" R).
  assert (Hin : In (MonthlyData.mk "xk" "u" plr_nacional 11 2026 "999" "0"
                                   sampleNow sampleNow)
                   (currentRows sampleNow "u" editedTotals))
    by (vm_compute; now left).
  destruct (H _ Hin) as [E _]. vm_compute in E. discriminate.
Qed.

Lemma countedFor_split now userId category kind t :
  countedFor now userId category kind t
  = inCategoryThisMonth userId category (getMonth now + 1) (getFullYear now) t
    && TransactionType_eqb (Transaction.type t) kind.
Proof.
  unfold countedFor, inCategoryThisMonth, inMonthOf. cbv zeta.
  replace (getMonth (Transaction.occurredAt t) + 1 =? getMonth now + 1)
    with (getMonth (Transaction.occurredAt t) =? getMonth now).
  - destruct (String.eqb (Transaction.userId t) userId),
             (Category_eqb (Transaction.category t) category),
             (TransactionType_eqb (Transaction.type t) kind),
             (getMonth (Transaction.occurredAt t) =? getMonth now),
             (getFullYear (Transaction.occurredAt t) =? getFullYear now); reflexivity.
  - destruct (Z.eqb_spec (getMonth (Transaction.occurredAt t)) (getMonth now)),
             (Z.eqb_spec (getMonth (Transaction.occurredAt t) + 1) (getMonth now + 1));
      reflexivity || lia.
Qed.

Lemma filter_counted now userId category kind (l : list Transaction.t) :
  filter (fun t => TransactionType_eqb (Transaction.type t) kind)
         (filter (inCategoryThisMonth userId category (getMonth now + 1) (getFullYear now))
                 l)
  = filter (countedFor now userId category kind) l.
Proof.
  induction l as [|t l IH]; [reflexivity|]. cbn [filter]. rewrite countedFor_split.
  destruct (inCategoryThisMonth userId category (getMonth now + 1) (getFullYear now) t);
    cbn [filter andb]; [|exact IH].
  destruct (TransactionType_eqb (Transaction.type t) kind); now rewrite IH.
Qed.

(** What [recalculateMonthlyData] writes, read off the records. *)
Lemma recomputedTotals_doubleTotal now userId category st :
  recomputedTotals now userId category st
  = (doubleTotal now userId category expense st,
     doubleTotal now userId category gain st).
Proof.
  unfold recomputedTotals, sumOfType, currentTransactions, doubleTotal.
  now rewrite !filter_counted.
Qed.

Lemma totalsRecomputed_carries now userId category st :
  totalsRecomputed now userId category st ->
  carriesDoubleTotals now userId category st.
Proof.
  intros [[r [Hr Hs]] Hall]. split.
  - exists r. unfold slot in Hs. inversion Hs. now repeat split.
  - intros r' Hr' Hu Hc Hm Hy.
    assert (Hs' : slot r' = (userId, category, getMonth now + 1, getFullYear now))
      by (unfold slot; congruence).
    specialize (Hall r' Hr' Hs'). rewrite recomputedTotals_doubleTotal in Hall.
    now inversion Hall.
Qed.

(** C1, amended: on every reachable storage, a successful
    [createTransaction] or [deleteTransaction], and a successful
    [updateTransaction] for the category the transaction had before the
    update, leaves a row for that owner, category and current month, and
    every such row carries [toFixed(2)] of the sums, in double arithmetic
    from 0 in storage order, of [Number(amount)] over the owner's expenses
    and over the owner's gains of that category whose [occurredAt] falls in
    the current month; [updateMonthlyData], on the other hand, stores
    whatever totals it is given. *)
Theorem totals_recomputed_after_transaction_change
    (rng : nat -> string) (rng_inj : forall i j, rng i = rng j -> i = j)
    (st : MemStorage) :
  reachable rng st ->
  (forall now userId transaction,
      exists t st',
        createTransaction rng now userId transaction st = (Returned t, st')
        /\ carriesDoubleTotals now userId (InsertTransaction.category transaction) st')
  /\ (forall now userId id transaction existing,
        JsMap.get id (transactions st) = Some existing ->
        Transaction.userId existing = userId ->
        exists t st',
          updateTransaction rng now userId id transaction st = (Returned t, st')
          /\ carriesDoubleTotals now userId (Transaction.category existing) st')
  /\ (forall now userId id existing,
        JsMap.get id (transactions st) = Some existing ->
        Transaction.userId existing = userId ->
        exists st',
          deleteTransaction rng now userId id st = (Returned tt, st')
          /\ carriesDoubleTotals now userId (Transaction.category existing) st')
  /\ (forall now userId data,
        exists r st',
          updateMonthlyData rng now userId data st = (Returned r, st')
          /\ In r (currentRows now userId st')
          /\ MonthlyData.category r = UpdateMonthlyData.category data
          /\ MonthlyData.gastos r = UpdateMonthlyData.gastos data
          /\ MonthlyData.receita r = UpdateMonthlyData.receita data).
Proof.
  intro R. pose proof (reachable_wf rng rng_inj st R) as W.
  split; [|split; [|split]].
  - intros now userId transaction.
    destruct (createTransaction_spec rng rng_inj now userId transaction st W)
      as [t [st' [Run [_ [_ [_ [_ [T _]]]]]]]].
    exists t, st'. split; [exact Run|]. now apply totalsRecomputed_carries.
  - intros now userId id transaction existing G U.
    destruct (updateTransaction_spec rng rng_inj now userId id transaction st
                existing W G U) as [st' [Run [_ [_ [_ [T _]]]]]].
    eexists. exists st'. split; [exact Run|]. now apply totalsRecomputed_carries.
  - intros now userId id existing G U.
    destruct (deleteTransaction_spec rng rng_inj now userId id st existing W G U)
      as [st' [Run [_ [_ [_ [T _]]]]]].
    exists st'. split; [exact Run|]. now apply totalsRecomputed_carries.
  - intros now userId data.
    destruct (updateMonthlyData_spec rng rng_inj now userId data st W)
      as [r [st' [Run [_ [_ [_ [_ [Hs [Hg [Hr Hin]]]]]]]]]].
    exists r, st'. split; [exact Run|]. inversion Hs as [[Hu Hc Hm Hy]].
    split; [|now repeat split].
    apply in_currentRows. split.
    + apply JsMapFacts.in_values. exists (MonthlyData.id r). apply Hin. now left.
    + apply inCurrentMonth_true. now repeat split.
Qed.

Lemma totals_recomputed_after_transaction_change_witness :
  (forall now userId transaction,
      exists t st',
        createTransaction sampleId now userId transaction oneExpense
        = (Returned t, st')
        /\ carriesDoubleTotals now userId (InsertTransaction.category transaction) st')
  /\ (forall now userId id transaction existing,
        JsMap.get id (transactions oneExpense) = Some existing ->
        Transaction.userId existing = userId ->
        exists t st',
          updateTransaction sampleId now userId id transaction oneExpense
          = (Returned t, st')
          /\ carriesDoubleTotals now userId (Transaction.category existing) st')
  /\ (forall now userId id existing,
        JsMap.get id (transactions oneExpense) = Some existing ->
        Transaction.userId existing = userId ->
        exists st',
          deleteTransaction sampleId now userId id oneExpense = (Returned tt, st')
          /\ carriesDoubleTotals now userId (Transaction.category existing) st')
  /\ (forall now userId data,
        exists r st',
          updateMonthlyData sampleId now userId data oneExpense = (Returned r, st')
          /\ In r (currentRows now userId st')
          /\ MonthlyData.category r = UpdateMonthlyData.category data
          /\ MonthlyData.gastos r = UpdateMonthlyData.gastos data
          /\ MonthlyData.receita r = UpdateMonthlyData.receita data).
Proof.
  exact (totals_recomputed_after_transaction_change sampleId sampleId_inj oneExpense
           oneExpense_reachable).
Defined.

(** After the expense of 50.00 and a gain of 120.00 in the same category the
    double totals read 50.00 and 120.00. *)
Lemma doubleTotal_of_two :
  let st :=
    snd (createTransaction sampleId sampleLater "u"
           (InsertTransaction.mk plr_nacional gain "sale" "120.00" None) oneExpense) in
  (doubleTotal sampleLater "u" plr_nacional expense st,
   doubleTotal sampleLater "u" plr_nacional gain st) = ("50.00", "120.00")
  /\ map (fun r => (MonthlyData.category r, MonthlyData.gastos r, MonthlyData.receita r))
         (currentRows sampleLater "u" st)
     = [(plr_nacional, "50.00", "120.00")].
Proof. vm_compute. split; reflexivity. Qed.

(** ** Closing a month keeps the transactions *)

(** C8: [closeMonth] returns and leaves the transactions collection exactly
    as it was (it appends one history record, and every [MonthlyTotals] row
    it leaves was there before); so whichever of [createTransaction],
    [updateTransaction], [deleteTransaction] comes next works on all the
    transactions the storage held before the close (plus its own change),
    and the row it leaves for its category reads [toFixed(2)] of the double
    sums of [Number(amount)] over all of the owner's transactions of that
    category and month among them, the amounts already archived included. *)
Theorem closeMonth_keeps_transactions
    (rng : nat -> string) (rng_inj : forall i j, rng i = rng j -> i = j)
    (now : Date) (userId : string) (st : MemStorage) :
  reachable rng st ->
  exists st1,
    closeMonth rng now userId st = (Returned tt, st1)
    /\ transactions st1 = transactions st
    /\ (exists h, monthlyHistory st1 = monthlyHistory st ++ [(MonthlyHistory.id h, h)])
    /\ (forall kv, In kv (monthlyData st1) -> In kv (monthlyData st))
    /\ (forall now' transaction,
          exists t st2,
            createTransaction rng now' userId transaction st1 = (Returned t, st2)
            /\ transactions st2 = transactions st ++ [(Transaction.id t, t)]
            /\ carriesDoubleTotals now' userId
                 (InsertTransaction.category transaction) st2)
    /\ (forall now' id transaction existing,
          JsMap.get id (transactions st) = Some existing ->
          Transaction.userId existing = userId ->
          exists t st2,
            updateTransaction rng now' userId id transaction st1 = (Returned t, st2)
            /\ transactions st2 = JsMap.set id t (transactions st)
            /\ carriesDoubleTotals now' userId (Transaction.category existing) st2)
    /\ (forall now' id existing,
          JsMap.get id (transactions st) = Some existing ->
          Transaction.userId existing = userId ->
          exists st2,
            deleteTransaction rng now' userId id st1 = (Returned tt, st2)
            /\ transactions st2 = JsMap.delete id (transactions st)
            /\ carriesDoubleTotals now' userId (Transaction.category existing) st2).
Proof.
  intro R. pose proof (reachable_wf rng rng_inj st R) as W.
  destruct (closeMonth_spec rng rng_inj now userId st W)
    as [rows [st0 [st1 [_ [E [Run [W1 [Htx [Hmh [_ Hmd]]]]]]]]]].
  exists st1. split; [exact Run|]. split; [exact Htx|].
  split; [eexists (snapshot now userId _ rows); exact Hmh|].
  split; [intros kv H; now apply Hmd in H|]. split; [|split].
  - intros now' transaction.
    destruct (createTransaction_spec rng rng_inj now' userId transaction st1 W1)
      as [t [st2 [Run2 [_ [Ht [_ [Htx2 [T _]]]]]]]].
    exists t, st2. split; [exact Run2|].
    split; [|now apply totalsRecomputed_carries].
    rewrite Htx2, Htx. now rewrite Ht at 2.
  - intros now' id transaction existing G U. rewrite <- Htx in G.
    destruct (updateTransaction_spec rng rng_inj now' userId id transaction st1
                existing W1 G U) as [st2 [Run2 [_ [_ [Htx2 [T _]]]]]].
    eexists. exists st2. split; [exact Run2|].
    split; [|now apply totalsRecomputed_carries].
    now rewrite Htx2, Htx.
  - intros now' id existing G U. rewrite <- Htx in G.
    destruct (deleteTransaction_spec rng rng_inj now' userId id st1 existing W1 G U)
      as [st2 [Run2 [_ [_ [Htx2 [T _]]]]]].
    exists st2. split; [exact Run2|].
    split; [|now apply totalsRecomputed_carries].
    now rewrite Htx2, Htx.
Qed.

Lemma closeMonth_keeps_transactions_witness :
  exists st1,
    closeMonth sampleId sampleNow "u" oneExpense = (Returned tt, st1)
    /\ transactions st1 = transactions oneExpense
    /\ (exists h, monthlyHistory st1
                  = monthlyHistory oneExpense ++ [(MonthlyHistory.id h, h)])
    /\ (forall kv, In kv (monthlyData st1) -> In kv (monthlyData oneExpense))
    /\ (forall now' transaction,
          exists t st2,
            createTransaction sampleId now' "u" transaction st1 = (Returned t, st2)
            /\ transactions st2 = transactions oneExpense ++ [(Transaction.id t, t)]
            /\ carriesDoubleTotals now' "u"
                 (InsertTransaction.category transaction) st2)
    /\ (forall now' id transaction existing,
          JsMap.get id (transactions oneExpense) = Some existing ->
          Transaction.userId existing = "u" ->
          exists t st2,
            updateTransaction sampleId now' "u" id transaction st1 = (Returned t, st2)
            /\ transactions st2 = JsMap.set id t (transactions oneExpense)
            /\ carriesDoubleTotals now' "u" (Transaction.category existing) st2)
    /\ (forall now' id existing,
          JsMap.get id (transactions oneExpense) = Some existing ->
          Transaction.userId existing = "u" ->
          exists st2,
            deleteTransaction sampleId now' "u" id st1 = (Returned tt, st2)
            /\ transactions st2 = JsMap.delete id (transactions oneExpense)
            /\ carriesDoubleTotals now' "u" (Transaction.category existing) st2).
Proof.
  exact (closeMonth_keeps_transactions sampleId sampleId_inj sampleNow "u" oneExpense
           oneExpense_reachable).
Defined.

(** An expense of 50.00 is archived by a close; a further expense of 20.00 in
    the same month then puts the total of the category at 70.00. *)
Lemma totals_after_close_include_archived :
  let closed := snd (closeMonth sampleId sampleNow "u" oneExpense) in
  let st :=
    snd (createTransaction sampleId sampleLater "u"
           (InsertTransaction.mk plr_nacional expense "paper" "20.00" None) closed) in
  map MonthlyHistory.plrNacionalGastos (archivedMonths "u" closed) = ["50.00"]
  /\ currentRows sampleLater "u" closed = []
  /\ map (fun r => (MonthlyData.category r, MonthlyData.gastos r, MonthlyData.receita r))
         (currentRows sampleLater "u" st)
     = [(plr_nacional, "70.00", "0.00")].
Proof. vm_compute. repeat split. Qed.

(** ** Sequences of transaction changes *)


(** The same happens below the fourteenth digit as soon as an amount has a
    third decimal: 1.005 is summed to 1.00. *)
Lemma third_decimal_is_lost :
  recomputedTotals sampleNow "u" plr_nacional
    (snd (createTransaction sampleId sampleNow "u"
            (InsertTransaction.mk plr_nacional expense "fee" "1.005" None)
            emptyStorage))
  = ("1.00", "0.00").
Proof. vm_compute. reflexivity. Qed.




(** After [sampleOps]: expenses 0.20, gains 120.00. *)
Lemma sampleOps_totals :
  map (fun r => (MonthlyData.category r, MonthlyData.gastos r, MonthlyData.receita r))
      (currentRows sampleNow "u" (snd (applyOps sampleId "u" sampleOps emptyStorage)))
  = [(plr_nacional, "0.20", "120.00")].
Proof. vm_compute. reflexivity. Qed.

(** ** Closing a month *)

Lemma three_rows (rows : list MonthlyData.t) :
  map MonthlyData.category rows = categories ->
  exists a b c,
    rows = [a; b; c]
    /\ MonthlyData.category a = plr_nacional
    /\ MonthlyData.category b = plr_internacional
    /\ MonthlyData.category c = marca_roupas.
Proof.
  intro H. destruct rows as [|a [|b [|c [|d r]]]]; try discriminate.
  inversion H. now exists a, b, c.
Qed.

Lemma snapshot_three now userId historyId a b c :
  MonthlyData.category a = plr_nacional ->
  MonthlyData.category b = plr_internacional ->
  MonthlyData.category c = marca_roupas ->
  snapshot now userId historyId [a; b; c]
  = MonthlyHistory.mk historyId userId (getMonth now + 1) (getFullYear now)
      (orZero (Some (MonthlyData.gastos a))) (orZero (Some (MonthlyData.receita a)))
      (orZero (Some (MonthlyData.gastos b))) (orZero (Some (MonthlyData.receita b)))
      (orZero (Some (MonthlyData.gastos c))) (orZero (Some (MonthlyData.receita c)))
      now.
Proof.
  intros Ha Hb Hc. unfold snapshot. cbn [find]. rewrite Ha, Hb, Hc. reflexivity.
Qed.

(** When the owner has no row for the month, the rows [getCurrentMonthData]
    ends with are three new rows of zeros. *)
Lemma ensured_fresh_month (rng : nat -> string) now userId st rows st' :
  ensured rng now userId st categories (rows, st') ->
  currentRows now userId st = [] ->
  map (fun r => (MonthlyData.category r, MonthlyData.gastos r, MonthlyData.receita r))
      rows
  = [(plr_nacional, "0", "0"); (plr_internacional, "0", "0"); (marca_roupas, "0", "0")].
Proof.
  intros [_ [_ [_ [_ [Hcat [Hrows _]]]]]] Hnone. cbn [fst snd] in *.
  assert (Z : forall r, In r rows ->
                MonthlyData.gastos r = "0" /\ MonthlyData.receita r = "0").
  { intros r Hr. destruct (Hrows _ Hr) as [_ [P [Hold|[Hg [Hr0 _]]]]]; [|now split].
    exfalso. assert (Hin : In r (currentRows now userId st)).
    { apply in_currentRows. split; [|exact P].
      apply JsMapFacts.in_values. now exists (MonthlyData.id r). }
    now rewrite Hnone in Hin. }
  destruct (three_rows _ Hcat) as [a [b [c [-> [Ha [Hb Hc]]]]]].
  destruct (Z a) as [Ga Ra]; [cbn; auto|].
  destruct (Z b) as [Gb Rb]; [cbn; auto|].
  destruct (Z c) as [Gc Rc]; [cbn; auto|].
  cbn [map]. now rewrite Ha, Hb, Hc, Ga, Ra, Gb, Rb, Gc, Rc.
Qed.


(** After [closeMonth] the owner has no row for the month. *)
Lemma closed_month_has_no_rows now now' userId (st st2 : MemStorage) :
  getMonth now' = getMonth now ->
  getFullYear now' = getFullYear now ->
  (forall kv, In kv (monthlyData st2)
              <-> In kv (monthlyData st)
                  /\ inCurrentMonth userId (getMonth now + 1) (getFullYear now)
                                    (snd kv) = false) ->
  currentRows now' userId st2 = [].
Proof.
  intros Hm Hy H. unfold currentRows. rewrite Hm, Hy.
  destruct (filter _ (JsMap.values (monthlyData st2))) as [|r l] eqn:F; [reflexivity|].
  assert (Hr : In r (filter (inCurrentMonth userId (getMonth now + 1) (getFullYear now))
                            (JsMap.values (monthlyData st2))))
    by (rewrite F; now left).
  apply filter_In in Hr. destruct Hr as [Hr P].
  apply JsMapFacts.in_values in Hr. destruct Hr as [k Hr].
  apply H in Hr. cbn [snd] in Hr. destruct Hr as [_ N]. congruence.
Qed.

Lemma snapshot_field now userId historyId a b c category kind :
  MonthlyData.category a = plr_nacional ->
  MonthlyData.category b = plr_internacional ->
  MonthlyData.category c = marca_roupas ->
  historyField category kind (snapshot now userId historyId [a; b; c])
  = orZero (Some (totalOf kind (rowFor category a b c))).
Proof.
  intros Ha Hb Hc. rewrite (snapshot_three _ _ _ _ _ _ Ha Hb Hc).
  destruct category, kind; reflexivity.
Qed.

Lemma sumOfType_single (kind : TransactionType) (t : Transaction.t) :
  sumOfType kind [t]
  = if TransactionType_eqb (Transaction.type t) kind
    then PrimFloat.add PrimFloat.zero (JS.Number (Transaction.amount t))
    else PrimFloat.zero.
Proof.
  unfold sumOfType. cbn [filter].
  destruct (TransactionType_eqb (Transaction.type t) kind); reflexivity.
Qed.

Lemma toFixed_zero : JS.toFixed PrimFloat.zero 2 = "0.00".
Proof. vm_compute. reflexivity. Qed.

(** C3, as stated, fails: an expense of 1.005 is archived as 1.00. *)
Lemma round_trip_counterexample :
  ~ roundTripExact sampleId sampleNow "u"
      (InsertTransaction.mk plr_nacional expense "fee" "1.005" None).
Proof.
  intros [h [Hh E]]. vm_compute in Hh. inversion Hh; subst h.
  vm_compute in E. discriminate.
Qed.

(** So does a two-decimal amount beyond the precision of a double:
    70368744177664.01 is archived as 70368744177664.02. *)
Lemma round_trip_of_large_amount :
  ~ roundTripExact sampleId sampleNow "u"
      (InsertTransaction.mk plr_nacional expense "stock" "70368744177664.01" None).
Proof.
  intros [h [Hh E]]. vm_compute in Hh. inversion Hh; subst h.
  vm_compute in E. discriminate.
Qed.

(** C3, amended: take an owner who has no transaction of some category in
    the current month and whose totals rows of the other categories for the
    month, if there are any, read ["0"] (a fresh month, before or after a
    first read of the current totals).  When the owner creates one
    transaction of that category in the current month and the month is
    closed at any later time of the same month, the close appends one history
    record of that owner and month, whose field for the transaction's
    category and kind is [toFixed(2)] of the double [0 + Number(amount)] (the
    amount itself when it is a two-decimal literal such as 50.00 that the
    conversion preserves), whose field for the other kind of that category is
    ["0.00"] and whose fields for the other categories are ["0"]; a
    [getCurrentMonthData] at any time of the same month after that returns
    the three categories with totals ["0"] and ["0"]. *)
Theorem close_round_trip
    (rng : nat -> string) (rng_inj : forall i j, rng i = rng j -> i = j)
    (now now' now'' : Date) (userId : string) (transaction : InsertTransaction.t)
    (st : MemStorage) :
  reachable rng st ->
  getMonth now' = getMonth now ->
  getFullYear now' = getFullYear now ->
  getMonth now'' = getMonth now ->
  getFullYear now'' = getFullYear now ->
  (forall r, In r (currentRows now userId st) ->
             MonthlyData.category r <> InsertTransaction.category transaction ->
             MonthlyData.gastos r = "0" /\ MonthlyData.receita r = "0") ->
  currentTransactions now userId (InsertTransaction.category transaction) st = [] ->
  occursThisMonth now transaction ->
  exists t st1 st2 h rows st3,
    createTransaction rng now userId transaction st = (Returned t, st1)
    /\ closeMonth rng now' userId st1 = (Returned tt, st2)
    /\ monthlyHistory st2 = monthlyHistory st ++ [(MonthlyHistory.id h, h)]
    /\ MonthlyHistory.userId h = userId
    /\ MonthlyHistory.month h = getMonth now + 1
    /\ MonthlyHistory.year h = getFullYear now
    /\ (forall category kind,
          historyField category kind h
          = if Category_eqb category (InsertTransaction.category transaction)
            then if TransactionType_eqb kind (InsertTransaction.type transaction)
                 then JS.toFixed
                        (PrimFloat.add PrimFloat.zero
                           (JS.Number (InsertTransaction.amount transaction))) 2
                 else "0.00"
            else "0")
    /\ getCurrentMonthData rng now'' userId st2 = (Returned rows, st3)
    /\ map (fun r => (MonthlyData.category r, MonthlyData.gastos r,
                      MonthlyData.receita r)) rows
       = [(plr_nacional, "0", "0"); (plr_internacional, "0", "0");
          (marca_roupas, "0", "0")].
Proof.
  intros R Hm1 Hy1 Hm2 Hy2 Hzero Htx0 Hocc.
  pose proof (reachable_wf rng rng_inj st R) as W.
  destruct (createTransaction_spec rng rng_inj now userId transaction st W)
    as [t [st1 [Run1 [W1 [Ht [Hmh1 [Htx1 [[[r0 [Hr0 Hs0]] T1] Hother1]]]]]]]].
  destruct (closeMonth_spec rng rng_inj now' userId st1 W1)
    as [rows1 [st1' [st2 [_ [E [Run2 [W2 [_ [Hmh2 [_ Hmd2]]]]]]]]]].
  destruct (getCurrentMonthData_spec rng rng_inj now'' userId st2 W2)
    as [rows [st3 [Run3 E3]]].
  exists t, st1, st2, (snapshot now' userId (rng (idsDrawn st1')) rows1), rows, st3.
  split; [exact Run1|]. split; [exact Run2|].
  split; [rewrite Hmh2, Hmh1; reflexivity|].
  split; [reflexivity|].
  split; [cbn [snapshot MonthlyHistory.month]; now rewrite Hm1|].
  split; [cbn [snapshot MonthlyHistory.year]; exact Hy1|].
  split; [|split; [exact Run3|]].
  2:{ apply (ensured_fresh_month rng now'' userId st2 rows st3 E3).
      apply (closed_month_has_no_rows now' now'' userId st1 st2); [congruence..|].
      exact Hmd2. }
  (* the transactions summed for the category are the new one alone *)
  assert (Hcur : currentTransactions now userId
                   (InsertTransaction.category transaction) st1 = [t]).
  { unfold currentTransactions in *. rewrite Htx1. unfold JsMap.values in *.
    rewrite map_app, filter_app, Htx0. cbn [map snd filter app].
    replace (inCategoryThisMonth userId (InsertTransaction.category transaction)
               (getMonth now + 1) (getFullYear now) t) with true; [reflexivity|].
    symmetry. rewrite Ht. unfold inCategoryThisMonth.
    cbn [Transaction.userId Transaction.category Transaction.occurredAt].
    rewrite String.eqb_refl, Category_eqb_refl. cbn [andb].
    unfold occursThisMonth in Hocc.
    destruct (InsertTransaction.occurredAt transaction) as [d|].
    - destruct Hocc as [-> ->]. now rewrite !Z.eqb_refl.
    - now rewrite !Z.eqb_refl. }
  pose proof E as [W1' [_ [_ [_ [Hcat [Hrows [Hincl _]]]]]]]. cbn [fst snd] in *.
  rewrite Hm1, Hy1 in Hrows.
  assert (Hval : forall r, In r rows1 ->
            forall kind,
              totalOf kind r
              = if Category_eqb (MonthlyData.category r)
                                (InsertTransaction.category transaction)
                then JS.toFixed (sumOfType kind [t]) 2
                else "0").
  { intros r Hr kind. destruct (Hrows _ Hr) as [Hin [P Hold]].
    destruct (Category_eqb (MonthlyData.category r)
                           (InsertTransaction.category transaction)) eqn:C.
    - apply Category_eqb_eq in C.
      assert (Hsame : r0 = r).
      { apply JsMapFacts.in_values in Hr0. destruct Hr0 as [k0 Hk0].
        apply Hincl in Hk0.
        assert (Ek : k0 = MonthlyData.id r).
        { apply (wf_md_slot _ _ W1' _ _ _ _ Hk0 Hin). rewrite Hs0.
          apply inCurrentMonth_slot in P. rewrite P. now rewrite C. }
        subst k0.
        exact (JsMapFacts.in_functional _ _ _ _ (proj1 (wf_md _ _ W1')) Hk0 Hin). }
      subst r0. specialize (T1 r Hr0 Hs0).
      unfold recomputedTotals in T1. rewrite Hcur in T1. inversion T1 as [[Hg Hrec]].
      destruct kind; cbn [totalOf]; assumption.
    - apply Category_eqb_neq in C.
      destruct Hold as [Hold|[Hg [Hr' _]]]; [|destruct kind; cbn [totalOf]; assumption].
      apply Hother1 in Hold.
      + assert (Hin0 : In r (currentRows now userId st)).
        { apply in_currentRows. split; [|exact P].
          apply JsMapFacts.in_values. now exists (MonthlyData.id r). }
        destruct (Hzero r Hin0 C) as [Hg Hr'].
        destruct kind; cbn [totalOf]; assumption.
      + cbn [snd]. intro Es. apply C. now inversion Es. }
  destruct (three_rows _ Hcat) as [a [b [c [-> [Ha [Hb Hc]]]]]].
  intros category kind. rewrite (snapshot_field _ _ _ _ _ _ _ _ Ha Hb Hc).
  assert (Hin : In (rowFor category a b c) [a; b; c])
    by (destruct category; cbn; auto).
  assert (Hc' : MonthlyData.category (rowFor category a b c) = category)
    by (destruct category; assumption).
  rewrite (Hval _ Hin kind), Hc'.
  destruct (Category_eqb category (InsertTransaction.category transaction));
    [|reflexivity].
  rewrite orZero_toFixed, sumOfType_single, Ht. cbn [Transaction.type Transaction.amount].
  destruct kind, (InsertTransaction.type transaction); cbn [TransactionType_eqb];
    reflexivity || exact toFixed_zero.
Qed.

Lemma close_round_trip_witness :
  exists t st1 st2 h rows st3,
    createTransaction sampleId sampleNow "u" sampleExpense afterRead
    = (Returned t, st1)
    /\ closeMonth sampleId sampleLater "u" st1 = (Returned tt, st2)
    /\ monthlyHistory st2 = monthlyHistory afterRead ++ [(MonthlyHistory.id h, h)]
    /\ MonthlyHistory.userId h = "u"
    /\ MonthlyHistory.month h = getMonth sampleNow + 1
    /\ MonthlyHistory.year h = getFullYear sampleNow
    /\ (forall category kind,
          historyField category kind h
          = if Category_eqb category (InsertTransaction.category sampleExpense)
            then if TransactionType_eqb kind (InsertTransaction.type sampleExpense)
                 then JS.toFixed
                        (PrimFloat.add PrimFloat.zero
                           (JS.Number (InsertTransaction.amount sampleExpense))) 2
                 else "0.00"
            else "0")
    /\ getCurrentMonthData sampleId sampleEnd "u" st2 = (Returned rows, st3)
    /\ map (fun r => (MonthlyData.category r, MonthlyData.gastos r,
                      MonthlyData.receita r)) rows
       = [(plr_nacional, "0", "0"); (plr_internacional, "0", "0");
          (marca_roupas, "0", "0")].
Proof.
  apply (close_round_trip sampleId sampleId_inj sampleNow sampleLater sampleEnd "u"
           sampleExpense afterRead).
  - apply reach_getCurrentMonthData, reach_new.
  - reflexivity.
  - reflexivity.
  - reflexivity.
  - reflexivity.
  - intros r Hr _. vm_compute in Hr.
    destruct Hr as [E|[E|[E|[]]]]; subst r; split; reflexivity.
  - reflexivity.
  - exact I.
Defined.

(** The same round trip from the empty storage, where the owner has no
    totals row yet. *)
Lemma round_trip_from_empty_storage :
  let st1 := snd (createTransaction sampleId sampleNow "u" sampleExpense emptyStorage) in
  let st2 := snd (closeMonth sampleId sampleLater "u" st1) in
  map (fun h => (MonthlyHistory.plrNacionalGastos h, MonthlyHistory.plrNacionalReceita h,
                 MonthlyHistory.plrInternacionalGastos h, MonthlyHistory.marcaRoupasGastos h))
      (archivedMonths "u" st2)
  = [("50.00", "0.00", "0", "0")]
  /\ match fst (getCurrentMonthData sampleId sampleEnd "u" st2) with
     | Returned rows =>
         map (fun r => (MonthlyData.category r, MonthlyData.gastos r,
                        MonthlyData.receita r)) rows
     | Thrown _ => []
     end
     = [(plr_nacional, "0", "0"); (plr_internacional, "0", "0");
        (marca_roupas, "0", "0")].
Proof. vm_compute. split; reflexivity. Qed.

(** For the expense of 50.00 the archived field reads 50.00. *)
Lemma round_trip_of_fifty :
  JS.toFixed (PrimFloat.add PrimFloat.zero
                (JS.Number (InsertTransaction.amount sampleExpense))) 2
  = "50.00".
Proof. vm_compute. reflexivity. Qed.




(** The totals of the two records for [oneExpense]. *)
Lemma closeMonth_twice_totals :
  map (fun h => (MonthlyHistory.plrNacionalGastos h, MonthlyHistory.plrNacionalReceita h,
                 MonthlyHistory.plrInternacionalGastos h))
      (archivedMonths "u"
         (snd (closeMonth sampleId sampleLater "u"
                 (snd (closeMonth sampleId sampleNow "u" oneExpense)))))
  = [("50.00", "0.00", "0"); ("0", "0", "0")].
Proof. vm_compute. reflexivity. Qed.

(** ** Moving a transaction to another category *)

(** C5 fails on the code: after the update succeeded, the row of the old
    category was recomputed (0.00, 0.00) but the row of the new category
    still reads (0.00, 10.00), while a recompute of the new category would
    write (50.00, 10.00). *)
Theorem update_leaves_new_category_stale :
  reachable sampleId movedExpense
  /\ map (fun t => (Transaction.id t, Transaction.category t, Transaction.type t,
                    Transaction.amount t))
         (JsMap.values (transactions movedExpense))
     = [("k", plr_internacional, gain, "10.00");
        ("xxk", plr_internacional, expense, "50.00")]
  /\ map (fun r => (MonthlyData.category r, MonthlyData.gastos r, MonthlyData.receita r))
         (currentRows sampleNow "u" movedExpense)
     = [(plr_internacional, "0.00", "10.00"); (plr_nacional, "0.00", "0.00")]
  /\ recomputedTotals sampleNow "u" plr_internacional movedExpense = ("50.00", "10.00")
  /\ ~ totalsRecomputed sampleNow "u" plr_internacional movedExpense.
Proof.
  split; [apply reach_updateTransaction, reach_createTransaction,
          reach_createTransaction, reach_new|].
  split; [vm_compute; reflexivity|]. split; [vm_compute; reflexivity|].
  split; [vm_compute; reflexivity|].
  intros [_ H].
  specialize (H (MonthlyData.mk "xk" "u" plr_internacional 11 2026 "0.00" "10.00"
                                sampleNow sampleNow)).
  assert (E : ("0.00", "10.00")
              = recomputedTotals sampleNow "u" plr_internacional movedExpense).
  { apply H; [vm_compute; now left|reflexivity]. }
  vm_compute in E. discriminate.
Qed.

(** In general, [updateTransaction] leaves every row outside the slot of the
    category the transaction had before the update as it was. *)
Lemma updateTransaction_other_rows
    (rng : nat -> string) (rng_inj : forall i j, rng i = rng j -> i = j)
    (now : Date) (userId id : string) (transaction : PartialInsertTransaction.t)
    (st : MemStorage) (existing : Transaction.t) :
  reachable rng st ->
  JsMap.get id (transactions st) = Some existing ->
  Transaction.userId existing = userId ->
  forall kv,
    slot (snd kv) <> (userId, Transaction.category existing, getMonth now + 1,
                      getFullYear now) ->
    In kv (monthlyData (snd (updateTransaction rng now userId id transaction st)))
    <-> In kv (monthlyData st).
Proof.
  intros R G U kv N. pose proof (reachable_wf rng rng_inj st R) as W.
  destruct (updateTransaction_spec rng rng_inj now userId id transaction st existing
              W G U) as [st' [Run [_ [_ [_ [_ H]]]]]].
  rewrite Run. cbn [snd]. now apply H.
Qed.


(** ** Listing the transactions of a category *)

Lemma categoryName_inj (a b : Category) : categoryName a = categoryName b -> a = b.
Proof. destruct a, b; cbn; intro H; reflexivity || discriminate. Qed.

Lemma categoryName_eqb (a b : Category) :
  String.eqb (categoryName a) (categoryName b) = Category_eqb a b.
Proof. destruct a, b; reflexivity. Qed.

Lemma filter_none {A} (p : A -> bool) (l : list A) :
  (forall x, In x l -> p x = false) -> filter p l = [].
Proof.
  induction l as [|a l IH]; intro H; [reflexivity|].
  cbn. rewrite (H a (or_introl eq_refl)). apply IH. intros x Hx. apply H. now right.
Qed.

(** X1: [getTransactionsByCategory] changes nothing and returns its list
    sorted by [occurredAt], latest first; for the name of a category the list
    is a rearrangement of exactly the transactions [recalculateMonthlyData]
    sums for that owner, category and month; for any other text it is
    empty. *)
Theorem getTransactionsByCategory_lists_what_is_summed
    (now : Date) (userId category : string) (st : MemStorage) :
  exists l,
    getTransactionsByCategory now userId category st = (Returned l, st)
    /\ StronglySorted
         (fun a b => getTime (Transaction.occurredAt a)
                     >= getTime (Transaction.occurredAt b)) l
    /\ (forall c, category = categoryName c ->
                  Permutation l (currentTransactions now userId c st))
    /\ ((forall c, category <> categoryName c) -> l = []).
Proof.
  eexists. split; [reflexivity|]. split; [|split].
  - apply (StronglySorted_weaken
             (fun a b => getTime (Transaction.occurredAt b)
                         - getTime (Transaction.occurredAt a) <= 0)).
    + intros a b. lia.
    + apply sort_sorted; intros; lia.
  - intros c ->. rewrite JsArrayFacts.sort_perm. unfold currentTransactions.
    erewrite filter_ext; [reflexivity|].
    intro t. unfold inCategoryThisMonth. now rewrite categoryName_eqb.
  - intro H.
    match goal with
    | |- JsArray.sort _ (filter ?p ?l) = [] => replace (filter p l) with (@nil Transaction.t)
    end; [reflexivity|].
    symmetry. apply filter_none.
    intros t _. destruct (String.eqb_spec (categoryName (Transaction.category t)) category)
      as [E|E]; [exfalso; exact (H _ (eq_sym E))|].
    now rewrite !andb_false_r.
Qed.

(** ** Records of other owners *)

Module JsMapFrame.
Section WithValues.
Context {V : Type}.
Variable p : V -> bool.

(** Writing a value that fails [p] over nothing, or over a value that fails
    [p], leaves the values that pass [p] as they were, in their order. *)
Lemma filter_values_set (k : string) (v : V) (m : JsMap.t V) :
  (forall old, JsMap.get k m = Some old -> p old = false) ->
  p v = false ->
  filter p (JsMap.values (JsMap.set k v m)) = filter p (JsMap.values m).
Proof.
  intros Hold Hv. induction m as [|[k' v'] r IH]; cbn in *.
  - now rewrite Hv.
  - destruct (String.eqb k' k) eqn:E; cbn.
    + rewrite Hv, (Hold v' eq_refl). reflexivity.
    + destruct (p v'); [f_equal|]; now apply IH.
Qed.

Lemma filter_values_delete (k : string) (m : JsMap.t V) :
  (forall old, In (k, old) m -> p old = false) ->
  filter p (JsMap.values (JsMap.delete k m)) = filter p (JsMap.values m).
Proof.
  intro Hold. unfold JsMap.delete. induction m as [|[k' v'] r IH]; cbn in *; [reflexivity|].
  destruct (String.eqb_spec k' k) as [E|E]; cbn.
  - subst k'. rewrite (Hold v' (or_introl eq_refl)). apply IH.
    intros old H. apply Hold. now right.
  - destruct (p v'); [f_equal|]; apply IH; intros old H; apply Hold; now right.
Qed.

Lemma filter_values_app (m1 m2 : JsMap.t V) :
  filter p (JsMap.values (m1 ++ m2))
  = filter p (JsMap.values m1) ++ filter p (JsMap.values m2).
Proof. unfold JsMap.values. now rewrite map_app, filter_app. Qed.

End WithValues.
End JsMapFrame.

Lemma filter_values_fold_delete (p : MonthlyData.t -> bool) (rows : list MonthlyData.t)
    (m : JsMap.t MonthlyData.t) :
  (forall r old, In r rows -> In (MonthlyData.id r, old) m -> p old = false) ->
  filter p (JsMap.values
              (fold_left (fun m data => JsMap.delete (MonthlyData.id data) m) rows m))
  = filter p (JsMap.values m).
Proof.
  revert m. induction rows as [|r rows IH]; intros m H; cbn [fold_left]; [reflexivity|].
  rewrite IH.
  - apply JsMapFrame.filter_values_delete. intros old Hin.
    exact (H r old (or_introl eq_refl) Hin).
  - intros r' old Hr' Hin. apply JsMapFacts.in_delete_iff in Hin.
    exact (H r' old (or_intror Hr') (proj1 Hin)).
Qed.

Lemma ownerView_eq (v : string) (st st' : MemStorage) :
  filter (fun d => String.eqb (MonthlyData.userId d) v) (JsMap.values (monthlyData st'))
  = filter (fun d => String.eqb (MonthlyData.userId d) v) (JsMap.values (monthlyData st)) ->
  filter (fun h => String.eqb (MonthlyHistory.userId h) v)
         (JsMap.values (monthlyHistory st'))
  = filter (fun h => String.eqb (MonthlyHistory.userId h) v)
           (JsMap.values (monthlyHistory st)) ->
  filter (fun t => String.eqb (Transaction.userId t) v) (JsMap.values (transactions st'))
  = filter (fun t => String.eqb (Transaction.userId t) v) (JsMap.values (transactions st)) ->
  ownerView v st' = ownerView v st.
Proof. intros E1 E2 E3. unfold ownerView, archivedMonths. now rewrite E1, E2, E3. Qed.

Section OtherOwners.

Variable rng : nat -> string.
Hypothesis rng_inj : forall i j, rng i = rng j -> i = j.
Variables u v : string.
Hypothesis other : u <> v.

Lemma updateMonthlyData_view now updateData st :
  wf rng st ->
  ownerView v (snd (updateMonthlyData rng now u updateData st)) = ownerView v st.
Proof.
  intro W. rewrite updateMonthlyData_run.
  destruct (find _ (JsMap.values (monthlyData st))) as [e|] eqn:F; cbn [snd].
  - apply find_some in F. destruct F as [He Hs]. apply inSlot_true in Hs.
    assert (Hu : MonthlyData.userId e = u) by (unfold slot in Hs; congruence).
    apply ownerView_eq; cbn [monthlyData monthlyHistory transactions]; trivial.
    apply JsMapFrame.filter_values_set.
    + intros old G. apply JsMapFacts.get_some_in in G.
      apply JsMapFacts.in_values in He. destruct He as [k He].
      pose proof (wf_md_id _ _ W _ _ He) as Hk. subst k.
      rewrite (JsMapFacts.in_functional _ _ _ _ (proj1 (wf_md _ _ W)) G He).
      rewrite Hu. now apply String.eqb_neq.
    + cbn. rewrite Hu. now apply String.eqb_neq.
  - apply ownerView_eq; cbn [monthlyData monthlyHistory transactions]; trivial.
    apply JsMapFrame.filter_values_set.
    + intros old G. apply JsMapFacts.get_some_in, JsMapFacts.in_keys in G.
      now apply (keysOk_fresh rng rng_inj _ _ (wf_md _ _ W)) in G.
    + cbn. now apply String.eqb_neq.
Qed.

Lemma recalculateMonthlyData_view now category st :
  wf rng st ->
  ownerView v (snd (recalculateMonthlyData rng now u category st)) = ownerView v st.
Proof.
  intro W. rewrite recalculateMonthlyData_run. cbn [snd].
  now apply updateMonthlyData_view.
Qed.

Lemma createTransaction_view now transaction st :
  wf rng st ->
  ownerView v (snd (createTransaction rng now u transaction st)) = ownerView v st.
Proof.
  intro W. rewrite createTransaction_run. cbn [snd].
  rewrite recalculateMonthlyData_view by now apply (wf_add_transaction rng).
  apply ownerView_eq; cbn [monthlyData monthlyHistory transactions]; trivial.
  apply JsMapFrame.filter_values_set.
  - intros old G. apply JsMapFacts.get_some_in, JsMapFacts.in_keys in G.
    now apply (keysOk_fresh rng rng_inj _ _ (wf_tx _ _ W)) in G.
  - cbn. now apply String.eqb_neq.
Qed.

Lemma updateTransaction_view now id transaction st :
  wf rng st ->
  ownerView v (snd (updateTransaction rng now u id transaction st)) = ownerView v st.
Proof.
  intro W. rewrite updateTransaction_run.
  destruct (JsMap.get id (transactions st)) as [existing|] eqn:G; [|reflexivity].
  destruct (String.eqb_spec (Transaction.userId existing) u) as [U|U]; [|reflexivity].
  cbn [snd]. rewrite recalculateMonthlyData_view.
  - apply ownerView_eq; cbn [monthlyData monthlyHistory transactions]; trivial.
    apply JsMapFrame.filter_values_set.
    + intros old G'. rewrite G in G'. inversion G'; subst old.
      rewrite U. now apply String.eqb_neq.
    + cbn. rewrite U. now apply String.eqb_neq.
  - apply (wf_replace_transaction rng); [exact W|].
    exact (JsMapFacts.in_keys _ _ _ (JsMapFacts.get_some_in _ _ _ G)).
Qed.

Lemma deleteTransaction_view now id st :
  wf rng st ->
  ownerView v (snd (deleteTransaction rng now u id st)) = ownerView v st.
Proof.
  intro W. rewrite deleteTransaction_run.
  destruct (JsMap.get id (transactions st)) as [existing|] eqn:G; [|reflexivity].
  destruct (String.eqb_spec (Transaction.userId existing) u) as [U|U]; [|reflexivity].
  cbn [snd]. rewrite recalculateMonthlyData_view by now apply (wf_delete_transaction rng).
  apply ownerView_eq; cbn [monthlyData monthlyHistory transactions]; trivial.
  apply JsMapFrame.filter_values_delete. intros old Hin.
  apply JsMapFacts.get_some_in in G.
  rewrite (JsMapFacts.in_functional _ _ _ _ (proj1 (wf_tx _ _ W)) Hin G).
  rewrite U. now apply String.eqb_neq.
Qed.

Lemma ensureRow_view now st0 handled acc c :
  ensured rng now u st0 handled acc ->
  ownerView v (snd (ensureRow rng now u (currentRows now u st0) acc c))
  = ownerView v (snd acc).
Proof.
  intros [W _]. cbn [fst snd] in W. unfold ensureRow.
  destruct (find _ (currentRows now u st0)); cbn [snd]; [reflexivity|].
  apply ownerView_eq; cbn [monthlyData monthlyHistory transactions]; trivial.
  apply JsMapFrame.filter_values_set.
  - intros old G. apply JsMapFacts.get_some_in, JsMapFacts.in_keys in G.
    now apply (keysOk_fresh rng rng_inj _ _ (wf_md _ _ W)) in G.
  - cbn. now apply String.eqb_neq.
Qed.

Lemma fold_ensureRow_view now st0 cs :
  wf rng st0 ->
  forall handled acc,
    NoDup cs ->
    (forall c, In c cs -> ~ In c handled) ->
    ensured rng now u st0 handled acc ->
    ownerView v (snd (fold_left (ensureRow rng now u (currentRows now u st0)) cs acc))
    = ownerView v (snd acc).
Proof.
  intro W0. induction cs as [|c cs IH]; intros handled acc ND Hd E; [reflexivity|].
  cbn [fold_left]. inversion ND as [|? ? Hnin ND']; subst.
  rewrite (IH (handled ++ [c])); [now apply (ensureRow_view now st0 handled)|exact ND'| |].
  - intros c' Hc' Hin. apply in_app_or in Hin. destruct Hin as [Hin|[Hin|[]]].
    + apply (Hd c'); [now right|exact Hin].
    + subst c'. contradiction.
  - apply (ensureRow_ensured rng rng_inj); [exact W0| |exact E]. apply Hd. now left.
Qed.

Lemma getCurrentMonthData_view now st :
  wf rng st ->
  ownerView v (snd (getCurrentMonthData rng now u st)) = ownerView v st.
Proof.
  intro W. rewrite getCurrentMonthData_run.
  destruct (List.length (currentRows now u st) =? 3)%nat; [reflexivity|]. cbn [snd].
  apply (fold_ensureRow_view now st categories W [] ([], st)).
  - unfold categories. repeat constructor; cbn; intuition discriminate.
  - intros c _ [].
  - now apply ensured_start.
Qed.

Lemma closeMonth_view now st :
  wf rng st ->
  ownerView v (snd (closeMonth rng now u st)) = ownerView v st.
Proof.
  intro W. rewrite closeMonth_run.
  pose proof (getCurrentMonthData_view now st W) as Hv.
  destruct (getCurrentMonthData_spec rng rng_inj now u st W) as [rows [st1 [Run E]]].
  rewrite Run in *. cbn [snd] in *. rewrite <- Hv.
  destruct E as [W1 [_ [_ [_ [_ [Hrows _]]]]]]. cbn [fst snd] in *.
  apply ownerView_eq; cbn [monthlyData monthlyHistory transactions]; trivial.
  - apply filter_values_fold_delete. intros r old Hr Hin.
    destruct (Hrows r Hr) as [Hin' [P _]].
    rewrite (JsMapFacts.in_functional _ _ _ _ (proj1 (wf_md _ _ W1)) Hin Hin').
    apply inCurrentMonth_true in P. destruct P as [-> _]. now apply String.eqb_neq.
  - apply JsMapFrame.filter_values_set.
    + intros old G. apply JsMapFacts.get_some_in, JsMapFacts.in_keys in G.
      now apply (keysOk_fresh rng rng_inj _ _ (wf_mh _ _ W1)) in G.
    + cbn. now apply String.eqb_neq.
Qed.

End OtherOwners.

Lemma twoOwners_reachable : reachable sampleId twoOwners.
Proof. apply reach_createTransaction, oneExpense_reachable. Qed.

(** X2: no operation of the storage touches the records of another owner.
    From any storage the operations lead to, whatever owner [u] does (reading
    the current totals, posting totals, closing the month, creating, updating
    or deleting a transaction, successfully or not), the totals rows, archived
    months and transactions of every other owner [v] stay exactly as they
    were, in the same order. *)
Theorem other_owners_records_untouched
    (rng : nat -> string) (rng_inj : forall i j, rng i = rng j -> i = j)
    (now : Date) (u v : string) (st : MemStorage) :
  reachable rng st ->
  u <> v ->
  ownerView v (snd (getCurrentMonthData rng now u st)) = ownerView v st
  /\ (forall updateData,
        ownerView v (snd (updateMonthlyData rng now u updateData st)) = ownerView v st)
  /\ ownerView v (snd (closeMonth rng now u st)) = ownerView v st
  /\ (forall transaction,
        ownerView v (snd (createTransaction rng now u transaction st)) = ownerView v st)
  /\ (forall id transaction,
        ownerView v (snd (updateTransaction rng now u id transaction st))
        = ownerView v st)
  /\ (forall id,
        ownerView v (snd (deleteTransaction rng now u id st)) = ownerView v st).
Proof.
  intros R other. pose proof (reachable_wf rng rng_inj st R) as W.
  split; [now apply getCurrentMonthData_view|].
  split; [intro; now apply updateMonthlyData_view|].
  split; [now apply closeMonth_view|].
  split; [intro; now apply createTransaction_view|].
  split; [intros; now apply updateTransaction_view|].
  intro; now apply deleteTransaction_view.
Qed.

Lemma other_owners_records_untouched_witness :
  ownerView "w" (snd (getCurrentMonthData sampleId sampleNow "u" twoOwners))
  = ownerView "w" twoOwners
  /\ (forall updateData,
        ownerView "w" (snd (updateMonthlyData sampleId sampleNow "u" updateData twoOwners))
        = ownerView "w" twoOwners)
  /\ ownerView "w" (snd (closeMonth sampleId sampleNow "u" twoOwners))
     = ownerView "w" twoOwners
  /\ (forall transaction,
        ownerView "w" (snd (createTransaction sampleId sampleNow "u" transaction twoOwners))
        = ownerView "w" twoOwners)
  /\ (forall id transaction,
        ownerView "w"
          (snd (updateTransaction sampleId sampleNow "u" id transaction twoOwners))
        = ownerView "w" twoOwners)
  /\ (forall id,
        ownerView "w" (snd (deleteTransaction sampleId sampleNow "u" id twoOwners))
        = ownerView "w" twoOwners).
Proof.
  apply (other_owners_records_untouched sampleId sampleId_inj sampleNow "u" "w" twoOwners
           twoOwners_reachable).
  discriminate.
Defined.

Lemma filter_andb {A : Type} (p q : A -> bool) (l : list A) :
  filter (fun x => p x && q x) l = filter q (filter p l).
Proof.
  induction l as [|a l IH]; cbn; [reflexivity|].
  destruct (p a); cbn; [destruct (q a); now rewrite IH|exact IH].
Qed.

(** X3: what an owner reads depends on the owner's own records only.  Two
    storages that hold the same totals rows, archived months and transactions
    of owner [v] give [v] the same rows of the current month, the same
    transactions and recomputed totals of each category, the same listing
    from [getTransactionsByCategory] and the same history from
    [getMonthlyHistory]. *)
Theorem reads_depend_on_own_records
    (now : Date) (v : string) (st st' : MemStorage) :
  ownerView v st' = ownerView v st ->
  currentRows now v st' = currentRows now v st
  /\ (forall c, currentTransactions now v c st' = currentTransactions now v c st
                /\ recomputedTotals now v c st' = recomputedTotals now v c st)
  /\ (forall category,
        fst (getTransactionsByCategory now v category st')
        = fst (getTransactionsByCategory now v category st))
  /\ (forall limit,
        fst (getMonthlyHistory v limit st') = fst (getMonthlyHistory v limit st)).
Proof.
  unfold ownerView, archivedMonths. intro E. inversion E as [[Emd Emh Etx]].
  assert (Hrows : currentRows now v st' = currentRows now v st).
  { unfold currentRows.
    rewrite !(filter_ext (inCurrentMonth v (getMonth now + 1) (getFullYear now))
                (fun d => String.eqb (MonthlyData.userId d) v
                          && ((MonthlyData.month d =? getMonth now + 1)
                              && (MonthlyData.year d =? getFullYear now))))
      by (intro d; unfold inCurrentMonth; now rewrite andb_assoc).
    rewrite !filter_andb. now rewrite Emd. }
  assert (Htx : forall c, currentTransactions now v c st' = currentTransactions now v c st).
  { intro c. unfold currentTransactions.
    rewrite !(filter_ext (inCategoryThisMonth v c (getMonth now + 1) (getFullYear now))
                (fun t => String.eqb (Transaction.userId t) v
                          && (Category_eqb (Transaction.category t) c
                              && (getMonth (Transaction.occurredAt t) + 1
                                  =? getMonth now + 1)
                              && (getFullYear (Transaction.occurredAt t)
                                  =? getFullYear now))))
      by (intro t; unfold inCategoryThisMonth; cbv zeta; now rewrite !andb_assoc).
    rewrite !filter_andb. now rewrite Etx. }
  split; [exact Hrows|]. split; [|split].
  - intro c. split; [apply Htx|]. unfold recomputedTotals. now rewrite Htx.
  - intro category. unfold getTransactionsByCategory, bind, this, ret. cbn [fst].
    f_equal.
    rewrite !(filter_ext
                (fun t => String.eqb (Transaction.userId t) v
                          && String.eqb (categoryName (Transaction.category t)) category
                          && (getMonth (Transaction.occurredAt t) + 1 =? getMonth now + 1)
                          && (getFullYear (Transaction.occurredAt t) =? getFullYear now))
                (fun t => String.eqb (Transaction.userId t) v
                          && (String.eqb (categoryName (Transaction.category t)) category
                              && (getMonth (Transaction.occurredAt t) + 1
                                  =? getMonth now + 1)
                              && (getFullYear (Transaction.occurredAt t)
                                  =? getFullYear now))))
      by (intro t; now rewrite !andb_assoc).
    rewrite !filter_andb. now rewrite Etx.
  - intro limit. unfold getMonthlyHistory, bind, this, ret. cbn [fst]. now rewrite Emh.
Qed.

Lemma reads_depend_on_own_records_witness :
  currentRows sampleNow "u" twoOwners = currentRows sampleNow "u" oneExpense
  /\ (forall c,
        currentTransactions sampleNow "u" c twoOwners
        = currentTransactions sampleNow "u" c oneExpense
        /\ recomputedTotals sampleNow "u" c twoOwners
           = recomputedTotals sampleNow "u" c oneExpense)
  /\ (forall category,
        fst (getTransactionsByCategory sampleNow "u" category twoOwners)
        = fst (getTransactionsByCategory sampleNow "u" category oneExpense))
  /\ (forall limit,
        fst (getMonthlyHistory "u" limit twoOwners)
        = fst (getMonthlyHistory "u" limit oneExpense)).
Proof.
  apply (reads_depend_on_own_records sampleNow "u" oneExpense twoOwners).
  vm_compute. reflexivity.
Defined.

(** ** More facts about the maps *)

Module JsMapMore.
Section WithValues.
Context {V : Type}.
Implicit Types (m : JsMap.t V) (k : string) (v : V).

Lemma get_set_same k v m : JsMap.get k (JsMap.set k v m) = Some v.
Proof.
  induction m as [|[k' v'] r IH]; cbn.
  - now rewrite String.eqb_refl.
  - destruct (String.eqb k' k) eqn:E; cbn; [now rewrite String.eqb_refl|].
    now rewrite E.
Qed.

Lemma get_set_other k k' v m : k' <> k -> JsMap.get k' (JsMap.set k v m) = JsMap.get k' m.
Proof.
  intro N. induction m as [|[k0 v0] r IH]; cbn.
  - destruct (String.eqb_spec k k'); [congruence|reflexivity].
  - destruct (String.eqb_spec k0 k) as [E|E]; cbn.
    + subst k0. destruct (String.eqb_spec k k'); [congruence|reflexivity].
    + destruct (String.eqb k0 k'); [reflexivity|exact IH].
Qed.

Lemma keys_set_present k v m old :
  JsMap.get k m = Some old -> JsMap.keys (JsMap.set k v m) = JsMap.keys m.
Proof.
  induction m as [|[k' v'] r IH]; cbn; [discriminate|].
  destruct (String.eqb_spec k' k) as [E|E]; cbn; intro G.
  - now subst k'.
  - f_equal. now apply IH.
Qed.

Lemma delete_app_fresh k v m :
  ~ In k (JsMap.keys m) -> JsMap.delete k (m ++ [(k, v)]) = m.
Proof.
  intro N. unfold JsMap.delete. rewrite filter_app. cbn.
  rewrite String.eqb_refl. cbn. rewrite app_nil_r.
  induction m as [|[k' v'] r IH]; cbn in *; [reflexivity|].
  destruct (String.eqb_spec k' k) as [E|E]; [exfalso; apply N; now left|].
  cbn. f_equal. apply IH. intro H. apply N. now right.
Qed.

Lemma get_app_fresh k v m :
  ~ In k (JsMap.keys m) -> JsMap.get k (m ++ [(k, v)]) = Some v.
Proof.
  intro N. induction m as [|[k' v'] r IH]; cbn in *.
  - now rewrite String.eqb_refl.
  - destruct (String.eqb_spec k' k) as [E|E]; [exfalso; apply N; now left|].
    apply IH. intro H. apply N. now right.
Qed.

End WithValues.
End JsMapMore.

Lemma updateMonthlyData_keeps (rng : nat -> string) now userId updateData st :
  monthlyHistory (snd (updateMonthlyData rng now userId updateData st)) = monthlyHistory st
  /\ transactions (snd (updateMonthlyData rng now userId updateData st))
     = transactions st.
Proof.
  rewrite updateMonthlyData_run.
  destruct (find _ (JsMap.values (monthlyData st))); split; reflexivity.
Qed.

Lemma recalculateMonthlyData_keeps (rng : nat -> string) now userId category st :
  monthlyHistory (snd (recalculateMonthlyData rng now userId category st))
  = monthlyHistory st
  /\ transactions (snd (recalculateMonthlyData rng now userId category st))
     = transactions st.
Proof. rewrite recalculateMonthlyData_run. cbn [snd]. apply updateMonthlyData_keeps. Qed.

(** ** A transaction created and deleted again *)

(** X4: deleting the transaction [createTransaction] has just returned puts
    the transactions back exactly as they were before the create (same
    records, same order), leaves the history as it was, and leaves the row of
    the category holding the totals recomputed from the transactions that
    were there before. *)
Theorem create_then_delete_round_trip
    (rng : nat -> string) (rng_inj : forall i j, rng i = rng j -> i = j)
    (now now' : Date) (userId : string) (transaction : InsertTransaction.t)
    (st : MemStorage) :
  reachable rng st ->
  exists t st1 st2,
    createTransaction rng now userId transaction st = (Returned t, st1)
    /\ JsMap.get (Transaction.id t) (transactions st1) = Some t
    /\ deleteTransaction rng now' userId (Transaction.id t) st1 = (Returned tt, st2)
    /\ transactions st2 = transactions st
    /\ monthlyHistory st2 = monthlyHistory st
    /\ totalsRecomputed now' userId (InsertTransaction.category transaction) st2
    /\ recomputedTotals now' userId (InsertTransaction.category transaction) st2
       = recomputedTotals now' userId (InsertTransaction.category transaction) st.
Proof.
  intro R. pose proof (reachable_wf rng rng_inj st R) as W.
  pose proof (keysOk_fresh rng rng_inj _ _ (wf_tx _ _ W)) as Fresh.
  destruct (createTransaction_spec rng rng_inj now userId transaction st W)
    as [t [st1 [Run1 [W1 [Ht [Hmh1 [Htx1 _]]]]]]].
  assert (Hid : Transaction.id t = rng (idsDrawn st)) by now rewrite Ht.
  assert (G : JsMap.get (Transaction.id t) (transactions st1) = Some t).
  { rewrite Htx1, Hid. now apply JsMapMore.get_app_fresh. }
  destruct (deleteTransaction_spec rng rng_inj now' userId (Transaction.id t) st1 t W1 G)
    as [st2 [Run2 [_ [Hmh2 [Htx2 [T _]]]]]]; [now rewrite Ht|].
  assert (E : transactions st2 = transactions st).
  { rewrite Htx2, Htx1, Hid. now apply JsMapMore.delete_app_fresh. }
  exists t, st1, st2. split; [exact Run1|]. split; [exact G|]. split; [exact Run2|].
  split; [exact E|]. split; [now rewrite Hmh2|].
  split; [|now apply recomputedTotals_frame].
  replace (InsertTransaction.category transaction) with (Transaction.category t)
    by now rewrite Ht.
  exact T.
Qed.

Lemma create_then_delete_round_trip_witness :
  exists t st1 st2,
    createTransaction sampleId sampleNow "u" sampleExpense oneExpense = (Returned t, st1)
    /\ JsMap.get (Transaction.id t) (transactions st1) = Some t
    /\ deleteTransaction sampleId sampleLater "u" (Transaction.id t) st1
       = (Returned tt, st2)
    /\ transactions st2 = transactions oneExpense
    /\ monthlyHistory st2 = monthlyHistory oneExpense
    /\ totalsRecomputed sampleLater "u" (InsertTransaction.category sampleExpense) st2
    /\ recomputedTotals sampleLater "u" (InsertTransaction.category sampleExpense) st2
       = recomputedTotals sampleLater "u" (InsertTransaction.category sampleExpense)
           oneExpense.
Proof.
  exact (create_then_delete_round_trip sampleId sampleId_inj sampleNow sampleLater "u"
           sampleExpense oneExpense oneExpense_reachable).
Defined.

(** ** What an update of a transaction cannot change *)

(** X5: a successful [updateTransaction] returns the record it stores under
    the same key; whatever the partial data says, the record keeps the id,
    the owner and the creation time of the transaction it replaces and is
    stamped with the time of the update; the transactions keep their keys in
    the same order, and every other transaction is left as it was. *)
Theorem updateTransaction_keeps_identity
    (rng : nat -> string) (now : Date) (userId id : string)
    (transaction : PartialInsertTransaction.t) (st : MemStorage)
    (existing : Transaction.t) :
  JsMap.get id (transactions st) = Some existing ->
  Transaction.userId existing = userId ->
  exists t st',
    updateTransaction rng now userId id transaction st = (Returned t, st')
    /\ Transaction.id t = Transaction.id existing
    /\ Transaction.userId t = userId
    /\ Transaction.createdAt t = Transaction.createdAt existing
    /\ Transaction.updatedAt t = now
    /\ JsMap.get id (transactions st') = Some t
    /\ JsMap.keys (transactions st') = JsMap.keys (transactions st)
    /\ (forall id', id' <> id ->
          JsMap.get id' (transactions st') = JsMap.get id' (transactions st)).
Proof.
  intros G U. rewrite updateTransaction_run, G, (proj2 (String.eqb_eq _ _) U).
  eexists. eexists. split; [reflexivity|]. cbn [snd].
  rewrite (proj2 (recalculateMonthlyData_keeps rng now userId _ _)).
  cbn [transactions].
  split; [reflexivity|]. split; [exact U|]. split; [reflexivity|]. split; [reflexivity|].
  split; [apply JsMapMore.get_set_same|].
  split; [exact (JsMapMore.keys_set_present _ _ _ _ G)|].
  intros id' N. now apply JsMapMore.get_set_other.
Qed.

Lemma updateTransaction_keeps_identity_witness :
  exists t st',
    updateTransaction sampleId sampleLater "u" "k"
      (PartialInsertTransaction.mk (Some marca_roupas) (Some gain) None (Some "75.50") None)
      oneExpense = (Returned t, st')
    /\ Transaction.id t = "k"
    /\ Transaction.userId t = "u"
    /\ Transaction.createdAt t = sampleNow
    /\ Transaction.updatedAt t = sampleLater
    /\ JsMap.get "k" (transactions st') = Some t
    /\ JsMap.keys (transactions st') = JsMap.keys (transactions oneExpense)
    /\ (forall id', id' <> "k" ->
          JsMap.get id' (transactions st') = JsMap.get id' (transactions oneExpense)).
Proof.
  exact (updateTransaction_keeps_identity sampleId sampleLater "u" "k"
           (PartialInsertTransaction.mk (Some marca_roupas) (Some gain) None
                                        (Some "75.50") None)
           oneExpense
           (Transaction.mk "k" "u" plr_nacional expense "rent" "50.00"
                           sampleNow sampleNow sampleNow)
           eq_refl eq_refl).
Defined.

(** ** One totals row per owner, category and month *)

Lemma categories_complete (l : list Category) : incl l categories.
Proof. intros c _. unfold categories. destruct c; cbn; auto. Qed.

(** X6: in every storage the operations lead to, no two totals rows share
    owner, category, month and year; so the rows of an owner's month have
    pairwise different categories and are at most three. *)
Theorem totals_rows_unique
    (rng : nat -> string) (rng_inj : forall i j, rng i = rng j -> i = j)
    (st : MemStorage) :
  reachable rng st ->
  (forall r1 r2, In r1 (JsMap.values (monthlyData st)) ->
                 In r2 (JsMap.values (monthlyData st)) ->
                 slot r1 = slot r2 -> r1 = r2)
  /\ forall now userId,
       NoDup (map MonthlyData.category (currentRows now userId st))
       /\ (List.length (currentRows now userId st) <= 3)%nat.
Proof.
  intro R. pose proof (reachable_wf rng rng_inj st R) as W. split.
  - intros r1 r2 H1 H2 E.
    apply JsMapFacts.in_values in H1, H2. destruct H1 as [k1 H1], H2 as [k2 H2].
    pose proof (wf_md_slot _ _ W _ _ _ _ H1 H2 E) as K. subst k2.
    exact (JsMapFacts.in_functional _ _ _ _ (proj1 (wf_md _ _ W)) H1 H2).
  - intros now userId.
    pose proof (currentRows_categories_nodup rng now userId st W) as ND.
    split; [exact ND|].
    rewrite <- (length_map MonthlyData.category).
    exact (NoDup_incl_length ND (categories_complete _)).
Qed.

Lemma totals_rows_unique_witness :
  (forall r1 r2, In r1 (JsMap.values (monthlyData twoOwners)) ->
                 In r2 (JsMap.values (monthlyData twoOwners)) ->
                 slot r1 = slot r2 -> r1 = r2)
  /\ forall now userId,
       NoDup (map MonthlyData.category (currentRows now userId twoOwners))
       /\ (List.length (currentRows now userId twoOwners) <= 3)%nat.
Proof.
  exact (totals_rows_unique sampleId sampleId_inj twoOwners twoOwners_reachable).
Defined.

(** ** What a close archives and what it clears *)





(** ** History records are never rewritten *)

(** X8: history records are created by [closeMonth] only and never changed.
    On every storage the operations lead to, reading the current totals,
    posting totals and creating, updating or deleting a transaction leave the
    history map exactly as it was, and after a [closeMonth] every record
    archived before is still found under its key. *)
Theorem history_is_never_rewritten
    (rng : nat -> string) (rng_inj : forall i j, rng i = rng j -> i = j)
    (now : Date) (userId : string) (st : MemStorage) :
  reachable rng st ->
  monthlyHistory (snd (getCurrentMonthData rng now userId st)) = monthlyHistory st
  /\ (forall updateData,
        monthlyHistory (snd (updateMonthlyData rng now userId updateData st))
        = monthlyHistory st)
  /\ (forall transaction,
        monthlyHistory (snd (createTransaction rng now userId transaction st))
        = monthlyHistory st)
  /\ (forall id transaction,
        monthlyHistory (snd (updateTransaction rng now userId id transaction st))
        = monthlyHistory st)
  /\ (forall id,
        monthlyHistory (snd (deleteTransaction rng now userId id st)) = monthlyHistory st)
  /\ (forall k h,
        JsMap.get k (monthlyHistory st) = Some h ->
        JsMap.get k (monthlyHistory (snd (closeMonth rng now userId st))) = Some h).
Proof.
  intro R. pose proof (reachable_wf rng rng_inj st R) as W.
  split; [|split; [|split; [|split; [|split]]]].
  - destruct (getCurrentMonthData_spec rng rng_inj now userId st W)
      as [rows [st' [Run E]]].
    rewrite Run. cbn [snd]. exact (proj1 (proj2 E)).
  - intro updateData. apply updateMonthlyData_keeps.
  - intro transaction. rewrite createTransaction_run. cbn [snd].
    now rewrite (proj1 (recalculateMonthlyData_keeps rng now userId _ _)).
  - intros id transaction. rewrite updateTransaction_run.
    destruct (JsMap.get id (transactions st)) as [existing|]; [|reflexivity].
    destruct (String.eqb (Transaction.userId existing) userId); [|reflexivity].
    cbn [snd]. now rewrite (proj1 (recalculateMonthlyData_keeps rng now userId _ _)).
  - intro id. rewrite deleteTransaction_run.
    destruct (JsMap.get id (transactions st)) as [existing|]; [|reflexivity].
    destruct (String.eqb (Transaction.userId existing) userId); [|reflexivity].
    cbn [snd]. now rewrite (proj1 (recalculateMonthlyData_keeps rng now userId _ _)).
  - intros k h G.
    destruct (closeMonth_spec rng rng_inj now userId st W)
      as [rows [st1 [st2 [_ [_ [Run [W2 [_ [Hmh _]]]]]]]]].
    rewrite Run. cbn [snd]. apply JsMapFacts.get_in; [exact (proj1 (wf_mh _ _ W2))|].
    rewrite Hmh. apply in_or_app. left. now apply JsMapFacts.get_some_in.
Qed.

Lemma history_is_never_rewritten_witness :
  monthlyHistory (snd (getCurrentMonthData sampleId sampleNow "u" fiveMonths))
  = monthlyHistory fiveMonths
  /\ (forall updateData,
        monthlyHistory (snd (updateMonthlyData sampleId sampleNow "u" updateData fiveMonths))
        = monthlyHistory fiveMonths)
  /\ (forall transaction,
        monthlyHistory (snd (createTransaction sampleId sampleNow "u" transaction fiveMonths))
        = monthlyHistory fiveMonths)
  /\ (forall id transaction,
        monthlyHistory (snd (updateTransaction sampleId sampleNow "u" id transaction
                               fiveMonths))
        = monthlyHistory fiveMonths)
  /\ (forall id,
        monthlyHistory (snd (deleteTransaction sampleId sampleNow "u" id fiveMonths))
        = monthlyHistory fiveMonths)
  /\ (forall k h,
        JsMap.get k (monthlyHistory fiveMonths) = Some h ->
        JsMap.get k (monthlyHistory (snd (closeMonth sampleId sampleNow "u" fiveMonths)))
        = Some h).
Proof.
  apply (history_is_never_rewritten sampleId sampleId_inj sampleNow "u" fiveMonths).
  unfold fiveMonths. cbn [fold_left]. repeat apply reach_closeMonth. apply reach_new.
Defined.

(** ** A transaction dated in another month *)

(** X9: a transaction created with an [occurredAt] outside the current month
    is stored, but it is not among the transactions summed for any category
    of the current month, the row of its category holds the totals of the
    transactions that were there before, and [getTransactionsByCategory] does
    not list it. *)
Theorem transaction_of_another_month_is_not_counted
    (rng : nat -> string) (rng_inj : forall i j, rng i = rng j -> i = j)
    (now d : Date) (userId : string) (transaction : InsertTransaction.t)
    (st : MemStorage) :
  reachable rng st ->
  InsertTransaction.occurredAt transaction = Some d ->
  getMonth d <> getMonth now \/ getFullYear d <> getFullYear now ->
  exists t st',
    createTransaction rng now userId transaction st = (Returned t, st')
    /\ JsMap.get (Transaction.id t) (transactions st') = Some t
    /\ (forall category,
          currentTransactions now userId category st'
          = currentTransactions now userId category st)
    /\ totalsRecomputed now userId (InsertTransaction.category transaction) st'
    /\ recomputedTotals now userId (InsertTransaction.category transaction) st'
       = recomputedTotals now userId (InsertTransaction.category transaction) st
    /\ (forall category l,
          getTransactionsByCategory now userId category st' = (Returned l, st') ->
          ~ In t l).
Proof.
  intros R Hd Hout. pose proof (reachable_wf rng rng_inj st R) as W.
  pose proof (keysOk_fresh rng rng_inj _ _ (wf_tx _ _ W)) as Fresh.
  destruct (createTransaction_spec rng rng_inj now userId transaction st W)
    as [t [st' [Run [_ [Ht [_ [Htx [T _]]]]]]]].
  rewrite Hd in Ht.
  assert (Hdate : Transaction.occurredAt t = d) by now rewrite Ht.
  assert (Hmiss : (getMonth (Transaction.occurredAt t) + 1 =? getMonth now + 1)
                  && (getFullYear (Transaction.occurredAt t) =? getFullYear now)
                  = false).
  { rewrite Hdate. apply andb_false_iff.
    destruct Hout as [N|N]; [left|right]; apply Z.eqb_neq; lia. }
  assert (Hsame : forall category,
             currentTransactions now userId category st'
             = currentTransactions now userId category st).
  { intro category. unfold currentTransactions.
    rewrite Htx, JsMapFrame.filter_values_app. cbn [JsMap.values map snd filter].
    replace (inCategoryThisMonth userId category (getMonth now + 1) (getFullYear now) t)
      with false; [apply app_nil_r|].
    unfold inCategoryThisMonth. cbv zeta. rewrite <- andb_assoc, Hmiss.
    now rewrite andb_false_r. }
  exists t, st'. split; [exact Run|].
  split; [rewrite Htx; replace (Transaction.id t) with (rng (idsDrawn st))
            by (now rewrite Ht); now apply JsMapMore.get_app_fresh|].
  split; [exact Hsame|]. split; [exact T|].
  split; [unfold recomputedTotals; now rewrite Hsame|].
  intros category l Hl Hin. unfold getTransactionsByCategory, bind, this, ret in Hl.
  inversion Hl as [Hl']. rewrite <- Hl' in Hin.
  apply JsArrayFacts.sort_in, filter_In in Hin. destruct Hin as [_ P].
  cbv zeta in P. rewrite <- andb_assoc, Hmiss, andb_false_r in P. discriminate.
Qed.

Lemma transaction_of_another_month_is_not_counted_witness :
  exists t st',
    createTransaction sampleId sampleNow "u"
      (InsertTransaction.mk plr_nacional expense "old bill" "30.00"
                            (Some (mkDate 2026 9 1792022400000)))
      oneExpense = (Returned t, st')
    /\ JsMap.get (Transaction.id t) (transactions st') = Some t
    /\ (forall category,
          currentTransactions sampleNow "u" category st'
          = currentTransactions sampleNow "u" category oneExpense)
    /\ totalsRecomputed sampleNow "u" plr_nacional st'
    /\ recomputedTotals sampleNow "u" plr_nacional st'
       = recomputedTotals sampleNow "u" plr_nacional oneExpense
    /\ (forall category l,
          getTransactionsByCategory sampleNow "u" category st' = (Returned l, st') ->
          ~ In t l).
Proof.
  apply (transaction_of_another_month_is_not_counted sampleId sampleId_inj sampleNow
           (mkDate 2026 9 1792022400000) "u"
           (InsertTransaction.mk plr_nacional expense "old bill" "30.00"
                                 (Some (mkDate 2026 9 1792022400000)))
           oneExpense oneExpense_reachable eq_refl).
  left. cbn. lia.
Defined.

(** ** Users *)

Lemma find_values_app {V : Type} (p : V -> bool) (m1 m2 : JsMap.t V) :
  find p (JsMap.values (m1 ++ m2))
  = match find p (JsMap.values m1) with
    | Some v => Some v
    | None => find p (JsMap.values m2)
    end.
Proof.
  induction m1 as [|[k v] r IH]; cbn; [reflexivity|].
  destruct (p v); [reflexivity|exact IH].
Qed.

Lemma find_values_set_first {V : Type} (p : V -> bool) (k : string) (v : V)
    (m : JsMap.t V) :
  find p (JsMap.values m) = None ->
  p v = true ->
  find p (JsMap.values (JsMap.set k v m)) = Some v.
Proof.
  intros N Hv. induction m as [|[k' v'] r IH]; cbn in *.
  - now rewrite Hv.
  - destruct (p v') eqn:E; [discriminate|].
    destruct (String.eqb k' k); cbn; [now rewrite Hv|].
    rewrite E. now apply IH.
Qed.

(** X10: [createUser] draws one id and changes nothing else of the ledger;
    the optional fields of the user it returns are never the empty text; the
    user is found under its id.  When the id drawn is not yet a key of the
    users, the user is appended, every user found before under an id or a
    username is still found, and [getUserByUsername] finds the new user
    exactly when the username was not taken: with a taken username the
    earlier user keeps being the one found. *)
Theorem createUser_stores_the_user
    (rng : nat -> string) (now : Date) (userData : InsertUser.t) (s : FullStorage) :
  ~ In (rng (idsDrawn (ledger s))) (JsMap.keys (users s)) ->
  exists user s',
    createUser rng now userData s = (user, s')
    /\ ledger s' = snd (generateId rng (ledger s))
    /\ User.id user = rng (idsDrawn (ledger s))
    /\ (User.email user <> Some "" /\ User.firstName user <> Some ""
        /\ User.lastName user <> Some "" /\ User.profileImageUrl user <> Some "")
    /\ getUser (User.id user) s' = Some user
    /\ users s' = users s ++ [(User.id user, user)]
    /\ (forall id found, getUser id s = Some found -> getUser id s' = Some found)
    /\ (forall username,
          getUserByUsername username s'
          = match getUserByUsername username s with
            | Some found => Some found
            | None => if String.eqb (InsertUser.username userData) username
                      then Some user else None
            end).
Proof.
  intro Fresh. unfold createUser, drawId. cbn [ledger users User.id].
  eexists. eexists. split; [reflexivity|]. cbn [ledger users User.id].
  split; [reflexivity|]. split; [reflexivity|].
  assert (Hnull : forall o, orNull o <> Some "").
  { intros [v|]; cbn; [|discriminate].
    destruct (String.eqb_spec v ""); [discriminate|congruence]. }
  split; [cbn; repeat split; apply Hnull|].
  split; [unfold getUser; cbn [users]; apply JsMapMore.get_set_same|].
  split; [exact (JsMapFacts.set_fresh _ _ _ Fresh)|]. split.
  - unfold getUser. cbn [users]. intros id found G.
    rewrite JsMapMore.get_set_other.
    + exact G.
    + intro E. subst id. apply Fresh.
      exact (JsMapFacts.in_keys _ _ _ (JsMapFacts.get_some_in _ _ _ G)).
  - intro username. unfold getUserByUsername. cbn [users].
    rewrite (JsMapFacts.set_fresh _ _ _ Fresh), find_values_app.
    destruct (find _ (JsMap.values (users s))); [reflexivity|]. cbn.
    destruct (String.eqb (InsertUser.username userData) username); reflexivity.
Qed.

Lemma createUser_stores_the_user_witness :
  exists user s',
    createUser sampleId sampleLater
      (InsertUser.mk "uid-1" "secret" (Some "") None None None) loggedIn = (user, s')
    /\ ledger s' = snd (generateId sampleId (ledger loggedIn))
    /\ User.id user = sampleId (idsDrawn (ledger loggedIn))
    /\ (User.email user <> Some "" /\ User.firstName user <> Some ""
        /\ User.lastName user <> Some "" /\ User.profileImageUrl user <> Some "")
    /\ getUser (User.id user) s' = Some user
    /\ users s' = users loggedIn ++ [(User.id user, user)]
    /\ (forall id found, getUser id loggedIn = Some found -> getUser id s' = Some found)
    /\ (forall username,
          getUserByUsername username s'
          = match getUserByUsername username loggedIn with
            | Some found => Some found
            | None => if String.eqb "uid-1" username then Some user else None
            end).
Proof.
  apply (createUser_stores_the_user sampleId sampleLater
           (InsertUser.mk "uid-1" "secret" (Some "") None None None) loggedIn).
  cbn. intros [H|[]]. discriminate.
Defined.

(** X11: [upsertUser] with the id of a stored user replaces that user in
    place: no id is drawn, the keys of the users and their order stay, the
    other users stay, and the new record keeps the creation time of the one
    it replaces while its update time is the time of the call. *)
Theorem upsertUser_replaces_in_place
    (rng : nat -> string) (now : Date) (userData : UpsertUser.t) (s : FullStorage)
    (id : string) (old : User.t) (created : Date) :
  UpsertUser.id userData = Some id ->
  id <> "" ->
  getUser id s = Some old ->
  User.createdAt old = Some created ->
  exists user s',
    upsertUser rng now userData s = (user, s')
    /\ User.id user = id
    /\ User.createdAt user = Some created
    /\ User.updatedAt user = Some now
    /\ ledger s' = ledger s
    /\ JsMap.keys (users s') = JsMap.keys (users s)
    /\ getUser id s' = Some user
    /\ (forall id', id' <> id -> getUser id' s' = getUser id' s).
Proof.
  intros Hid Hne G Hc. unfold upsertUser, getUser in *. rewrite Hid.
  cbn [orNull]. destruct (String.eqb_spec id "") as [E|_]; [contradiction|].
  rewrite G. eexists. eexists. split; [reflexivity|]. cbn [User.id User.createdAt
    User.updatedAt ledger users].
  split; [reflexivity|]. split; [destruct old; cbn in Hc; now rewrite Hc|].
  split; [reflexivity|]. split; [reflexivity|].
  split; [exact (JsMapMore.keys_set_present _ _ _ _ G)|].
  split; [apply JsMapMore.get_set_same|].
  intros id' N. now apply JsMapMore.get_set_other.
Qed.

Lemma upsertUser_replaces_in_place_witness :
  exists user s',
    upsertUser sampleId sampleLater
      (UpsertUser.mk (Some "k") "uid-1" "changed" None (Some "Ana") None None) loggedIn
    = (user, s')
    /\ User.id user = "k"
    /\ User.createdAt user = Some sampleNow
    /\ User.updatedAt user = Some sampleLater
    /\ ledger s' = ledger loggedIn
    /\ JsMap.keys (users s') = JsMap.keys (users loggedIn)
    /\ getUser "k" s' = Some user
    /\ (forall id', id' <> "k" -> getUser id' s' = getUser id' loggedIn).
Proof.
  apply (upsertUser_replaces_in_place sampleId sampleLater
           (UpsertUser.mk (Some "k") "uid-1" "changed" None (Some "Ana") None None)
           loggedIn "k"
           (User.mk "k" "uid-1" "firebase-auth" (Some "ana@example.com") (Some "Ana")
                    (Some "Maria Silva") None (Some sampleNow) (Some sampleNow))
           sampleNow eq_refl).
  - discriminate.
  - reflexivity.
  - reflexivity.
Defined.

(** ** Logging in *)

(** X12: logging in twice with the same token is the same as logging in
    once.  The second login, whenever it happens, returns the user the first
    one returned and leaves the instance as the first one left it; that user
    carries the token's [uid] as username. *)
Theorem firebaseLogin_twice
    (rng : nat -> string) (now now' : Date) (decodedToken : DecodedIdToken)
    (s : FullStorage) :
  firebaseLogin rng now' decodedToken (snd (firebaseLogin rng now decodedToken s))
  = firebaseLogin rng now decodedToken s
  /\ User.username (fst (firebaseLogin rng now decodedToken s)) = uid decodedToken.
Proof.
  unfold firebaseLogin at 2 3 4.
  destruct (getUserByUsername (uid decodedToken) s) as [user|] eqn:G.
  - cbn [fst snd]. unfold firebaseLogin. rewrite G. split; [reflexivity|].
    unfold getUserByUsername in G. apply find_some in G.
    now apply String.eqb_eq.
  - unfold createUser, drawId. cbn [fst snd ledger users User.id User.username].
    split; [|reflexivity].
    unfold firebaseLogin, getUserByUsername. cbn [users].
    unfold getUserByUsername in G.
    rewrite (find_values_set_first _ _ _ _ G); [reflexivity|].
    cbn. apply String.eqb_refl.
Qed.

(** ** The name a login stores *)

Lemma joinSpace_cons (x : string) (l : list string) :
  l <> [] -> JsString.joinSpace (x :: l) = (x ++ " " ++ JsString.joinSpace l)%string.
Proof. destruct l; [congruence|reflexivity]. Qed.

Lemma splitSpace_nonempty (s : string) : JsString.splitSpace s <> [].
Proof.
  induction s as [|c r IH]; cbn; [discriminate|].
  destruct (Ascii.eqb c " "); [discriminate|].
  destruct (JsString.splitSpace r); discriminate.
Qed.

Lemma joinSpace_splitSpace (s : string) : JsString.joinSpace (JsString.splitSpace s) = s.
Proof.
  induction s as [|c r IH]; [reflexivity|]. cbn [JsString.splitSpace].
  destruct (Ascii.eqb_spec c " ") as [E|E].
  - subst c. rewrite joinSpace_cons by apply splitSpace_nonempty. now rewrite IH.
  - destruct (JsString.splitSpace r) as [|first rest] eqn:S.
    + now apply splitSpace_nonempty in S.
    + destruct rest as [|x rest].
      * cbn in *. now rewrite IH.
      * rewrite joinSpace_cons in * by discriminate. cbn. now rewrite <- IH.
Qed.

Lemma splitSpace_first (s : string) :
  ~ In " "%char (list_ascii_of_string (hd ""%string (JsString.splitSpace s))).
Proof.
  induction s as [|c r IH]; cbn [JsString.splitSpace]; [cbn; tauto|].
  destruct (Ascii.eqb_spec c " ") as [E|E]; [cbn; tauto|].
  destruct (JsString.splitSpace r) as [|first rest]; cbn in *.
  - intros [H|[]]. congruence.
  - intros [H|H]; [congruence|contradiction].
Qed.

Lemma splitSpace_one (s : string) :
  tl (JsString.splitSpace s) = [] <-> ~ In " "%char (list_ascii_of_string s).
Proof.
  induction s as [|c r IH]; cbn [JsString.splitSpace]; [cbn; tauto|].
  destruct (Ascii.eqb_spec c " ") as [E|E].
  - subst c. cbn. split; [intro H; now apply splitSpace_nonempty in H|].
    intro H. exfalso. apply H. now left.
  - destruct (JsString.splitSpace r) as [|first rest] eqn:S.
    + now apply splitSpace_nonempty in S.
    + cbn in *. rewrite IH. intuition congruence.
Qed.

Lemma textOf_orNull (x : string) : textOf (orNull (Some x)) = x.
Proof. cbn. destruct (String.eqb_spec x ""); cbn; congruence. Qed.

(** X13: the name a first login stores.  The text split is the token's
    [name], else its [email], else the empty text.  The first name stored
    never contains a space.  When the text has no space it is the first name
    and there is no last name; when it has one, the text is the first name,
    a space and the last name again (an absent name standing for the empty
    text). *)
Theorem firebaseLogin_splits_the_name
    (rng : nat -> string) (now : Date) (decodedToken : DecodedIdToken)
    (s : FullStorage) :
  getUserByUsername (uid decodedToken) s = None ->
  let display :=
    textOf (orElse (name decodedToken) (orElse (email decodedToken) (Some ""))) in
  let user := fst (firebaseLogin rng now decodedToken s) in
  ~ In " "%char (list_ascii_of_string (textOf (User.firstName user)))
  /\ (~ In " "%char (list_ascii_of_string display) ->
      textOf (User.firstName user) = display /\ User.lastName user = None)
  /\ (In " "%char (list_ascii_of_string display) ->
      display
      = (textOf (User.firstName user) ++ " " ++ textOf (User.lastName user))%string).
Proof.
  intros G display user. subst user. unfold firebaseLogin. rewrite G.
  unfold createUser, drawId. cbn [fst User.firstName User.lastName InsertUser.firstName
    InsertUser.lastName].
  fold (textOf (orElse (name decodedToken) (orElse (email decodedToken) (Some "")))).
  fold display.
  assert (Hidem : forall o, orNull (orNull o) = orNull o).
  { intros [v|]; cbn; [|reflexivity]. destruct (String.eqb_spec v "") as [E|E]; cbn;
      [reflexivity|]. now destruct (String.eqb_spec v ""). }
  rewrite !Hidem, !textOf_orNull.
  pose proof (joinSpace_splitSpace display) as J.
  pose proof (splitSpace_first display) as F.
  pose proof (splitSpace_one display) as O.
  destruct (JsString.splitSpace display) as [|first rest] eqn:S;
    [now apply splitSpace_nonempty in S|].
  cbn [hd tl] in *. split; [exact F|]. split.
  - intro N. apply O in N. subst rest. cbn in J. split; [exact J|reflexivity].
  - intro Y. destruct rest as [|x rest]; [exfalso; now apply (proj1 O)|].
    rewrite joinSpace_cons in J by discriminate.
    now symmetry.
Qed.

Lemma firebaseLogin_splits_the_name_witness :
  let display := textOf (orElse (name sampleToken) (orElse (email sampleToken) (Some ""))) in
  let user := fst (firebaseLogin sampleId sampleNow sampleToken newStorage) in
  ~ In " "%char (list_ascii_of_string (textOf (User.firstName user)))
  /\ (~ In " "%char (list_ascii_of_string display) ->
      textOf (User.firstName user) = display /\ User.lastName user = None)
  /\ (In " "%char (list_ascii_of_string display) ->
      display
      = (textOf (User.firstName user) ++ " " ++ textOf (User.lastName user))%string).
Proof.
  exact (firebaseLogin_splits_the_name sampleId sampleNow sampleToken newStorage eq_refl).
Defined.

(** ** The instance behind the routes *)

Section Served.

Variable rng : nat -> string.
Hypothesis rng_inj : forall i j, rng i = rng j -> i = j.

Lemma generateId_wf st : wf rng st -> wf rng (snd (generateId rng st)).
Proof.
  intros [Wmd Wid Wslot Wmh Wtx].
  constructor; cbn [generateId snd monthlyData monthlyHistory transactions idsDrawn];
    trivial; apply (keysOk_mono rng (idsDrawn st)); trivial; lia.
Qed.

Lemma getCurrentMonthData_wf now userId st :
  wf rng st -> wf rng (snd (getCurrentMonthData rng now userId st)).
Proof.
  intro W. destruct (getCurrentMonthData_spec rng rng_inj now userId st W)
    as [rows [st' [Run E]]].
  rewrite Run. exact (proj1 E).
Qed.

Lemma updateMonthlyData_wf now userId updateData st :
  wf rng st -> wf rng (snd (updateMonthlyData rng now userId updateData st)).
Proof.
  intro W. destruct (updateMonthlyData_spec rng rng_inj now userId updateData st W)
    as [r [st' [Run [W' _]]]].
  now rewrite Run.
Qed.

Lemma closeMonth_wf now userId st :
  wf rng st -> wf rng (snd (closeMonth rng now userId st)).
Proof.
  intro W. destruct (closeMonth_spec rng rng_inj now userId st W)
    as [rows [st1 [st2 [_ [_ [Run [W2 _]]]]]]].
  now rewrite Run.
Qed.

Lemma createTransaction_wf now userId transaction st :
  wf rng st -> wf rng (snd (createTransaction rng now userId transaction st)).
Proof.
  intro W. destruct (createTransaction_spec rng rng_inj now userId transaction st W)
    as [t [st' [Run [W' _]]]].
  now rewrite Run.
Qed.

(** [updateTransaction] either throws ["Transaction not found"] and leaves
    the storage as it was, or returns a transaction of the caller. *)
Lemma updateTransaction_outcome now userId id transaction st :
  wf rng st ->
  (updateTransaction rng now userId id transaction st
   = (Thrown "Transaction not found", st))
  \/ (exists t st',
        updateTransaction rng now userId id transaction st = (Returned t, st')
        /\ wf rng st' /\ Transaction.userId t = userId).
Proof.
  intro W. destruct (JsMap.get id (transactions st)) as [existing|] eqn:G.
  - destruct (String.eqb_spec (Transaction.userId existing) userId) as [U|U].
    + right. destruct (updateTransaction_spec rng rng_inj now userId id transaction st
                         existing W G U) as [st' [Run [W' _]]].
      eexists. exists st'. split; [exact Run|]. split; [exact W'|exact U].
    + left. rewrite updateTransaction_run, G.
      now rewrite (proj2 (String.eqb_neq _ _) U).
  - left. now rewrite updateTransaction_run, G.
Qed.

Lemma deleteTransaction_outcome now userId id st :
  wf rng st ->
  (deleteTransaction rng now userId id st = (Thrown "Transaction not found", st))
  \/ (exists st', deleteTransaction rng now userId id st = (Returned tt, st')
                  /\ wf rng st').
Proof.
  intro W. destruct (JsMap.get id (transactions st)) as [existing|] eqn:G.
  - destruct (String.eqb_spec (Transaction.userId existing) userId) as [U|U].
    + right. destruct (deleteTransaction_spec rng rng_inj now userId id st
                         existing W G U) as [st' [Run [W' _]]].
      exists st'. now split.
    + left. rewrite deleteTransaction_run, G.
      now rewrite (proj2 (String.eqb_neq _ _) U).
  - left. now rewrite deleteTransaction_run, G.
Qed.

Lemma usersById_set (s : FullStorage) (l : MemStorage) (user : User.t) :
  usersById s -> usersById (mkFull l (JsMap.set (User.id user) user (users s))).
Proof.
  intros H k found. cbn [users].
  destruct (String.eqb_spec k (User.id user)) as [E|E].
  - subst k. rewrite JsMapMore.get_set_same. congruence.
  - rewrite JsMapMore.get_set_other by exact E. apply H.
Qed.

Lemma createUser_inv now userData s :
  wf rng (ledger s) /\ usersById s ->
  wf rng (ledger (snd (createUser rng now userData s)))
  /\ usersById (snd (createUser rng now userData s)).
Proof.
  intros [W U]. unfold createUser, drawId. cbn [snd ledger users]. split.
  - now apply generateId_wf.
  - exact (usersById_set s _ _ U).
Qed.

Lemma upsertUser_inv now userData s :
  wf rng (ledger s) /\ usersById s ->
  wf rng (ledger (snd (upsertUser rng now userData s)))
  /\ usersById (snd (upsertUser rng now userData s)).
Proof.
  intros [W U]. unfold upsertUser, drawId.
  destruct (orNull (UpsertUser.id userData)) as [id|]; cbn [snd ledger users]; split;
    trivial; try exact (usersById_set s _ _ U).
  now apply generateId_wf.
Qed.

Lemma firebaseLogin_inv now decodedToken s :
  wf rng (ledger s) /\ usersById s ->
  wf rng (ledger (snd (firebaseLogin rng now decodedToken s)))
  /\ usersById (snd (firebaseLogin rng now decodedToken s)).
Proof.
  intro H. unfold firebaseLogin.
  destruct (getUserByUsername (uid decodedToken) s); [exact H|].
  now apply createUser_inv.
Qed.

Lemma answer_ledger {A : Type} (s : FullStorage) (run : Outcome A * MemStorage)
    (payload : A -> Body) (caught : string -> Response) :
  snd (answer s run payload caught) = mkFull (snd run) (users s).
Proof. destruct run as [[a|message] l]; reflexivity. Qed.

Lemma same_instance (s : FullStorage) : mkFull (ledger s) (users s) = s.
Proof. now destruct s. Qed.

(** What a request does to the instance: nothing, or one storage operation
    on the ledger for the user of the session. *)
Lemma handle_ledger now req s :
  snd (handle rng now req s) = s
  \/ exists user,
       isAuthenticated req s = Some user
       /\ exists l,
            snd (handle rng now req s) = mkFull l (users s)
            /\ (l = snd (getCurrentMonthData rng now (User.id user) (ledger s))
                \/ (exists data,
                      l = snd (updateMonthlyData rng now (User.id user) data (ledger s)))
                \/ l = snd (closeMonth rng now (User.id user) (ledger s))
                \/ (exists data,
                      l = snd (createTransaction rng now (User.id user) data (ledger s)))
                \/ (exists id data,
                      l = snd (updateTransaction rng now (User.id user) id data
                                 (ledger s)))
                \/ (exists id,
                      l = snd (deleteTransaction rng now (User.id user) id (ledger s)))).
Proof.
  unfold handle. destruct (isAuthenticated req s) as [user|]; [|now left].
  destruct (route req) as [|[data|]| |limit|category|[data|]|id [data|]|id];
    try (now left).
  - right. exists user. split; [reflexivity|]. eexists. rewrite answer_ledger.
    split; [reflexivity|]. now left.
  - right. exists user. split; [reflexivity|]. eexists. rewrite answer_ledger.
    split; [reflexivity|]. right. left. now exists data.
  - right. exists user. split; [reflexivity|]. eexists. rewrite answer_ledger.
    split; [reflexivity|]. right. right. now left.
  - left. rewrite answer_ledger. cbn [snd]. apply same_instance.
  - destruct (orNull category); [|now left].
    left. rewrite answer_ledger. cbn [snd]. apply same_instance.
  - right. exists user. split; [reflexivity|]. eexists. rewrite answer_ledger.
    split; [reflexivity|]. right. right. right. left. now exists data.
  - right. exists user. split; [reflexivity|]. eexists. rewrite answer_ledger.
    split; [reflexivity|]. right. right. right. right. left. now exists id, data.
  - right. exists user. split; [reflexivity|]. eexists. rewrite answer_ledger.
    split; [reflexivity|]. right. right. right. right. right. now exists id.
Qed.

Lemma updateTransaction_wf now userId id transaction st :
  wf rng st -> wf rng (snd (updateTransaction rng now userId id transaction st)).
Proof.
  intro W. destruct (updateTransaction_outcome now userId id transaction st W)
    as [E|[t [st' [E [W' _]]]]]; now rewrite E.
Qed.

Lemma deleteTransaction_wf now userId id st :
  wf rng st -> wf rng (snd (deleteTransaction rng now userId id st)).
Proof.
  intro W. destruct (deleteTransaction_outcome now userId id st W)
    as [E|[st' [E W']]]; now rewrite E.
Qed.

Lemma handle_inv now req s :
  wf rng (ledger s) /\ usersById s ->
  wf rng (ledger (snd (handle rng now req s))) /\ usersById (snd (handle rng now req s)).
Proof.
  intros [W U].
  destruct (handle_ledger now req s) as [E|[user [_ [l [E H]]]]]; rewrite E;
    [now split|].
  cbn [ledger users]. split; [|exact U].
  destruct H as [->|[[data ->]|[->|[[data ->]|[[id [data ->]]|[id ->]]]]]].
  - now apply getCurrentMonthData_wf.
  - now apply updateMonthlyData_wf.
  - now apply closeMonth_wf.
  - now apply createTransaction_wf.
  - now apply updateTransaction_wf.
  - now apply deleteTransaction_wf.
Qed.

Lemma served_inv s : served rng s -> wf rng (ledger s) /\ usersById s.
Proof.
  induction 1 as [|now userData s _ IH|now userData s _ IH|now decodedToken s _ IH
                  |now req s _ IH].
  - split; [|intros k user G; discriminate].
    repeat constructor; cbn; intros; contradiction.
  - now apply createUser_inv.
  - now apply upsertUser_inv.
  - now apply firebaseLogin_inv.
  - now apply handle_inv.
Qed.

Lemma isAuthenticated_id req s user :
  usersById s -> isAuthenticated req s = Some user ->
  sessionUserId req = Some (User.id user).
Proof.
  intros U A. unfold isAuthenticated, getUser in A.
  destruct (sessionUserId req) as [v|]; cbn in A; [|discriminate].
  destruct (String.eqb_spec v ""); [discriminate|].
  now rewrite (U _ _ A).
Qed.

End Served.

(** ** The answers of the routes *)

Ltac settle_answer :=
  cbn [answer notFoundOr fst snd status users String.eqb Ascii.eqb Bool.eqb];
  repeat split;
  try (intro; discriminate);
  try (intro; exfalso; congruence);
  try reflexivity;
  try (intros _; apply same_instance);
  try (cbn; tauto).

(** X14: on every instance the logins and requests lead to, a request to the
    ledger routes is answered with 200, 400, 401 or 404 (no storage operation
    fails otherwise, so never with 500); it is answered with 401 exactly when
    the session names no stored user; an answer other than 200 leaves the
    whole instance as it was; and no request changes the users. *)
Theorem rejected_requests_change_nothing
    (rng : nat -> string) (rng_inj : forall i j, rng i = rng j -> i = j)
    (now : Date) (req : Request) (s : FullStorage) :
  served rng s ->
  In (status (fst (handle rng now req s))) [200; 400; 401; 404]
  /\ (status (fst (handle rng now req s)) <> 200 -> snd (handle rng now req s) = s)
  /\ (status (fst (handle rng now req s)) = 401 <-> isAuthenticated req s = None)
  /\ users (snd (handle rng now req s)) = users s.
Proof.
  intro S. destruct (served_inv rng rng_inj s S) as [W _].
  unfold handle. destruct (isAuthenticated req s) as [user|]; [|settle_answer].
  destruct (route req) as [|[data|]| |limit|category|[data|]|id [data|]|id].
  - destruct (getCurrentMonthData_spec rng rng_inj now (User.id user) (ledger s) W)
      as [rows [st' [Run _]]].
    rewrite Run. settle_answer.
  - destruct (updateMonthlyData_spec rng rng_inj now (User.id user) data (ledger s) W)
      as [r [st' [Run _]]].
    rewrite Run. settle_answer.
  - settle_answer.
  - destruct (closeMonth_spec rng rng_inj now (User.id user) (ledger s) W)
      as [rows [st1 [st2 [_ [_ [Run _]]]]]].
    rewrite Run. settle_answer.
  - settle_answer.
  - destruct (orNull category); settle_answer.
  - destruct (createTransaction_spec rng rng_inj now (User.id user) data (ledger s) W)
      as [t [st' [Run _]]].
    rewrite Run. settle_answer.
  - settle_answer.
  - destruct (updateTransaction_outcome rng rng_inj now (User.id user) id data
                (ledger s) W) as [E|[t [st' [E _]]]]; rewrite E; settle_answer.
  - settle_answer.
  - destruct (deleteTransaction_outcome rng rng_inj now (User.id user) id (ledger s) W)
      as [E|[st' [E _]]]; rewrite E; settle_answer.
Qed.

Lemma loggedIn_served : served sampleId loggedIn.
Proof. apply served_firebaseLogin, served_new. Qed.

Lemma rejected_requests_change_nothing_witness :
  let req := mkRequest (Some "k") (DeleteTransaction "missing") in
  In (status (fst (handle sampleId sampleNow req loggedIn))) [200; 400; 401; 404]
  /\ (status (fst (handle sampleId sampleNow req loggedIn)) <> 200 ->
      snd (handle sampleId sampleNow req loggedIn) = loggedIn)
  /\ (status (fst (handle sampleId sampleNow req loggedIn)) = 401
      <-> isAuthenticated req loggedIn = None)
  /\ users (snd (handle sampleId sampleNow req loggedIn)) = users loggedIn.
Proof.
  exact (rejected_requests_change_nothing sampleId sampleId_inj sampleNow
           (mkRequest (Some "k") (DeleteTransaction "missing")) loggedIn loggedIn_served).
Defined.

(** X15: a PATCH with a valid body or a DELETE on an id under which the
    session's user has no transaction (there is none, or it belongs to
    someone else) is answered with 404 and the message
    ["Transaction not found"], and the instance stays as it was. *)
Theorem foreign_transaction_answers_404
    (rng : nat -> string) (now : Date) (req : Request) (s : FullStorage)
    (user : User.t) (id : string) :
  isAuthenticated req s = Some user ->
  route req = DeleteTransaction id
  \/ (exists data, route req = PatchTransaction id (Some data)) ->
  (forall t, JsMap.get id (transactions (ledger s)) = Some t ->
             Transaction.userId t <> User.id user) ->
  handle rng now req s = (mkResponse 404 (Message "Transaction not found"), s).
Proof.
  intros A Hroute Hforeign. unfold handle. rewrite A.
  assert (Hup : forall data,
            updateTransaction rng now (User.id user) id data (ledger s)
            = (Thrown "Transaction not found", ledger s)).
  { intro data. rewrite updateTransaction_run.
    destruct (JsMap.get id (transactions (ledger s))) as [t|]; [|reflexivity].
    now rewrite (proj2 (String.eqb_neq _ _) (Hforeign t eq_refl)). }
  assert (Hdel : deleteTransaction rng now (User.id user) id (ledger s)
                 = (Thrown "Transaction not found", ledger s)).
  { rewrite deleteTransaction_run.
    destruct (JsMap.get id (transactions (ledger s))) as [t|]; [|reflexivity].
    now rewrite (proj2 (String.eqb_neq _ _) (Hforeign t eq_refl)). }
  destruct Hroute as [->|[data ->]]; [rewrite Hdel|rewrite Hup];
    cbn; now rewrite same_instance.
Qed.

Lemma foreign_transaction_answers_404_witness :
  handle sampleId sampleLater (mkRequest (Some "xk") (DeleteTransaction "xxk")) twoUsers
  = (mkResponse 404 (Message "Transaction not found"), twoUsers).
Proof.
  apply (foreign_transaction_answers_404 sampleId sampleLater
           (mkRequest (Some "xk") (DeleteTransaction "xxk")) twoUsers
           (User.mk "xk" "uid-2" "firebase-auth" None None None None
                    (Some sampleNow) (Some sampleNow))
           "xxk" eq_refl (or_introl eq_refl)).
  intros t G. vm_compute in G. inversion G. discriminate.
Defined.

Lemma in_firstn {A : Type} (n : nat) (l : list A) (x : A) :
  In x (firstn n l) -> In x l.
Proof.
  revert l. induction n as [|n IH]; intros [|a l]; cbn; try tauto.
  intros [H|H]; [now left|right; now apply IH].
Qed.

Lemma owners_of_map {A : Type} (owner : A -> string) (u : string) (l : list A) :
  (forall x, In x l -> owner x = u) -> Forall (eq u) (map owner l).
Proof.
  intro H. apply Forall_forall. intros o Ho. apply in_map_iff in Ho.
  destruct Ho as [x [E Hx]]. subst o. symmetry. now apply H.
Qed.

(** X16: the ledger routes serve the user of the session and nobody else.
    On every instance the logins and requests lead to, a request whose
    session names a stored user is handled for that user's id: every totals
    row, archived month and transaction in the answer belongs to that user,
    and the totals rows, archived months and transactions of every other
    owner are exactly what they were. *)
Theorem requests_serve_the_session_user_only
    (rng : nat -> string) (rng_inj : forall i j, rng i = rng j -> i = j)
    (now : Date) (req : Request) (s : FullStorage) (user : User.t) :
  served rng s ->
  isAuthenticated req s = Some user ->
  sessionUserId req = Some (User.id user)
  /\ Forall (eq (User.id user)) (bodyOwners (body (fst (handle rng now req s))))
  /\ forall v, v <> User.id user ->
               ownerView v (ledger (snd (handle rng now req s))) = ownerView v (ledger s).
Proof.
  intros S A. destruct (served_inv rng rng_inj s S) as [W U].
  split; [exact (isAuthenticated_id req s user U A)|]. split.
  - unfold handle. rewrite A.
    destruct (route req) as [|[data|]| |limit|category|[data|]|id [data|]|id];
      try (cbn; constructor).
    + destruct (getCurrentMonthData_spec rng rng_inj now (User.id user) (ledger s) W)
        as [rows [st' [Run E]]].
      rewrite Run. cbn [answer fst body bodyOwners].
      apply owners_of_map. intros r Hr.
      destruct E as [_ [_ [_ [_ [_ [Hrows _]]]]]]. cbn [fst snd] in Hrows.
      destruct (Hrows r Hr) as [_ [P _]].
      apply inCurrentMonth_true in P. tauto.
    + destruct (updateMonthlyData_spec rng rng_inj now (User.id user) data (ledger s) W)
        as [r [st' [Run [_ [_ [_ [_ [Hs _]]]]]]]].
      rewrite Run. cbn [answer fst body bodyOwners].
      constructor; [|constructor]. unfold slot in Hs. congruence.
    + destruct (closeMonth_spec rng rng_inj now (User.id user) (ledger s) W)
        as [rows [st1 [st2 [_ [_ [Run _]]]]]].
      rewrite Run. cbn. constructor.
    + unfold getMonthlyHistory, bind, this, ret. cbn [answer fst body bodyOwners].
      apply owners_of_map. intros h Hh. unfold JsArray.slice0 in Hh.
      apply in_firstn, JsArrayFacts.sort_in, filter_In in Hh.
      now apply String.eqb_eq.
    + destruct (orNull category) as [c|]; [|cbn; constructor].
      unfold getTransactionsByCategory, bind, this, ret. cbn [answer fst body bodyOwners].
      apply owners_of_map. intros t Ht.
      apply JsArrayFacts.sort_in, filter_In in Ht. destruct Ht as [_ P].
      cbv zeta in P. rewrite !andb_true_iff in P. now apply String.eqb_eq.
    + destruct (createTransaction_spec rng rng_inj now (User.id user) data (ledger s) W)
        as [t [st' [Run [_ [Ht _]]]]].
      rewrite Run. cbn [answer fst body bodyOwners].
      constructor; [|constructor]. now rewrite Ht.
    + destruct (updateTransaction_outcome rng rng_inj now (User.id user) id data
                  (ledger s) W) as [E|[t [st' [E [_ Ht]]]]]; rewrite E.
      * cbn. constructor.
      * cbn [answer fst body bodyOwners]. constructor; [now symmetry|constructor].
    + destruct (deleteTransaction_outcome rng rng_inj now (User.id user) id (ledger s) W)
        as [E|[st' [E _]]]; rewrite E; cbn; constructor.
  - intros v Hv. assert (other : User.id user <> v) by congruence.
    destruct (handle_ledger rng now req s) as [E|[user' [A' [l [E H]]]]]; rewrite E;
      [reflexivity|].
    rewrite A in A'. inversion A'; subst user'. cbn [ledger].
    destruct H as [->|[[data ->]|[->|[[data ->]|[[id [data ->]]|[id ->]]]]]].
    + now apply getCurrentMonthData_view.
    + now apply updateMonthlyData_view.
    + now apply closeMonth_view.
    + now apply createTransaction_view.
    + now apply updateTransaction_view.
    + now apply deleteTransaction_view.
Qed.

Lemma twoUsers_served : served sampleId twoUsers.
Proof. apply served_handle, served_firebaseLogin, loggedIn_served. Qed.

Lemma requests_serve_the_session_user_only_witness :
  let req := mkRequest (Some "xk") PostMonthlyClose in
  let user := User.mk "xk" "uid-2" "firebase-auth" None None None None
                      (Some sampleNow) (Some sampleNow) in
  sessionUserId req = Some (User.id user)
  /\ Forall (eq (User.id user))
            (bodyOwners (body (fst (handle sampleId sampleLater req twoUsers))))
  /\ forall v, v <> User.id user ->
               ownerView v (ledger (snd (handle sampleId sampleLater req twoUsers)))
               = ownerView v (ledger twoUsers).
Proof.
  exact (requests_serve_the_session_user_only sampleId sampleId_inj sampleLater
           (mkRequest (Some "xk") PostMonthlyClose) twoUsers
           (User.mk "xk" "uid-2" "firebase-auth" None None None None
                    (Some sampleNow) (Some sampleNow))
           twoUsers_served eq_refl).
Defined.

(** ** The client's test for a 401 *)

Lemma prefix_app (p s : string) :
  String.prefix p s = true <-> exists r, s = (p ++ r)%string.
Proof.
  revert s. induction p as [|c p IH]; intro s.
  - destruct s; cbn; (split; [intros _; eexists; reflexivity|reflexivity]).
  - destruct s as [|d s]; cbn; [split; [discriminate|intros [r E]; discriminate]|].
    destruct (Ascii.ascii_dec c d) as [E|E].
    + subst d. rewrite IH. split; intros [r H]; exists r; congruence.
    + split; [discriminate|]. intros [r H]. congruence.
Qed.

Lemma substring_after (p r : string) :
  substring (String.length p) (String.length (p ++ r) - String.length p) (p ++ r) = r.
Proof.
  induction p as [|c p IH]; cbn [String.length append substring].
  - rewrite Nat.sub_0_r. induction r as [|d r IHr]; [reflexivity|]. cbn. now rewrite IHr.
  - exact IH.
Qed.

Lemma matchesAnyThen_spec (word s : string) :
  matchesAnyThen word s = true
  <-> exists middle rest,
        s = (middle ++ word ++ rest)%string
        /\ forallb (fun c => negb (isLineTerminator c)) (list_ascii_of_string middle)
           = true.
Proof.
  induction s as [|c s IH].
  - cbn [matchesAnyThen]. rewrite orb_false_r, prefix_app. split.
    + intros [r E]. now exists ""%string, r.
    + intros [[|d middle] [rest [E _]]]; [now exists rest|discriminate].
  - cbn [matchesAnyThen]. rewrite orb_true_iff, andb_true_iff, prefix_app, IH. split.
    + intros [[r E]|[Hc [middle [rest [E F]]]]].
      * now exists ""%string, r.
      * exists (String c middle), rest. split; [cbn; now rewrite E|].
        cbn. now rewrite Hc, F.
    + intros [[|d middle] [rest [E F]]].
      * left. now exists rest.
      * right. cbn in E, F. inversion E; subst d. apply andb_true_iff in F.
        split; [tauto|]. exists middle, rest. tauto.
Qed.

(** X17: [isUnauthorizedError] accepts exactly the messages that start with
    ["401: "] and go on, after any characters of the same line, with
    ["Unauthorized"]; what follows that word does not matter. *)
Theorem isUnauthorizedError_spec (message : string) :
  isUnauthorizedError message = true
  <-> exists middle rest,
        message = ("401: " ++ middle ++ "Unauthorized" ++ rest)%string
        /\ forallb (fun c => negb (isLineTerminator c)) (list_ascii_of_string middle)
           = true.
Proof.
  unfold isUnauthorizedError. rewrite andb_true_iff, prefix_app. split.
  - intros [[r E] H]. subst message.
    change 5%nat with (String.length "401: ") in H. rewrite substring_after in H.
    apply matchesAnyThen_spec in H. destruct H as [middle [rest [E F]]].
    exists middle, rest. now rewrite E.
  - intros [middle [rest [E F]]]. subst message. split; [now eexists|].
    change 5%nat with (String.length "401: ").
    rewrite substring_after. apply matchesAnyThen_spec. now exists middle, rest.
Qed.

(** ** Posted totals are the totals read *)

(** X18: totals posted with [updateMonthlyData] are what
    [getCurrentMonthData] returns next in the same month: the row returned
    by the update is one of the three rows read, and it is the only row of
    its category among them, so that category reads the posted [gastos] and
    [receita]. *)
Theorem posted_totals_are_read_back
    (rng : nat -> string) (rng_inj : forall i j, rng i = rng j -> i = j)
    (now now' : Date) (userId : string) (updateData : UpdateMonthlyData.t)
    (st : MemStorage) :
  reachable rng st ->
  getMonth now' = getMonth now ->
  getFullYear now' = getFullYear now ->
  exists r st1 rows st2,
    updateMonthlyData rng now userId updateData st = (Returned r, st1)
    /\ getCurrentMonthData rng now' userId st1 = (Returned rows, st2)
    /\ map MonthlyData.category rows = categories
    /\ In r rows
    /\ (MonthlyData.category r, MonthlyData.gastos r, MonthlyData.receita r)
       = (UpdateMonthlyData.category updateData, UpdateMonthlyData.gastos updateData,
          UpdateMonthlyData.receita updateData)
    /\ (forall r', In r' rows ->
                   MonthlyData.category r' = UpdateMonthlyData.category updateData ->
                   r' = r).
Proof.
  intros R Hm Hy. pose proof (reachable_wf rng rng_inj st R) as W.
  destruct (updateMonthlyData_spec rng rng_inj now userId updateData st W)
    as [r [st1 [Run1 [W1 [_ [_ [_ [Hs [Hg [Hr Hin]]]]]]]]]].
  destruct (getCurrentMonthData_spec rng rng_inj now' userId st1 W1)
    as [rows [st2 [Run2 E]]].
  pose proof (ensured_currentRows rng now' userId st1 rows st2 E) as Hall.
  destruct E as [W2 [_ [_ [_ [Hcat [Hrows [Hfwd _]]]]]]]. cbn [fst snd] in *.
  assert (Hstored : In (MonthlyData.id r, r) (monthlyData st2)).
  { apply Hfwd, Hin. now left. }
  assert (P : inCurrentMonth userId (getMonth now' + 1) (getFullYear now') r = true).
  { apply inCurrentMonth_true. unfold slot in Hs. rewrite Hm, Hy.
    inversion Hs. repeat split. }
  exists r, st1, rows, st2. split; [exact Run1|]. split; [exact Run2|].
  split; [exact Hcat|]. split; [exact (Hall _ _ Hstored P)|].
  split; [unfold slot in Hs; congruence|].
  intros r' Hr' Hc. destruct (Hrows r' Hr') as [Hin' [P' _]].
  assert (Eslot : slot r' = slot r).
  { apply inCurrentMonth_slot in P'. rewrite P', Hs, Hc, Hm, Hy. reflexivity. }
  pose proof (wf_md_slot _ _ W2 _ _ _ _ Hin' Hstored Eslot) as Eid.
  rewrite Eid in Hin'.
  exact (JsMapFacts.in_functional _ _ _ _ (proj1 (wf_md _ _ W2)) Hin' Hstored).
Qed.

Lemma posted_totals_are_read_back_witness :
  exists r st1 rows st2,
    updateMonthlyData sampleId sampleNow "u" (UpdateMonthlyData.mk plr_nacional "999" "0")
      oneExpense = (Returned r, st1)
    /\ getCurrentMonthData sampleId sampleLater "u" st1 = (Returned rows, st2)
    /\ map MonthlyData.category rows = categories
    /\ In r rows
    /\ (MonthlyData.category r, MonthlyData.gastos r, MonthlyData.receita r)
       = (plr_nacional, "999", "0")
    /\ (forall r', In r' rows -> MonthlyData.category r' = plr_nacional -> r' = r).
Proof.
  exact (posted_totals_are_read_back sampleId sampleId_inj sampleNow sampleLater "u"
           (UpdateMonthlyData.mk plr_nacional "999" "0") oneExpense
           oneExpense_reachable eq_refl eq_refl).
Defined.

(** ** Rows of other months *)

Lemma other_month_slot (now : Date) (userId : string) (category : Category)
    (d : MonthlyData.t) :
  (MonthlyData.month d, MonthlyData.year d) <> (getMonth now + 1, getFullYear now) ->
  slot d <> (userId, category, getMonth now + 1, getFullYear now).
Proof. intros N E. apply N. unfold slot in E. congruence. Qed.

(** X19: every operation works on the totals rows of the month of its call
    only.  On every storage the operations lead to, a totals row of another
    month or year (of any owner) is stored after the operation exactly when
    it was stored before, under the same key and with the same content:
    reads do not touch it, recomputing does not refresh it, and [closeMonth]
    neither deletes nor archives it. *)
Theorem rows_of_other_months_stay
    (rng : nat -> string) (rng_inj : forall i j, rng i = rng j -> i = j)
    (now : Date) (userId : string) (st : MemStorage) (kv : string * MonthlyData.t) :
  reachable rng st ->
  (MonthlyData.month (snd kv), MonthlyData.year (snd kv))
  <> (getMonth now + 1, getFullYear now) ->
  (In kv (monthlyData (snd (getCurrentMonthData rng now userId st)))
   <-> In kv (monthlyData st))
  /\ (forall updateData,
        In kv (monthlyData (snd (updateMonthlyData rng now userId updateData st)))
        <-> In kv (monthlyData st))
  /\ (In kv (monthlyData (snd (closeMonth rng now userId st)))
      <-> In kv (monthlyData st))
  /\ (forall transaction,
        In kv (monthlyData (snd (createTransaction rng now userId transaction st)))
        <-> In kv (monthlyData st))
  /\ (forall id transaction,
        In kv (monthlyData (snd (updateTransaction rng now userId id transaction st)))
        <-> In kv (monthlyData st))
  /\ (forall id,
        In kv (monthlyData (snd (deleteTransaction rng now userId id st)))
        <-> In kv (monthlyData st)).
Proof.
  intros R N. pose proof (reachable_wf rng rng_inj st R) as W.
  assert (P : inCurrentMonth userId (getMonth now + 1) (getFullYear now) (snd kv) = false).
  { destruct (inCurrentMonth userId (getMonth now + 1) (getFullYear now) (snd kv)) eqn:E;
      [|reflexivity].
    apply inCurrentMonth_true in E. exfalso. apply N. destruct E as [_ [-> ->]].
    reflexivity. }
  split; [|split; [|split; [|split; [|split]]]].
  - destruct (getCurrentMonthData_spec rng rng_inj now userId st W)
      as [rows [st' [Run E]]].
    rewrite Run. cbn [snd].
    destruct E as [_ [_ [_ [_ [_ [Hrows [Hfwd Hback]]]]]]]. cbn [fst snd] in *.
    split; [|apply Hfwd]. intro H. destruct (Hback _ H) as [H'|H']; [exact H'|].
    destruct (Hrows _ H') as [_ [P' _]]. congruence.
  - intro updateData.
    destruct (updateMonthlyData_spec rng rng_inj now userId updateData st W)
      as [r [st' [Run [_ [_ [_ [_ [Hs [_ [_ Hin]]]]]]]]]].
    rewrite Run. cbn [snd]. rewrite Hin, Hs. split.
    + intros [E|[H _]]; [|exact H]. exfalso. subst kv. cbn [snd] in N.
      apply (other_month_slot now userId (UpdateMonthlyData.category updateData) r N Hs).
    + intro H. right. split; [exact H|]. now apply other_month_slot.
  - destruct (closeMonth_spec rng rng_inj now userId st W)
      as [rows [st1 [st2 [_ [_ [Run [_ [_ [_ [_ Hmd]]]]]]]]]].
    rewrite Run. cbn [snd]. rewrite Hmd. tauto.
  - intro transaction.
    destruct (createTransaction_spec rng rng_inj now userId transaction st W)
      as [t [st' [Run [_ [_ [_ [_ [_ Hin]]]]]]]].
    rewrite Run. cbn [snd]. apply Hin. now apply other_month_slot.
  - intros id transaction.
    destruct (JsMap.get id (transactions st)) as [existing|] eqn:G.
    + destruct (String.eqb_spec (Transaction.userId existing) userId) as [U|U].
      * destruct (updateTransaction_spec rng rng_inj now userId id transaction st
                    existing W G U) as [st' [Run [_ [_ [_ [_ Hin]]]]]].
        rewrite Run. cbn [snd]. apply Hin. now apply other_month_slot.
      * rewrite updateTransaction_run, G, (proj2 (String.eqb_neq _ _) U). reflexivity.
    + rewrite updateTransaction_run, G. reflexivity.
  - intro id.
    destruct (JsMap.get id (transactions st)) as [existing|] eqn:G.
    + destruct (String.eqb_spec (Transaction.userId existing) userId) as [U|U].
      * destruct (deleteTransaction_spec rng rng_inj now userId id st existing W G U)
          as [st' [Run [_ [_ [_ [_ Hin]]]]]].
        rewrite Run. cbn [snd]. apply Hin. now apply other_month_slot.
      * rewrite deleteTransaction_run, G, (proj2 (String.eqb_neq _ _) U). reflexivity.
    + rewrite deleteTransaction_run, G. reflexivity.
Qed.

Lemma rows_of_other_months_stay_witness :
  let kv := ("xk", MonthlyData.mk "xk" "u" plr_nacional 11 2026 "50.00" "0.00"
                                  sampleNow sampleNow) in
  let december := mkDate 2026 11 1796083200000 in
  (In kv (monthlyData (snd (getCurrentMonthData sampleId december "u" oneExpense)))
   <-> In kv (monthlyData oneExpense))
  /\ (forall updateData,
        In kv (monthlyData (snd (updateMonthlyData sampleId december "u" updateData
                                   oneExpense)))
        <-> In kv (monthlyData oneExpense))
  /\ (In kv (monthlyData (snd (closeMonth sampleId december "u" oneExpense)))
      <-> In kv (monthlyData oneExpense))
  /\ (forall transaction,
        In kv (monthlyData (snd (createTransaction sampleId december "u" transaction
                                   oneExpense)))
        <-> In kv (monthlyData oneExpense))
  /\ (forall id transaction,
        In kv (monthlyData (snd (updateTransaction sampleId december "u" id transaction
                                   oneExpense)))
        <-> In kv (monthlyData oneExpense))
  /\ (forall id,
        In kv (monthlyData (snd (deleteTransaction sampleId december "u" id oneExpense)))
        <-> In kv (monthlyData oneExpense)).
Proof.
  apply (rows_of_other_months_stay sampleId sampleId_inj (mkDate 2026 11 1796083200000)
           "u" oneExpense
           ("xk", MonthlyData.mk "xk" "u" plr_nacional 11 2026 "50.00" "0.00"
                                 sampleNow sampleNow)
           oneExpense_reachable).
  cbn. intro E. inversion E.
Defined.
